(** * arch/arm64/kernel/topology.c

    A shallow embedding of the CPU topology code of the msm8953 (mido)
    kernel: the device-tree discovery of clusters, cores and threads, the
    per-CPU topology table with its sibling masks, the scheduling-domain
    degeneracy predicates and the construction of performance domains.

    Conventions.
    - A C [int] is a [Z] kept in the 32-bit two's complement range; every
      arithmetic operation of the source is followed by [wrap_int] (the
      kernel is built with wrapping signed arithmetic).
    - A [struct cpumask] is a [Z] read as a bitmap; only the bits below
      [NR_CPUS] are looked at by the cpumask operations, as in the kernel.
    - A CPU number is a [nat]; [NR_CPUS] is taken to fit an [int].
    - A NULL-terminated linked list is a [list]; the NULL pointer is [[]].
    - Kernel log output is a list of [kmsg], oldest first. *)

From Stdlib Require Import ZArith List String Ascii Bool Lia DecimalString FinFun.
From stdpp Require Import base list strings numbers.

Local Open Scope Z_scope.

(** ** C integers *)

Definition INT_MIN : Z := - 2 ^ 31.
Definition INT_MAX : Z := 2 ^ 31 - 1.

Definition wrap_int (x : Z) : Z := (x + 2 ^ 31) mod 2 ^ 32 - 2 ^ 31.

Definition int_add (a b : Z) : Z := wrap_int (a + b).
Definition int_mul (a b : Z) : Z := wrap_int (a * b).

Definition EINVAL : Z := 22.

(** ** Configuration constants

    [NR_CPUS] comes from the kernel configuration and the [SD_*] bits from
    [include/linux/sched.h]; neither is part of this file, so the code is
    embedded over any choice of them. *)

Class kconfig := {
  NR_CPUS : nat;
  SD_LOAD_BALANCE : Z;
  SD_BALANCE_NEWIDLE : Z;
  SD_BALANCE_EXEC : Z;
  SD_BALANCE_FORK : Z;
  SD_WAKE_AFFINE : Z;
  SD_ASYM_CPUCAPACITY : Z;
  SD_SHARE_CPUCAPACITY : Z;
  SD_SHARE_POWERDOMAIN : Z;
  SD_SHARE_PKG_RESOURCES : Z;
  SD_SERIALIZE : Z;
  SD_PREFER_SIBLING : Z;
  SD_SHARE_CAP_STATES : Z
}.

(** A sample configuration for the worked examples: the eight CPUs of the
    msm8953 and the flag bits as the scheduler headers of that kernel
    generation number them. *)
Definition mido_config : kconfig := {|
  NR_CPUS := 8;
  SD_LOAD_BALANCE := 0x0001;
  SD_BALANCE_NEWIDLE := 0x0002;
  SD_BALANCE_EXEC := 0x0004;
  SD_BALANCE_FORK := 0x0008;
  SD_WAKE_AFFINE := 0x0020;
  SD_ASYM_CPUCAPACITY := 0x0040;
  SD_SHARE_CPUCAPACITY := 0x0080;
  SD_SHARE_POWERDOMAIN := 0x0100;
  SD_SHARE_PKG_RESOURCES := 0x0200;
  SD_SERIALIZE := 0x0400;
  SD_PREFER_SIBLING := 0x1000;
  SD_SHARE_CAP_STATES := 0x8000
|}.

(** ** CPU masks *)

Definition cpumask := Z.

Definition cpumask_test_cpu (cpu : nat) (m : cpumask) : bool :=
  Z.testbit m (Z.of_nat cpu).

Definition cpumask_set_cpu (cpu : nat) (m : cpumask) : cpumask :=
  Z.lor m (Z.shiftl 1 (Z.of_nat cpu)).

Definition cpumask_clear (m : cpumask) : cpumask := 0.

Section Cpumask.
Context {K : kconfig}.

(** [for_each_cpu(i, mask)]: the set bits below [NR_CPUS], ascending. *)
Definition for_each_cpu (m : cpumask) : list nat :=
  List.filter (fun c => cpumask_test_cpu c m) (seq 0 NR_CPUS).

Definition cpumask_weight (m : cpumask) : Z :=
  Z.of_nat (length (for_each_cpu m)).

(** [cpumask_first] answers a value [>= nr_cpu_ids] on an empty mask. *)
Definition cpumask_first (m : cpumask) : nat :=
  match for_each_cpu m with
  | c :: _ => c
  | [] => NR_CPUS
  end.

Definition cpumask_equal (a b : cpumask) : bool :=
  forallb (fun c => Bool.eqb (cpumask_test_cpu c a) (cpumask_test_cpu c b))
          (seq 0 NR_CPUS).
End Cpumask.

(** ** Scheduling domains

    [groups] is the ring of groups hanging off [sd->groups]; a NULL pointer
    is the empty list.  [sd->parent] is always handed over explicitly. *)

Record sched_group := { sg_span : cpumask }.

Record sched_domain := {
  span : cpumask;
  flags : Z;
  groups : list sched_group
}.

Definition sched_domain_span (sd : sched_domain) : cpumask := span sd.

Definition is_null {A} (p : list A) : bool :=
  match p with [] => true | _ => false end.

Section Degenerate.
Context {K : kconfig}.

(** The flags that "need at least 2 groups" in [sd_degenerate]. *)
Definition SD_DEGENERATE_GROUPS_MASK : Z :=
  Z.lor SD_LOAD_BALANCE
  (Z.lor SD_BALANCE_NEWIDLE
  (Z.lor SD_BALANCE_FORK
  (Z.lor SD_BALANCE_EXEC
  (Z.lor SD_SHARE_CPUCAPACITY
  (Z.lor SD_ASYM_CPUCAPACITY
  (Z.lor SD_SHARE_PKG_RESOURCES
        SD_SHARE_POWERDOMAIN)))))).

(** The flags cleared from [pflags] in [sd_parent_degenerate]. *)
Definition SD_PARENT_GROUPS_MASK : Z :=
  Z.lor SD_LOAD_BALANCE
  (Z.lor SD_BALANCE_NEWIDLE
  (Z.lor SD_BALANCE_FORK
  (Z.lor SD_BALANCE_EXEC
  (Z.lor SD_ASYM_CPUCAPACITY
  (Z.lor SD_SHARE_CPUCAPACITY
  (Z.lor SD_SHARE_PKG_RESOURCES
  (Z.lor SD_PREFER_SIBLING
        SD_SHARE_POWERDOMAIN))))))).

Definition sd_degenerate (sd : sched_domain) : Z :=
  if cpumask_weight (sched_domain_span sd) =? 1 then 1
  else if negb (Z.land (flags sd) SD_DEGENERATE_GROUPS_MASK =? 0)
            && negb (is_null (groups sd)) then 0
  else if negb (Z.land (flags sd) SD_WAKE_AFFINE =? 0) then 0
  else 1.

(** The value of [pflags] at the final test of [sd_parent_degenerate]. *)
Definition parent_pflags (nr_node_ids : Z) (parent : sched_domain) : Z :=
  let pflags := flags parent in
  if negb (is_null (groups parent)) then
    let pflags := Z.land pflags (Z.lnot SD_PARENT_GROUPS_MASK) in
    if nr_node_ids =? 1 then Z.land pflags (Z.lnot SD_SERIALIZE)
    else pflags
  else pflags.

Definition sd_parent_degenerate (nr_node_ids : Z)
    (sd parent : sched_domain) : Z :=
  let cflags := flags sd in
  if negb (sd_degenerate parent =? 0) then 1
  else if negb (cpumask_equal (sched_domain_span sd)
                              (sched_domain_span parent)) then 0
  else
    let pflags := parent_pflags nr_node_ids parent in
    if negb (Z.land (Z.lnot cflags) pflags =? 0) then 0
    else 1.

(** [parent_degenerate] as the specification words it: the group flags
    are dropped from the parent "when [p.group_count <= 1]". *)
Definition spec_p_effective (nr_node_ids : Z) (p : sched_domain) : Z :=
  if (length (groups p) <=? 1)%nat then
    let e := Z.land (flags p) (Z.lnot SD_PARENT_GROUPS_MASK) in
    if nr_node_ids =? 1 then Z.land e (Z.lnot SD_SERIALIZE) else e
  else flags p.

Definition spec_parent_degenerate (nr_node_ids : Z)
    (d p : sched_domain) : bool :=
  if negb (sd_degenerate p =? 0) then true
  else if negb (cpumask_equal (span d) (span p)) then false
  else Z.land (Z.lnot (flags d)) (spec_p_effective nr_node_ids p) =? 0.
End Degenerate.

(** ** Performance domains

    [struct em_perf_domain], the cpufreq policy and the per-CPU
    [sd_asym_cpucapacity] pointer are declared outside this file; they are
    the external inputs of [build_perf_domains], gathered in [sched_env].
    A [struct perf_domain] node is its energy-model handle; [next] is the
    tail of the list. *)

Record em_perf_domain := {
  nr_cap_states : Z;
  em_cpus : cpumask
}.

Definition em_pd_nr_cap_states (obj : em_perf_domain) : Z := nr_cap_states obj.
Definition em_span_cpus (obj : em_perf_domain) : cpumask := em_cpus obj.

Record perf_domain := { em_pd : em_perf_domain }.

Definition perf_domain_span (pd : perf_domain) : cpumask :=
  em_span_cpus (em_pd pd).

Inductive cpufreq_governor :=
| schedutil_gov
| other_governor (id : nat).

Record cpufreq_policy := { governor : cpufreq_governor }.

Definition is_schedutil (g : cpufreq_governor) : bool :=
  match g with schedutil_gov => true | other_governor _ => false end.

(** [kzalloc_ok cpu] tells whether the allocation made by [pd_init(cpu)]
    succeeds; [sd_asym_cpucapacity cpu] whether the per-CPU pointer is
    non-NULL; [sched_debug] is the answer of [sched_debug()]. *)
Record sched_env := {
  sd_asym_cpucapacity : nat -> bool;
  cpufreq_cpu_get : nat -> option cpufreq_policy;
  em_cpu_get : nat -> option em_perf_domain;
  kzalloc_ok : nat -> bool;
  sched_debug : bool
}.

Inductive kmsg :=
| info_no_asym_capacity (cpu_map : cpumask)
| warn_schedutil_mandatory (cpu_map : cpumask)
| info_no_em (cpu : nat)
| WARN_em_complexity (cpu_map : cpumask)
| debug_perf_domains (cpu_map : cpumask) (pd : list perf_domain)
| crit_no_cpu_node (phandle : nat)
| err_thread_no_cpu (node : string)
| err_core_threads_and_cpu (node : string)
| err_leaf_core_no_cpu (node : string)
| err_children_should_be_clusters (node : string)
| err_non_leaf_cluster_with_core (node : string) (name : string)
| warn_empty_cluster (node : string)
| err_no_cpu_information
| WARN_ON_no_efficiency (cpu : nat).

(** The root domain of the CPUs being rebuilt ([cpu_rq(cpu)->rd]), the
    queue of RCU callbacks and the kernel log.  Each queued callback is
    [destroy_perf_domain_rcu] on the list it is queued with. *)
Record sched_state := {
  rd_pd : list perf_domain;
  rcu_callbacks : list (list perf_domain);
  sched_log : list kmsg
}.

Fixpoint find_pd (pd : list perf_domain) (cpu : nat) : list perf_domain :=
  match pd with
  | [] => []
  | p :: next =>
      if cpumask_test_cpu cpu (perf_domain_span p) then pd
      else find_pd next cpu
  end.

Definition pd_init (E : sched_env) (cpu : nat) (log : list kmsg)
  : option perf_domain * list kmsg :=
  match em_cpu_get E cpu with
  | None => (None, if sched_debug E then log ++ [info_no_em cpu] else log)
  | Some obj =>
      if kzalloc_ok E cpu then (Some {| em_pd := obj |}, log)
      else (None, log)
  end.

Definition perf_domain_debug (E : sched_env) (cpu_map : cpumask)
    (pd : list perf_domain) (log : list kmsg) : list kmsg :=
  if negb (sched_debug E) || is_null pd then log
  else log ++ [debug_perf_domains cpu_map pd].

Definition EM_MAX_COMPLEXITY : Z := 2048.

(** The local variables [pd], [nr_pd] and [nr_cs] of
    [build_perf_domains]. *)
Record pd_build := {
  b_pd : list perf_domain;
  b_nr_pd : Z;
  b_nr_cs : Z
}.

(** The [for_each_cpu] loop of [build_perf_domains]; [None] is a
    [goto free] taken from inside the loop. *)
Fixpoint build_perf_domains_loop (E : sched_env) (cpu_map : cpumask)
    (old : list perf_domain) (cpus : list nat) (b : pd_build)
    (log : list kmsg) : option pd_build * list kmsg :=
  match cpus with
  | [] => (Some b, log)
  | i :: rest =>
      if negb (is_null (find_pd (b_pd b) i)) then
        build_perf_domains_loop E cpu_map old rest b log
      else
        match cpufreq_cpu_get E i with
        | None => (None, log)
        | Some policy =>
            if negb (is_schedutil (governor policy)) then
              (None, if negb (is_null old)
                     then log ++ [warn_schedutil_mandatory cpu_map]
                     else log)
            else
              match pd_init E i log with
              | (None, log) => (None, log)
              | (Some tmp, log) =>
                  build_perf_domains_loop E cpu_map old rest
                    {| b_pd := tmp :: b_pd b;
                       b_nr_pd := int_add (b_nr_pd b) 1;
                       b_nr_cs := int_add (b_nr_cs b)
                                    (em_pd_nr_cap_states (em_pd tmp)) |}
                    log
              end
        end
  end.

Definition sum_cap_states (pd : list perf_domain) : Z :=
  fold_right (fun p acc => em_pd_nr_cap_states (em_pd p) + acc) 0 pd.

(** [nr_pd] and [nr_cs] count what is on the local list. *)
Definition counts_ok (b : pd_build) : Prop :=
  b_nr_pd b = wrap_int (Z.of_nat (length (b_pd b))) /\
  b_nr_cs b = wrap_int (sum_cap_states (b_pd b)).

(** [nr_pd * (nr_cs + nr_cpus)], in [int] arithmetic. *)
Definition em_complexity (nr_pd nr_cs nr_cpus : Z) : Z :=
  int_mul nr_pd (int_add nr_cs nr_cpus).

(** [tmp = rd->pd; rcu_assign_pointer(rd->pd, pd); if (tmp) call_rcu(...)],
    the common tail of the success path and of the [free] label.  Under
    [free] the pointer stored is NULL; the [free_pd(pd)] that precedes it
    releases the local list, which nothing else refers to, and the empty
    [free_pd] declared after it has no effect. *)
Definition attach_pd (pd : list perf_domain) (log : list kmsg)
    (s : sched_state) : sched_state :=
  let tmp := rd_pd s in
  {| rd_pd := pd;
     rcu_callbacks := if negb (is_null tmp) then rcu_callbacks s ++ [tmp]
                      else rcu_callbacks s;
     sched_log := log |}.

Section BuildPerfDomains.
Context {K : kconfig}.

(** The traversal of [build_perf_domains], started from its initial
    locals. *)
Definition build_traverse (E : sched_env) (cpu_map : cpumask)
    (s : sched_state) : option pd_build * list kmsg :=
  build_perf_domains_loop E cpu_map (rd_pd s) (for_each_cpu cpu_map)
    {| b_pd := []; b_nr_pd := 0; b_nr_cs := 0 |} (sched_log s).

(** The code after the loop: the complexity gate, then publication. *)
Definition build_finish (E : sched_env) (cpu_map : cpumask)
    (b : pd_build) (log : list kmsg) (s : sched_state) : sched_state :=
  let nr_cpus := wrap_int (cpumask_weight cpu_map) in
  if em_complexity (b_nr_pd b) (b_nr_cs b) nr_cpus >? EM_MAX_COMPLEXITY then
    attach_pd [] (log ++ [WARN_em_complexity cpu_map]) s
  else
    attach_pd (b_pd b) (perf_domain_debug E cpu_map (b_pd b) log) s.

Definition build_perf_domains (E : sched_env) (cpu_map : cpumask)
    (s : sched_state) : sched_state :=
  let cpu := cpumask_first cpu_map in
  if negb (sd_asym_cpucapacity E cpu) then
    attach_pd []
      (if sched_debug E then sched_log s ++ [info_no_asym_capacity cpu_map]
       else sched_log s) s
  else
    match build_traverse E cpu_map s with
    | (None, log) => attach_pd [] log s
    | (Some b, log) => build_finish E cpu_map b log s
    end.
End BuildPerfDomains.


(** ** The device tree (external)

    A node of the [cpu-map] subtree carries its name, the node its ["cpu"]
    phandle resolves to (a node identity), if it has one, and its
    children.  The [/cpus/cpu@N] nodes are kept apart: [of_get_cpu_node]
    answers, for a logical CPU, the identity of its node and the value of
    its ["efficiency"] property. *)

#[warnings="-register-all"]
Inductive device_node :=
| DeviceNode (name : string) (cpu : option nat) (child : list device_node).

Definition dn_name (n : device_node) : string :=
  match n with DeviceNode name _ _ => name end.
Definition dn_cpu (n : device_node) : option nat :=
  match n with DeviceNode _ cpu _ => cpu end.
Definition dn_child (n : device_node) : list device_node :=
  match n with DeviceNode _ _ child => child end.

Record cpu_node := {
  cn_id : nat;
  cn_efficiency : option Z
}.

Record topo_env := {
  cpu_possible_mask : cpumask;
  of_find_cpus : option device_node;
  of_get_cpu_node : nat -> option cpu_node
}.

(** Node names are compared as they are written. *)
Definition of_get_child_by_name (node : device_node) (name : string)
  : option device_node :=
  List.find (fun c => String.eqb (dn_name c) name) (dn_child node).

(** [snprintf(name, size, "<prefix>%d", i)]: at most [size - 1] characters
    are stored. *)
Definition snprintf_d (size : nat) (prefix : string) (i : Z) : string :=
  String.substring 0 (size - 1)
    (String.append prefix (NilZero.string_of_int (Z.to_int i))).

(** ** The topology table *)

Record cpu_topology_t := {
  thread_id : Z;
  core_id : Z;
  cluster_id : Z;
  thread_sibling : cpumask;
  core_sibling : cpumask
}.

#[global] Instance cpu_topology_inhabited : Inhabited cpu_topology_t :=
  populate {| thread_id := 0; core_id := 0; cluster_id := 0;
              thread_sibling := 0; core_sibling := 0 |}.

Definition set_thread_id (v : Z) (t : cpu_topology_t) : cpu_topology_t :=
  {| thread_id := v; core_id := core_id t; cluster_id := cluster_id t;
     thread_sibling := thread_sibling t; core_sibling := core_sibling t |}.
Definition set_core_id (v : Z) (t : cpu_topology_t) : cpu_topology_t :=
  {| thread_id := thread_id t; core_id := v; cluster_id := cluster_id t;
     thread_sibling := thread_sibling t; core_sibling := core_sibling t |}.
Definition set_cluster_id (v : Z) (t : cpu_topology_t) : cpu_topology_t :=
  {| thread_id := thread_id t; core_id := core_id t; cluster_id := v;
     thread_sibling := thread_sibling t; core_sibling := core_sibling t |}.
Definition upd_thread_sibling (f : cpumask -> cpumask) (t : cpu_topology_t)
  : cpu_topology_t :=
  {| thread_id := thread_id t; core_id := core_id t;
     cluster_id := cluster_id t;
     thread_sibling := f (thread_sibling t);
     core_sibling := core_sibling t |}.
Definition upd_core_sibling (f : cpumask -> cpumask) (t : cpu_topology_t)
  : cpu_topology_t :=
  {| thread_id := thread_id t; core_id := core_id t;
     cluster_id := cluster_id t;
     thread_sibling := thread_sibling t;
     core_sibling := f (core_sibling t) |}.

(** The globals of the file: the [cpu_topology] array ([NR_CPUS] entries),
    the per-CPU [cpu_efficiency], the function-static [cluster_id] of
    [parse_cluster], the log, and whether [set_sched_topology] and
    [init_sched_energy_costs] have been called. *)
Record topo_state := {
  cpu_topology : list cpu_topology_t;
  cpu_efficiency : list Z;
  static_cluster_id : Z;
  topo_log : list kmsg;
  sched_topology_set : bool;
  energy_costs_initialized : bool
}.

Definition upd_topology (f : list cpu_topology_t -> list cpu_topology_t)
    (st : topo_state) : topo_state :=
  {| cpu_topology := f (cpu_topology st);
     cpu_efficiency := cpu_efficiency st;
     static_cluster_id := static_cluster_id st;
     topo_log := topo_log st;
     sched_topology_set := sched_topology_set st;
     energy_costs_initialized := energy_costs_initialized st |}.

Definition pr (m : kmsg) (st : topo_state) : topo_state :=
  {| cpu_topology := cpu_topology st;
     cpu_efficiency := cpu_efficiency st;
     static_cluster_id := static_cluster_id st;
     topo_log := topo_log st ++ [m];
     sched_topology_set := sched_topology_set st;
     energy_costs_initialized := energy_costs_initialized st |}.

Definition set_cpu_efficiency (cpu : nat) (v : Z) (st : topo_state)
  : topo_state :=
  {| cpu_topology := cpu_topology st;
     cpu_efficiency := <[cpu := v]> (cpu_efficiency st);
     static_cluster_id := static_cluster_id st;
     topo_log := topo_log st;
     sched_topology_set := sched_topology_set st;
     energy_costs_initialized := energy_costs_initialized st |}.

Definition set_static_cluster_id (v : Z) (st : topo_state) : topo_state :=
  {| cpu_topology := cpu_topology st;
     cpu_efficiency := cpu_efficiency st;
     static_cluster_id := v;
     topo_log := topo_log st;
     sched_topology_set := sched_topology_set st;
     energy_costs_initialized := energy_costs_initialized st |}.

Definition set_sched_topology (st : topo_state) : topo_state :=
  {| cpu_topology := cpu_topology st;
     cpu_efficiency := cpu_efficiency st;
     static_cluster_id := static_cluster_id st;
     topo_log := topo_log st;
     sched_topology_set := true;
     energy_costs_initialized := energy_costs_initialized st |}.

Definition init_sched_energy_costs (st : topo_state) : topo_state :=
  {| cpu_topology := cpu_topology st;
     cpu_efficiency := cpu_efficiency st;
     static_cluster_id := static_cluster_id st;
     topo_log := topo_log st;
     sched_topology_set := sched_topology_set st;
     energy_costs_initialized := true |}.

Definition arch_get_cpu_efficiency (st : topo_state) (cpu : nat) : Z :=
  cpu_efficiency st !!! cpu.

Definition cpu_coregroup_mask (st : topo_state) (cpu : nat) : cpumask :=
  core_sibling (cpu_topology st !!! cpu).

Fixpoint node_size (n : device_node) : nat :=
  match n with
  | DeviceNode _ _ child => S (list_sum (map node_size child))
  end.

Section Topology.
Context {K : kconfig}.

Definition for_each_possible_cpu (E : topo_env) : list nat :=
  for_each_cpu (cpu_possible_mask E).

(** The [for_each_possible_cpu] search of [get_cpu_for_node]: the first
    possible CPU whose device-tree node is [cpu_node]. *)
Definition cpu_of_node (E : topo_env) (cpu_node : nat) : option nat :=
  List.find (fun cpu => match of_get_cpu_node E cpu with
                        | Some n => Nat.eqb (cn_id n) cpu_node
                        | None => false
                        end)
            (for_each_possible_cpu E).

Definition get_cpu_for_node (E : topo_env) (node : device_node)
    (st : topo_state) : Z * topo_state :=
  match dn_cpu node with
  | None => (-1, st)
  | Some cpu_node =>
      match cpu_of_node E cpu_node with
      | Some cpu => (Z.of_nat cpu, st)
      | None => (-1, pr (crit_no_cpu_node cpu_node) st)
      end
  end.

(** The [do ... while (t)] loop of [parse_core], entered with the current
    [i] and [leaf]; it answers the return code if the loop returned, 0
    otherwise, and the final [leaf].  [None]: the iteration bound [fuel]
    was reached. *)
Fixpoint parse_core_threads (fuel : nat) (E : topo_env) (core : device_node)
    (cluster_id core_id : Z) (i : Z) (leaf : bool) (st : topo_state)
  : option (Z * bool * topo_state) :=
  match fuel with
  | O => None
  | S fuel =>
      match of_get_child_by_name core (snprintf_d 10 "thread" i) with
      | Some t =>
          let '(cpu, st) := get_cpu_for_node E t st in
          if 0 <=? cpu then
            let st :=
              upd_topology
                (alter (fun e => set_thread_id i
                                   (set_core_id core_id
                                      (set_cluster_id cluster_id e)))
                       (Z.to_nat cpu)) st in
            parse_core_threads fuel E core cluster_id core_id
              (int_add i 1) false st
          else
            Some (- EINVAL, false, pr (err_thread_no_cpu (dn_name t)) st)
      | None => Some (0, leaf, st)
      end
  end.

Definition parse_core (fuel : nat) (E : topo_env) (core : device_node)
    (cluster_id core_id : Z) (st : topo_state) : option (Z * topo_state) :=
  match parse_core_threads fuel E core cluster_id core_id 0 true st with
  | None => None
  | Some (ret, leaf, st) =>
      if negb (ret =? 0) then Some (ret, st)
      else
        let '(cpu, st) := get_cpu_for_node E core st in
        if 0 <=? cpu then
          if negb leaf then
            Some (- EINVAL, pr (err_core_threads_and_cpu (dn_name core)) st)
          else
            Some (0, upd_topology
                       (alter (fun e => set_core_id core_id
                                          (set_cluster_id cluster_id e))
                              (Z.to_nat cpu)) st)
        else if leaf then
          Some (- EINVAL, pr (err_leaf_core_no_cpu (dn_name core)) st)
        else Some (0, st)
  end.

(** The second loop of [parse_cluster] ("Now check for cores"), entered
    with the current [i], [core_id] and [has_cores]. *)
Fixpoint parse_cluster_cores (fuel : nat) (E : topo_env)
    (cluster : device_node) (depth : Z) (leaf : bool) (i core_id : Z)
    (has_cores : bool) (st : topo_state)
  : option (Z * bool * topo_state) :=
  match fuel with
  | O => None
  | S fuel =>
      let name := snprintf_d 10 "core" i in
      match of_get_child_by_name cluster name with
      | Some c =>
          if depth =? 0 then
            Some (- EINVAL, true,
                  pr (err_children_should_be_clusters (dn_name c)) st)
          else if leaf then
            match parse_core fuel E c (static_cluster_id st) core_id st with
            | None => None
            | Some (ret, st) =>
                if negb (ret =? 0) then Some (ret, true, st)
                else parse_cluster_cores fuel E cluster depth leaf
                       (int_add i 1) (int_add core_id 1) true st
            end
          else
            Some (- EINVAL, true,
                  pr (err_non_leaf_cluster_with_core (dn_name cluster) name)
                     st)
      | None => Some (0, has_cores, st)
      end
  end.

(** [parse_cluster], and its first loop over the [clusterN] children. *)
Fixpoint parse_cluster (fuel : nat) (E : topo_env) (cluster : device_node)
    (depth : Z) (st : topo_state) {struct fuel} : option (Z * topo_state) :=
  match fuel with
  | O => None
  | S fuel =>
      match parse_cluster_clusters fuel E cluster depth 0 true st with
      | None => None
      | Some (ret, leaf, st) =>
          if negb (ret =? 0) then Some (ret, st)
          else
            match parse_cluster_cores fuel E cluster depth leaf 0 0 false st
            with
            | None => None
            | Some (ret, has_cores, st) =>
                if negb (ret =? 0) then Some (ret, st)
                else
                  let st :=
                    if leaf && negb has_cores
                    then pr (warn_empty_cluster (dn_name cluster)) st
                    else st in
                  let st :=
                    if leaf
                    then set_static_cluster_id
                           (int_add (static_cluster_id st) 1) st
                    else st in
                  Some (0, st)
            end
      end
  end
with parse_cluster_clusters (fuel : nat) (E : topo_env)
    (cluster : device_node) (depth : Z) (i : Z) (leaf : bool)
    (st : topo_state) {struct fuel} : option (Z * bool * topo_state) :=
  match fuel with
  | O => None
  | S fuel =>
      match of_get_child_by_name cluster (snprintf_d 10 "cluster" i) with
      | Some c =>
          match parse_cluster fuel E c (int_add depth 1) st with
          | None => None
          | Some (ret, st) =>
              if negb (ret =? 0) then Some (ret, false, st)
              else parse_cluster_clusters fuel E cluster depth
                     (int_add i 1) false st
          end
      | None => Some (0, leaf, st)
      end
  end.

(** One turn of the [for_each_possible_cpu] loop that closes
    [parse_dt_topology]. *)
Definition parse_dt_check_cpu (E : topo_env) (acc : Z * topo_state)
    (cpu : nat) : Z * topo_state :=
  let '(ret, st) := acc in
  let ret :=
    if cluster_id (cpu_topology st !!! cpu) =? -1 then - EINVAL else ret in
  match of_get_cpu_node E cpu with
  | Some cn =>
      match cn_efficiency cn with
      | Some efficiency => (ret, set_cpu_efficiency cpu efficiency st)
      | None => (ret, pr (WARN_ON_no_efficiency cpu) st)
      end
  | None => (ret, pr (WARN_ON_no_efficiency cpu) st)
  end.

(** The bound handed to the traversal of a [cpu-map]; it is never reached
    on a tree whose nodes have fewer than 100 children each
    ([parse_cluster_total]). *)
Definition parse_fuel (map : device_node) : nat := 2 * node_size map.

Definition parse_dt_topology (E : topo_env) (st : topo_state)
  : option (Z * topo_state) :=
  match of_find_cpus E with
  | None => Some (0, pr err_no_cpu_information st)
  | Some cn =>
      match of_get_child_by_name cn "cpu-map" with
      | None => Some (0, st)
      | Some map =>
          match parse_cluster (parse_fuel map) E map 0 st with
          | None => None
          | Some (ret, st) =>
              if negb (ret =? 0) then Some (ret, st)
              else Some (fold_left (parse_dt_check_cpu E)
                                   (for_each_possible_cpu E) (0, st))
          end
      end
  end.

(** One turn of the loop of [update_siblings_masks(cpuid)]. *)
Definition update_siblings_step (cpuid : nat)
    (tbl : list cpu_topology_t) (cpu : nat) : list cpu_topology_t :=
  if negb (cluster_id (tbl !!! cpuid) =? cluster_id (tbl !!! cpu)) then tbl
  else
    let tbl := alter (upd_core_sibling (cpumask_set_cpu cpuid)) cpu tbl in
    let tbl :=
      if negb (cpu =? cpuid)%nat
      then alter (upd_core_sibling (cpumask_set_cpu cpu)) cpuid tbl
      else tbl in
    if negb (core_id (tbl !!! cpuid) =? core_id (tbl !!! cpu)) then tbl
    else
      let tbl := alter (upd_thread_sibling (cpumask_set_cpu cpuid)) cpu tbl in
      if negb (cpu =? cpuid)%nat
      then alter (upd_thread_sibling (cpumask_set_cpu cpu)) cpuid tbl
      else tbl.

Definition update_siblings_masks (E : topo_env) (cpuid : nat)
    (tbl : list cpu_topology_t) : list cpu_topology_t :=
  fold_left (update_siblings_step cpuid) (for_each_possible_cpu E) tbl.

Definition reset_cpu (tbl : list cpu_topology_t) (cpu : nat)
  : list cpu_topology_t :=
  alter (fun e =>
           {| thread_id := -1; core_id := 0; cluster_id := -1;
              thread_sibling :=
                cpumask_set_cpu cpu (cpumask_clear (thread_sibling e));
              core_sibling :=
                cpumask_set_cpu cpu (cpumask_clear (core_sibling e)) |})
        cpu tbl.

Definition reset_cpu_topology (E : topo_env) (tbl : list cpu_topology_t)
  : list cpu_topology_t :=
  fold_left reset_cpu (for_each_possible_cpu E) tbl.

(** The [for_each_possible_cpu] loop of [init_cpu_topology]. *)
Definition update_all_siblings_masks (E : topo_env)
    (tbl : list cpu_topology_t) : list cpu_topology_t :=
  fold_left (fun tbl cpu => update_siblings_masks E cpu tbl)
            (for_each_possible_cpu E) tbl.

Definition init_cpu_topology (E : topo_env) (st : topo_state)
  : option topo_state :=
  let st := upd_topology (reset_cpu_topology E) st in
  match parse_dt_topology E st with
  | None => None
  | Some (ret, st) =>
      let st :=
        if negb (ret =? 0) then upd_topology (reset_cpu_topology E) st
        else set_sched_topology
               (upd_topology (update_all_siblings_masks E) st) in
      Some (init_sched_energy_costs st)
  end.
End Topology.

(** ** Notions used by the statements below *)

(** The entry [reset_cpu_topology] writes for [cpu]. *)
Definition cpu_topology_default (cpu : nat) : cpu_topology_t :=
  {| thread_id := -1; core_id := 0; cluster_id := -1;
     thread_sibling := cpumask_set_cpu cpu 0;
     core_sibling := cpumask_set_cpu cpu 0 |}.

Definition cs (tbl : list cpu_topology_t) (a b : nat) : Prop :=
  cpumask_test_cpu b (core_sibling (tbl !!! a)) = true.
Definition ts (tbl : list cpu_topology_t) (a b : nat) : Prop :=
  cpumask_test_cpu b (thread_sibling (tbl !!! a)) = true.
Definition ids (t : cpu_topology_t) : Z * Z * Z :=
  (thread_id t, core_id t, cluster_id t).
Definition same_cluster (tbl : list cpu_topology_t) (a b : nat) : Prop :=
  cluster_id (tbl !!! a) = cluster_id (tbl !!! b).
Definition same_core (tbl : list cpu_topology_t) (a b : nat) : Prop :=
  core_id (tbl !!! a) = core_id (tbl !!! b).

(** [tbl'] is [tbl] with the pairs of [Rc] added to the core siblings and
    those of [Rt] to the thread siblings, and nothing else changed. *)
Definition masks_grow (tbl tbl' : list cpu_topology_t)
    (Rc Rt : nat -> nat -> Prop) : Prop :=
  length tbl' = length tbl /\
  (forall a, ids (tbl' !!! a) = ids (tbl !!! a)) /\
  (forall a b, cs tbl' a b <-> cs tbl a b \/ Rc a b) /\
  (forall a b, ts tbl' a b <-> ts tbl a b \/ Rt a b).

Definition pair_of (x y a b : nat) : Prop :=
  (a = y /\ b = x) \/ (a = x /\ b = y).

(** Every node of the tree has fewer than 100 children: the indices the
    parser formats stay within two digits, so that the 10-byte name buffer
    of [parse_cluster] and [parse_core] never truncates. *)
Fixpoint dt_small (n : device_node) : bool :=
  match n with
  | DeviceNode _ _ child =>
      (length child <? 100)%nat && forallb dt_small child
  end.

Definition names_distinct (prefix : string) : Prop :=
  forall i j : nat, (i < 100)%nat -> (j < 100)%nat ->
    snprintf_d 10 prefix (Z.of_nat i) = snprintf_d 10 prefix (Z.of_nat j) ->
    i = j.

Definition names_distinctb (prefix : string) : bool :=
  forallb (fun i =>
    forallb (fun j =>
      implb (String.eqb (snprintf_d 10 prefix (Z.of_nat i))
                        (snprintf_d 10 prefix (Z.of_nat j)))
            (Nat.eqb i j))
      (seq 0 100))
    (seq 0 100).

(** [visits_core cluster depth core]: [parse_cluster(cluster, depth)] gets
    to call [parse_core] on [core], unless it has returned an error
    before.  The core is the [k]-th of an unbroken run [core0 .. corek]
    under a cluster without [cluster0], below the root; or it is visited
    from the [k]-th of an unbroken run [cluster0 .. clusterk]. *)
Inductive visits_core : device_node -> Z -> device_node -> Prop :=
| visits_core_here cluster depth (k : nat) core :
    of_get_child_by_name cluster (snprintf_d 10 "cluster" 0) = None ->
    depth <> 0 ->
    (k < 100)%nat ->
    (forall j : nat, (j <= k)%nat ->
       of_get_child_by_name cluster (snprintf_d 10 "core" (Z.of_nat j))
       <> None) ->
    of_get_child_by_name cluster (snprintf_d 10 "core" (Z.of_nat k))
      = Some core ->
    visits_core cluster depth core
| visits_core_below cluster depth (k : nat) sub core :
    (k < 100)%nat ->
    (forall j : nat, (j <= k)%nat ->
       of_get_child_by_name cluster (snprintf_d 10 "cluster" (Z.of_nat j))
       <> None) ->
    of_get_child_by_name cluster (snprintf_d 10 "cluster" (Z.of_nat k))
      = Some sub ->
    visits_core sub (int_add depth 1) core ->
    visits_core cluster depth core.

(** The [cpu-map] node, if the tree has one. *)
Definition of_cpu_map (E : topo_env) : option device_node :=
  match of_find_cpus E with
  | None => None
  | Some cn => of_get_child_by_name cn "cpu-map"
  end.

(** ** Worked configurations

    The data of the examples below, all on [mido_config]. *)

Definition zero_topology : cpu_topology_t :=
  {| thread_id := 0; core_id := 0; cluster_id := 0;
     thread_sibling := 0; core_sibling := 0 |}.

(** The globals as the kernel image has them before [init_cpu_topology]:
    a zeroed table, [cpu_efficiency] at [SCHED_CAPACITY_SCALE] (1024). *)
Definition boot_state : topo_state :=
  {| cpu_topology := replicate 8 zero_topology;
     cpu_efficiency := replicate 8 1024;
     static_cluster_id := 0;
     topo_log := [];
     sched_topology_set := false;
     energy_costs_initialized := false |}.

Definition leaf_node (name : string) (cpu : nat) : device_node :=
  DeviceNode name (Some cpu) [].

(** CPU [c] is described by the node of identity [100 + c], with
    efficiency [1000 + c], for the first [n] CPUs. *)
Definition cpu_nodes (n : nat) (cpu : nat) : option cpu_node :=
  if (cpu <? n)%nat
  then Some {| cn_id := 100 + cpu; cn_efficiency := Some (1000 + Z.of_nat cpu) |}
  else None.

(** [cluster0] with [core0] (one CPU) and [core1] (two threads), and an
    empty [cluster1]. *)
Definition example_map : device_node :=
  DeviceNode "cpu-map" None
    [ DeviceNode "cluster0" None
        [ leaf_node "core0" 100;
          DeviceNode "core1" None
            [ leaf_node "thread0" 101; leaf_node "thread1" 102 ] ];
      DeviceNode "cluster1" None [] ].

Definition example_env : topo_env :=
  {| cpu_possible_mask := 0x7;
     of_find_cpus := Some (DeviceNode "cpus" None [example_map]);
     of_get_cpu_node := cpu_nodes 3 |}.

(** A tree without [cpu-map]. *)
Definition no_map_env : topo_env :=
  {| cpu_possible_mask := 0xff;
     of_find_cpus := Some (DeviceNode "cpus" None []);
     of_get_cpu_node := cpu_nodes 8 |}.

(** [core0] has a [thread0] child and a ["cpu"] reference of its own. *)
Definition ambiguous_core : device_node :=
  DeviceNode "core0" (Some 100%nat) [ leaf_node "thread0" 101 ].

Definition ambiguous_map : device_node :=
  DeviceNode "cpu-map" None [ DeviceNode "cluster0" None [ ambiguous_core ] ].

Definition ambiguous_env : topo_env :=
  {| cpu_possible_mask := 0x3;
     of_find_cpus := Some (DeviceNode "cpus" None [ambiguous_map]);
     of_get_cpu_node := cpu_nodes 2 |}.

(** [core0] has a [thread1] child but no [thread0], and a ["cpu"]
    reference of its own. *)
Definition thread1_core : device_node :=
  DeviceNode "core0" (Some 100%nat) [ leaf_node "thread1" 101 ].

Definition thread1_map : device_node :=
  DeviceNode "cpu-map" None [ DeviceNode "cluster0" None [ thread1_core ] ].

Definition thread1_env : topo_env :=
  {| cpu_possible_mask := 0x1;
     of_find_cpus := Some (DeviceNode "cpus" None [thread1_map]);
     of_get_cpu_node := cpu_nodes 2 |}.

(** The [cpu-map] names CPU 0 only, although CPU 1 is possible too. *)
Definition partial_map : device_node :=
  DeviceNode "cpu-map" None
    [ DeviceNode "cluster0" None [ leaf_node "core0" 100 ] ].

Definition partial_env : topo_env :=
  {| cpu_possible_mask := 0x3;
     of_find_cpus := Some (DeviceNode "cpus" None [partial_map]);
     of_get_cpu_node := cpu_nodes 2 |}.

(** Scheduling domains. *)
Definition two_groups : list sched_group :=
  [ {| sg_span := 0x1 |}; {| sg_span := 0x2 |} ].

Definition child_domain : sched_domain :=
  {| span := 0x3; flags := 0; groups := [] |}.

Definition balancing_parent : sched_domain :=
  {| span := 0x3; flags := 0x0001; groups := two_groups |}.

Definition single_cpu_parent : sched_domain :=
  {| span := 0x1; flags := 0; groups := [] |}.

Definition other_cpu_domain : sched_domain :=
  {| span := 0x2; flags := 0; groups := [] |}.

Definition wake_affine_parent : sched_domain :=
  {| span := 0x3; flags := 0x0020; groups := [] |}.

Definition busy_single_cpu_domain : sched_domain :=
  {| span := 0x4; flags := 0xffff; groups := two_groups |}.

(** Performance domains: five domains of ten capacity states each over
    eight CPUs, all driven by schedutil. *)
Definition em_of_cpu (cpu : nat) : option em_perf_domain :=
  match cpu with
  | 0%nat | 1%nat => Some {| nr_cap_states := 10; em_cpus := 0x03 |}
  | 2%nat | 3%nat => Some {| nr_cap_states := 10; em_cpus := 0x0c |}
  | 4%nat | 5%nat => Some {| nr_cap_states := 10; em_cpus := 0x30 |}
  | 6%nat => Some {| nr_cap_states := 10; em_cpus := 0x40 |}
  | 7%nat => Some {| nr_cap_states := 10; em_cpus := 0x80 |}
  | _ => None
  end.

Definition eas_env : sched_env :=
  {| sd_asym_cpucapacity := fun _ => true;
     cpufreq_cpu_get := fun _ => Some {| governor := schedutil_gov |};
     em_cpu_get := em_of_cpu;
     kzalloc_ok := fun _ => true;
     sched_debug := false |}.

Definition symmetric_env : sched_env :=
  {| sd_asym_cpucapacity := fun _ => false;
     cpufreq_cpu_get := fun _ => Some {| governor := schedutil_gov |};
     em_cpu_get := em_of_cpu;
     kzalloc_ok := fun _ => true;
     sched_debug := false |}.

Definition idle_sched_state : sched_state :=
  {| rd_pd := []; rcu_callbacks := []; sched_log := [] |}.

Definition little_pd : perf_domain :=
  {| em_pd := {| nr_cap_states := 10; em_cpus := 0x03 |} |}.

Definition eas_sched_state : sched_state :=
  {| rd_pd := [little_pd]; rcu_callbacks := []; sched_log := [] |}.

(** The locals of [build_perf_domains] after its loop over [0xff] in
    [eas_env]. *)
Definition eas_built : pd_build :=
  {| b_pd :=
       [ {| em_pd := {| nr_cap_states := 10; em_cpus := 0x80 |} |};
         {| em_pd := {| nr_cap_states := 10; em_cpus := 0x40 |} |};
         {| em_pd := {| nr_cap_states := 10; em_cpus := 0x30 |} |};
         {| em_pd := {| nr_cap_states := 10; em_cpus := 0x0c |} |};
         {| em_pd := {| nr_cap_states := 10; em_cpus := 0x03 |} |} ];
     b_nr_pd := 5;
     b_nr_cs := 50 |}.

(** The state [parse_cluster] leaves on [partial_map], started from the
    reset [boot_state]. *)
Definition partial_parsed : topo_state :=
  Eval vm_compute in
    match parse_cluster (K := mido_config) (parse_fuel partial_map)
            partial_env partial_map 0
            (upd_topology (reset_cpu_topology (K := mido_config) partial_env)
                          boot_state) with
    | Some (_, st) => st
    | None => boot_state
    end.

(** ** Topology from the affinity register

    The [MPIDR_*] macros come from [asm/cputype.h], which is not part of
    this file: the code is embedded over any choice of them.  [mpidr] is
    the value [read_cpuid_mpidr()] answers on the calling CPU. *)

Class mpidr_macros := {
  MPIDR_UP_BITMASK : Z;
  MPIDR_MT_BITMASK : Z;
  MPIDR_AFFINITY_LEVEL : Z -> Z -> Z
}.

(** A sample choice for the worked examples: the U bit is bit 30, the MT
    bit is bit 24 and the affinity levels 0, 1 and 2 are the bytes at bits
    0, 8 and 16. *)
Definition sample_mpidr : mpidr_macros := {|
  MPIDR_UP_BITMASK := Z.shiftl 1 30;
  MPIDR_MT_BITMASK := Z.shiftl 1 24;
  MPIDR_AFFINITY_LEVEL := fun mpidr level =>
    Z.land (Z.shiftr mpidr (8 * level)) 0xff
|}.

Section StoreCpuTopology.
Context {K : kconfig} {M : mpidr_macros}.

(** The ids [store_cpu_topology] derives from [mpidr], as
    [(thread_id, core_id, cluster_id)]; each is stored in an [int]. *)
Definition mpidr_ids (mpidr : Z) : Z * Z * Z :=
  if negb (Z.land mpidr MPIDR_MT_BITMASK =? 0) then
    (wrap_int (MPIDR_AFFINITY_LEVEL mpidr 0),
     wrap_int (MPIDR_AFFINITY_LEVEL mpidr 1),
     wrap_int (MPIDR_AFFINITY_LEVEL mpidr 2))
  else
    (-1,
     wrap_int (MPIDR_AFFINITY_LEVEL mpidr 0),
     wrap_int (MPIDR_AFFINITY_LEVEL mpidr 1)).

Definition set_ids (v : Z * Z * Z) (e : cpu_topology_t) : cpu_topology_t :=
  let '(thread, core, cluster) := v in
  set_cluster_id cluster (set_core_id core (set_thread_id thread e)).

(** [store_cpu_topology(cpuid)]; the [pr_debug] line prints nothing in a
    build without [DEBUG]. *)
Definition store_cpu_topology (E : topo_env) (mpidr : Z) (cpuid : nat)
    (tbl : list cpu_topology_t) : list cpu_topology_t :=
  if negb (cluster_id (tbl !!! cpuid) =? -1) then
    update_siblings_masks E cpuid tbl
  else if negb (Z.land mpidr MPIDR_UP_BITMASK =? 0) then tbl
  else
    update_siblings_masks E cpuid (alter (set_ids (mpidr_ids mpidr)) cpuid tbl).

(** CPUs coming up one after the other, each with its own register
    value. *)
Definition store_cpu_topologies (E : topo_env) (ups : list (nat * Z))
    (tbl : list cpu_topology_t) : list cpu_topology_t :=
  fold_left (fun tbl up => store_cpu_topology E (snd up) (fst up) tbl) ups tbl.
End StoreCpuTopology.

(** [st'] has the table size and the sibling masks of [st]. *)
Definition same_masks (st st' : topo_state) : Prop :=
  length (cpu_topology st') = length (cpu_topology st) /\
  (forall a, thread_sibling (cpu_topology st' !!! a)
             = thread_sibling (cpu_topology st !!! a) /\
             core_sibling (cpu_topology st' !!! a)
             = core_sibling (cpu_topology st !!! a)).

Definition keeps_masks (f : cpu_topology_t -> cpu_topology_t) : Prop :=
  forall e, thread_sibling (f e) = thread_sibling e /\
            core_sibling (f e) = core_sibling e.

(** Core siblings are mutual among the possible CPUs, and thread siblings
    are core siblings. *)
Definition siblings_wf {K : kconfig} (E : topo_env)
    (tbl : list cpu_topology_t) : Prop :=
  (forall a b, In a (for_each_possible_cpu E) ->
               In b (for_each_possible_cpu E) ->
     cpumask_test_cpu b (core_sibling (tbl !!! a)) = true <->
     cpumask_test_cpu a (core_sibling (tbl !!! b)) = true) /\
  (forall a b, In a (for_each_possible_cpu E) ->
     cpumask_test_cpu b (thread_sibling (tbl !!! a)) = true ->
     cpumask_test_cpu b (core_sibling (tbl !!! a)) = true).

(** The ["cpu"] reference of [node] is missing or names no possible CPU:
    [get_cpu_for_node] answers -1. *)
Definition unresolved {K : kconfig} (E : topo_env) (node : device_node)
  : Prop :=
  match dn_cpu node with
  | None => True
  | Some n => cpu_of_node E n = None
  end.

(** The table after the threads [i .. g-1] have been stored, thread [j]
    at CPU [cpu_at j]. *)
Definition threads_stored (cpu_at : nat -> nat) (cluster core_ : Z)
    (i g : nat) (tbl : list cpu_topology_t) : list cpu_topology_t :=
  fold_left
    (fun tbl j =>
       alter (fun e => set_thread_id (Z.of_nat j)
                         (set_core_id core_ (set_cluster_id cluster e)))
             (cpu_at j) tbl)
    (seq i (g - i)) tbl.

(** A domain made by [pd_init(i)] inside the loop: the energy model of a
    CPU of the list that schedutil drives. *)
Definition pd_made_for (E : sched_env) (cpus : list nat) (p : perf_domain)
  : Prop :=
  exists i policy,
    In i cpus /\
    cpufreq_cpu_get E i = Some policy /\
    governor policy = schedutil_gov /\
    em_cpu_get E i = Some (em_pd p) /\
    kzalloc_ok E i = true.

Definition spanned (pd : list perf_domain) (cpu : nat) : Prop :=
  exists p, In p pd /\ cpumask_test_cpu cpu (perf_domain_span p) = true.


(** ** Further worked configurations *)

(** The state [parse_dt_topology] leaves on [example_env], started from
    the reset [boot_state]: CPU 0 is core 0, CPUs 1 and 2 are the two
    threads of core 1, all in cluster 0. *)
Definition example_parsed : topo_state :=
  Eval vm_compute in
    match parse_dt_topology (K := mido_config) example_env
            (upd_topology (reset_cpu_topology (K := mido_config) example_env)
                          boot_state) with
    | Some (_, st) => st
    | None => boot_state
    end.

(** The state [parse_dt_topology] leaves on [partial_env], where it
    answers [-EINVAL] because CPU 1 is in no cluster. *)
Definition partial_failed : topo_state :=
  Eval vm_compute in
    match parse_dt_topology (K := mido_config) partial_env
            (upd_topology (reset_cpu_topology (K := mido_config) partial_env)
                          boot_state) with
    | Some (_, st) => st
    | None => boot_state
    end.

(** A [core0] directly under the [cpu-map]. *)
Definition misplaced_map : device_node :=
  DeviceNode "cpu-map" None [ leaf_node "core0" 100 ].

Definition empty_cluster : device_node :=
  DeviceNode "cluster1" None [].

(** [core0] refers to a node that describes no CPU. *)
Definition dangling_core : device_node := leaf_node "core0" 999.

Definition dangling_map : device_node :=
  DeviceNode "cpu-map" None [ DeviceNode "cluster0" None [ dangling_core ] ].

Definition dangling_env : topo_env :=
  {| cpu_possible_mask := 0x3;
     of_find_cpus := Some (DeviceNode "cpus" None [dangling_map]);
     of_get_cpu_node := cpu_nodes 2 |}.

(** The [core1] of [example_map]: two threads, CPUs 1 and 2. *)
Definition threaded_core : device_node :=
  DeviceNode "core1" None
    [ leaf_node "thread0" 101; leaf_node "thread1" 102 ].

(** A child with the flags of [balancing_parent] and one more. *)
Definition balancing_child : sched_domain :=
  {| span := 0x3; flags := 0x0021; groups := two_groups |}.

(** Three CPUs come up: single-threaded cores 0 and 1 of cluster 0, and
    core 0 of cluster 1. *)
Definition example_bring_up : list (nat * Z) :=
  [ (0%nat, 0x000); (1%nat, 0x001); (2%nat, 0x100) ].
(* ================================================================== *)
(** * Theorems *)

Section DegenerateFacts.
Context {K : kconfig}.

(** C8: a domain whose span holds exactly one CPU is degenerate,
    whatever its flags and its groups. *)
Theorem sd_degenerate_single_cpu (sd : sched_domain) :
  cpumask_weight (sched_domain_span sd) = 1 ->
  sd_degenerate sd = 1.
Proof.
  intros Hw. unfold sd_degenerate. rewrite Hw. reflexivity.
Qed.

(** C4 (as amended): when the parent is not itself degenerate and the
    two spans differ, [sd_parent_degenerate] answers 0. *)
Theorem sd_parent_degenerate_span_differs (nr_node_ids : Z)
    (sd parent : sched_domain) :
  sd_degenerate parent = 0 ->
  cpumask_equal (sched_domain_span sd) (sched_domain_span parent) = false ->
  sd_parent_degenerate nr_node_ids sd parent = 0.
Proof.
  intros Hp Hs. unfold sd_parent_degenerate.
  rewrite Hp, Hs. reflexivity.
Qed.
End DegenerateFacts.

(** ** C integers *)

Lemma wrap_int_small (x : Z) : INT_MIN <= x <= INT_MAX -> wrap_int x = x.
Proof.
  unfold INT_MIN, INT_MAX, wrap_int. intros H.
  rewrite Z.mod_small by lia. lia.
Qed.

Lemma wrap_int_idemp_l (a b : Z) : wrap_int (wrap_int a + b) = wrap_int (a + b).
Proof.
  unfold wrap_int.
  replace ((a + 2 ^ 31) mod 2 ^ 32 - 2 ^ 31 + b + 2 ^ 31)
    with ((a + 2 ^ 31) mod 2 ^ 32 + b) by lia.
  rewrite Zplus_mod_idemp_l. f_equal. f_equal. lia.
Qed.

(** ** Performance domains *)

Lemma build_loop_counts E cpu_map old cpus :
  forall b log b' log',
    counts_ok b ->
    build_perf_domains_loop E cpu_map old cpus b log = (Some b', log') ->
    counts_ok b'.
Proof.
  induction cpus as [|i rest IH]; intros b log b' log' Hb Hrun; simpl in Hrun.
  - congruence.
  - destruct (negb (is_null (find_pd (b_pd b) i))); [eauto|].
    destruct (cpufreq_cpu_get E i) as [policy|]; [|discriminate].
    destruct (negb (is_schedutil (governor policy))); [discriminate|].
    destruct (pd_init E i log) as [[tmp|] log1]; [|discriminate].
    eapply IH; [|exact Hrun].
    destruct Hb as [Hpd Hcs]. split; simpl.
    + rewrite Hpd. unfold int_add. rewrite wrap_int_idemp_l.
      f_equal. lia.
    + rewrite Hcs. unfold int_add. rewrite wrap_int_idemp_l.
      f_equal. lia.
Qed.

(** Neither the log nor the list published so far steers the loop. *)
Lemma build_loop_result_indep E cpu_map old old' cpus :
  forall b log log',
    fst (build_perf_domains_loop E cpu_map old cpus b log) =
    fst (build_perf_domains_loop E cpu_map old' cpus b log').
Proof.
  induction cpus as [|i rest IH]; intros b log log'; simpl; [reflexivity|].
  destruct (negb (is_null (find_pd (b_pd b) i))); [apply IH|].
  destruct (cpufreq_cpu_get E i) as [policy|]; [|reflexivity].
  destruct (negb (is_schedutil (governor policy))); [reflexivity|].
  unfold pd_init.
  destruct (em_cpu_get E i) as [obj|]; [|reflexivity].
  destruct (kzalloc_ok E i); [apply IH|reflexivity].
Qed.

Section BuildPerfDomainsFacts.
Context {K : kconfig}.

Lemma build_perf_domains_published_indep E cpu_map (s s' : sched_state) :
  rd_pd (build_perf_domains E cpu_map s) =
  rd_pd (build_perf_domains E cpu_map s').
Proof.
  unfold build_perf_domains.
  destruct (negb (sd_asym_cpucapacity E (cpumask_first cpu_map)));
    [reflexivity|].
  unfold build_traverse.
  pose proof (build_loop_result_indep E cpu_map (rd_pd s) (rd_pd s')
                (for_each_cpu cpu_map)
                {| b_pd := []; b_nr_pd := 0; b_nr_cs := 0 |}
                (sched_log s) (sched_log s')) as Hfst.
  destruct (build_perf_domains_loop E cpu_map (rd_pd s) _ _ _) as [r1 l1].
  destruct (build_perf_domains_loop E cpu_map (rd_pd s') _ _ _) as [r2 l2].
  simpl in Hfst. subst r2.
  destruct r1 as [b|]; [|reflexivity].
  unfold build_finish.
  destruct (em_complexity _ _ _ >? EM_MAX_COMPLEXITY); reflexivity.
Qed.

(** C1 (as amended): when the first CPU of the target set lacks the
    asymmetric-capacity marker, [build_perf_domains] takes the [free]
    path: the root domain ends with no performance domains and the list
    published before, if there was one, is queued for destruction.  The
    published list and the callback queue are left as they were only when
    nothing was published before; with [sched_debug] off nothing at all
    changes in that case. *)
Theorem build_perf_domains_no_asym_capacity E cpu_map (s : sched_state) :
  sd_asym_cpucapacity E (cpumask_first cpu_map) = false ->
  let s' := build_perf_domains E cpu_map s in
  rd_pd s' = [] /\
  rcu_callbacks s' =
    (if is_null (rd_pd s) then rcu_callbacks s
     else rcu_callbacks s ++ [rd_pd s]) /\
  (rd_pd s = [] ->
     rd_pd s' = rd_pd s /\ rcu_callbacks s' = rcu_callbacks s /\
     (sched_debug E = false -> s' = s)).
Proof.
  intros Hasym. unfold build_perf_domains. rewrite Hasym. simpl.
  split; [reflexivity|]. split.
  - destruct (rd_pd s); reflexivity.
  - intros Hnull. rewrite Hnull. simpl. split; [reflexivity|].
    split; [reflexivity|].
    intros ->. unfold attach_pd. rewrite Hnull. simpl.
    destruct s; simpl in *. congruence.
Qed.

(** C2: once the traversal has gone through the whole target set, the
    list it built is published exactly when
    [nr_pd * (nr_cs + nr_cpus) <= 2048], the product being the [int]
    expression of the source; above 2048 the build warns and publishes the
    empty list instead.  [nr_pd] and [nr_cs] are the number of domains on
    the built list and the sum of their capacity-state counts, the product
    is the mathematical one whenever it fits an [int], and the two worked
    figures come out as 290 (accepted) and 201600 (refused). *)
Theorem build_perf_domains_complexity_gate E cpu_map (s : sched_state)
    (b : pd_build) (log : list kmsg) :
  sd_asym_cpucapacity E (cpumask_first cpu_map) = true ->
  build_traverse E cpu_map s = (Some b, log) ->
  let s' := build_perf_domains E cpu_map s in
  let nr_cpus := wrap_int (cpumask_weight cpu_map) in
  let c := em_complexity (b_nr_pd b) (b_nr_cs b) nr_cpus in
  counts_ok b /\
  (c <= 2048 ->
     rd_pd s' = b_pd b /\
     sched_log s' = perf_domain_debug E cpu_map (b_pd b) log) /\
  (c > 2048 ->
     rd_pd s' = [] /\ b_pd b <> [] /\
     sched_log s' = log ++ [WARN_em_complexity cpu_map]) /\
  (rd_pd s' = b_pd b <-> c <= 2048) /\
  (forall nr_pd nr_cs n : Z,
     INT_MIN <= nr_cs + n <= INT_MAX ->
     INT_MIN <= nr_pd * (nr_cs + n) <= INT_MAX ->
     em_complexity nr_pd nr_cs n = nr_pd * (nr_cs + n)) /\
  em_complexity 5 50 8 = 290 /\
  (em_complexity 5 50 8 >? EM_MAX_COMPLEXITY) = false /\
  em_complexity 100 2000 16 = 201600 /\
  (em_complexity 100 2000 16 >? EM_MAX_COMPLEXITY) = true.
Proof.
  intros Hasym Hrun s' nr_cpus c.
  assert (Hcnt : counts_ok b).
  { unfold build_traverse in Hrun.
    eapply build_loop_counts; [|exact Hrun]. split; reflexivity. }
  assert (Hs' : s' = build_finish E cpu_map b log s).
  { subst s'. unfold build_perf_domains. rewrite Hasym, Hrun. reflexivity. }
  assert (Hle : c <= 2048 ->
            rd_pd s' = b_pd b /\
            sched_log s' = perf_domain_debug E cpu_map (b_pd b) log).
  { intros Hc. rewrite Hs'. unfold build_finish. fold nr_cpus. fold c.
    unfold EM_MAX_COMPLEXITY.
    destruct (Z.gtb_spec c 2048) as [Hgt|_]; [lia|]. split; reflexivity. }
  assert (Hgt : c > 2048 ->
            rd_pd s' = [] /\ b_pd b <> [] /\
            sched_log s' = log ++ [WARN_em_complexity cpu_map]).
  { intros Hc. rewrite Hs'. unfold build_finish. fold nr_cpus. fold c.
    unfold EM_MAX_COMPLEXITY.
    destruct (Z.gtb_spec c 2048) as [_|Hn]; [|lia].
    split; [reflexivity|]. split; [|reflexivity].
    intros Hnil. destruct Hcnt as [Hpd _]. rewrite Hnil in Hpd.
    simpl in Hpd. subst c. unfold em_complexity in Hc.
    rewrite Hpd in Hc. change (wrap_int 0) with 0 in Hc.
    unfold int_mul in Hc. rewrite Z.mul_0_l in Hc.
    change (wrap_int 0) with 0 in Hc. lia. }
  split; [exact Hcnt|]. split; [exact Hle|]. split; [exact Hgt|].
  split.
  - split.
    + intros Heq. destruct (Z_le_gt_dec c 2048) as [Hc|Hc]; [exact Hc|].
      destruct (Hgt Hc) as (Hnil & Hne & _). congruence.
    + intros Hc. apply Hle, Hc.
  - split.
    + intros nr_pd nr_cs n H1 H2. unfold em_complexity, int_mul, int_add.
      rewrite (wrap_int_small (nr_cs + n)) by exact H1.
      apply wrap_int_small, H2.
    + repeat split; reflexivity.
Qed.

(** C9: with the same external answers (marker, cpufreq policies, energy
    model, allocator), a second run of [build_perf_domains] publishes the
    list the first run published: the same domains in the same order,
    hence as many of them and the same spans. *)
Theorem build_perf_domains_idempotent E cpu_map (s : sched_state) :
  let s1 := build_perf_domains E cpu_map s in
  let s2 := build_perf_domains E cpu_map s1 in
  rd_pd s2 = rd_pd s1 /\
  length (rd_pd s2) = length (rd_pd s1) /\
  map perf_domain_span (rd_pd s2) = map perf_domain_span (rd_pd s1).
Proof.
  intros s1 s2.
  assert (H : rd_pd s2 = rd_pd s1)
    by apply build_perf_domains_published_indep.
  rewrite H. repeat split; reflexivity.
Qed.
End BuildPerfDomainsFacts.

(** ** CPU masks *)

Lemma cpumask_test_set_cpu (b c : nat) (m : cpumask) :
  cpumask_test_cpu b (cpumask_set_cpu c m) = Nat.eqb c b || cpumask_test_cpu b m.
Proof.
  unfold cpumask_test_cpu, cpumask_set_cpu.
  change (Z.lor m (Z.shiftl 1 (Z.of_nat c))) with (Z.setbit m (Z.of_nat c)).
  rewrite Z.setbit_eqb by lia.
  destruct (Z.eqb_spec (Z.of_nat c) (Z.of_nat b)), (Nat.eqb_spec c b);
    try reflexivity; lia.
Qed.

Section CpumaskFacts.
Context {K : kconfig}.

Lemma for_each_cpu_spec (m : cpumask) (c : nat) :
  In c (for_each_cpu m) <-> (c < NR_CPUS)%nat /\ cpumask_test_cpu c m = true.
Proof.
  unfold for_each_cpu. rewrite filter_In, in_seq. intuition lia.
Qed.

End CpumaskFacts.

(** ** The topology table *)

Lemma masks_grow_refl tbl : masks_grow tbl tbl (fun _ _ => False) (fun _ _ => False).
Proof. unfold masks_grow. intuition. Qed.

Lemma masks_grow_trans tbl1 tbl2 tbl3 Rc Rt Rc' Rt' :
  masks_grow tbl1 tbl2 Rc Rt -> masks_grow tbl2 tbl3 Rc' Rt' ->
  masks_grow tbl1 tbl3 (fun a b => Rc a b \/ Rc' a b)
                       (fun a b => Rt a b \/ Rt' a b).
Proof.
  intros (Hl & Hi & Hc & Ht) (Hl' & Hi' & Hc' & Ht').
  split; [congruence|]. split; [intros a; rewrite Hi'; apply Hi|].
  split; intros a b; [rewrite Hc', Hc|rewrite Ht', Ht]; tauto.
Qed.

Lemma masks_grow_ext tbl tbl' Rc Rt Rc' Rt' :
  masks_grow tbl tbl' Rc Rt ->
  (forall a b, Rc a b <-> Rc' a b) -> (forall a b, Rt a b <-> Rt' a b) ->
  masks_grow tbl tbl' Rc' Rt'.
Proof.
  intros (Hl & Hi & Hc & Ht) H1 H2. split; [exact Hl|]. split; [exact Hi|].
  split; intros a b; [rewrite Hc, H1|rewrite Ht, H2]; tauto.
Qed.

Lemma alter_core_sibling_grow (x y : nat) tbl :
  (y < length tbl)%nat ->
  masks_grow tbl (alter (upd_core_sibling (cpumask_set_cpu x)) y tbl)
    (fun a b => a = y /\ b = x) (fun _ _ => False).
Proof.
  intros Hy. split; [apply length_alter|].
  split; [|split]; intros a; [|intros b|intros b]; unfold cs, ts;
    rewrite list_lookup_total_alter; case_decide as Hd.
  - destruct Hd as [-> _]. reflexivity.
  - reflexivity.
  - destruct Hd as [-> _]. simpl. rewrite cpumask_test_set_cpu.
    rewrite orb_true_iff, Nat.eqb_eq. intuition.
  - intuition (subst; lia).
  - destruct Hd as [-> _]. simpl. tauto.
  - tauto.
Qed.

Lemma alter_thread_sibling_grow (x y : nat) tbl :
  (y < length tbl)%nat ->
  masks_grow tbl (alter (upd_thread_sibling (cpumask_set_cpu x)) y tbl)
    (fun _ _ => False) (fun a b => a = y /\ b = x).
Proof.
  intros Hy. split; [apply length_alter|].
  split; [|split]; intros a; [|intros b|intros b]; unfold cs, ts;
    rewrite list_lookup_total_alter; case_decide as Hd.
  - destruct Hd as [-> _]. reflexivity.
  - reflexivity.
  - destruct Hd as [-> _]. simpl. tauto.
  - tauto.
  - destruct Hd as [-> _]. simpl. rewrite cpumask_test_set_cpu.
    rewrite orb_true_iff, Nat.eqb_eq. intuition.
  - intuition (subst; lia).
Qed.

Lemma masks_grow_ids tbl tbl' Rc Rt a :
  masks_grow tbl tbl' Rc Rt ->
  thread_id (tbl' !!! a) = thread_id (tbl !!! a) /\
  core_id (tbl' !!! a) = core_id (tbl !!! a) /\
  cluster_id (tbl' !!! a) = cluster_id (tbl !!! a).
Proof.
  intros (_ & Hi & _). specialize (Hi a). unfold ids in Hi.
  injection Hi as -> -> ->. auto.
Qed.

Lemma masks_grow_same_cluster tbl tbl' Rc Rt a b :
  masks_grow tbl tbl' Rc Rt -> same_cluster tbl' a b <-> same_cluster tbl a b.
Proof.
  intros H. unfold same_cluster.
  destruct (masks_grow_ids _ _ _ _ a H) as (_ & _ & ->).
  destruct (masks_grow_ids _ _ _ _ b H) as (_ & _ & ->). tauto.
Qed.

Lemma masks_grow_same_core tbl tbl' Rc Rt a b :
  masks_grow tbl tbl' Rc Rt -> same_core tbl' a b <-> same_core tbl a b.
Proof.
  intros H. unfold same_core.
  destruct (masks_grow_ids _ _ _ _ a H) as (_ & -> & _).
  destruct (masks_grow_ids _ _ _ _ b H) as (_ & -> & _). tauto.
Qed.

Section SiblingFacts.
Context {K : kconfig}.

Lemma update_siblings_step_grow (cpuid cpu : nat) tbl :
  (cpuid < length tbl)%nat -> (cpu < length tbl)%nat ->
  masks_grow tbl (update_siblings_step cpuid tbl cpu)
    (fun a b => same_cluster tbl cpuid cpu /\ pair_of cpuid cpu a b)
    (fun a b => same_cluster tbl cpuid cpu /\ same_core tbl cpuid cpu /\
                pair_of cpuid cpu a b).
Proof.
  intros Hid Hcpu. unfold update_siblings_step.
  destruct (Z.eqb_spec (cluster_id (tbl !!! cpuid)) (cluster_id (tbl !!! cpu)))
    as [Hcl|Hcl]; simpl.
  2:{ eapply masks_grow_ext; [apply masks_grow_refl| |];
      intros a b; unfold same_cluster; tauto. }
  set (tbl1 := alter (upd_core_sibling (cpumask_set_cpu cpuid)) cpu tbl).
  assert (G1 : masks_grow tbl tbl1 (fun a b => a = cpu /\ b = cpuid)
                 (fun _ _ => False))
    by (apply alter_core_sibling_grow; exact Hcpu).
  set (tbl2 := if negb (cpu =? cpuid)%nat
               then alter (upd_core_sibling (cpumask_set_cpu cpu)) cpuid tbl1
               else tbl1).
  assert (G2 : masks_grow tbl tbl2 (fun a b => pair_of cpuid cpu a b)
                 (fun _ _ => False)).
  { subst tbl2. destruct (Nat.eqb_spec cpu cpuid) as [->|Hne]; simpl.
    - eapply masks_grow_ext; [exact G1| |]; intros a b; unfold pair_of; tauto.
    - eapply masks_grow_ext.
      + eapply masks_grow_trans; [exact G1|].
        apply alter_core_sibling_grow. destruct G1 as [-> _]. exact Hid.
      + intros a b; unfold pair_of; simpl; tauto.
      + intros a b; simpl; tauto. }
  clearbody tbl2. clear G1 tbl1.
  destruct (masks_grow_ids _ _ _ _ cpuid G2) as (_ & -> & _).
  destruct (masks_grow_ids _ _ _ _ cpu G2) as (_ & -> & _).
  destruct (Z.eqb_spec (core_id (tbl !!! cpuid)) (core_id (tbl !!! cpu)))
    as [Hco|Hco]; simpl.
  2:{ eapply masks_grow_ext; [exact G2| |];
      intros a b; unfold same_cluster, same_core; tauto. }
  assert (Hl2 : length tbl2 = length tbl) by apply G2.
  set (tbl3 := alter (upd_thread_sibling (cpumask_set_cpu cpuid)) cpu tbl2).
  assert (G3 : masks_grow tbl2 tbl3 (fun _ _ => False)
                 (fun a b => a = cpu /\ b = cpuid))
    by (apply alter_thread_sibling_grow; lia).
  assert (Hl3 : length tbl3 = length tbl2) by apply G3.
  destruct (Nat.eqb_spec cpu cpuid) as [->|Hne]; simpl.
  - eapply masks_grow_ext; [eapply masks_grow_trans; [exact G2|exact G3]| |];
      intros a b; unfold same_cluster, same_core, pair_of; simpl; tauto.
  - eapply masks_grow_ext.
    + eapply masks_grow_trans; [exact G2|].
      eapply masks_grow_trans; [exact G3|].
      apply alter_thread_sibling_grow. lia.
    + intros a b; unfold same_cluster, same_core, pair_of; simpl; tauto.
    + intros a b; unfold same_cluster, same_core, pair_of; simpl; tauto.
Qed.

(** The loop of [update_siblings_masks(cpuid)] over any list of CPUs. *)
Lemma update_siblings_fold_grow (cpuid : nat) (cpus : list nat) :
  forall tbl,
    (cpuid < length tbl)%nat -> (forall c, In c cpus -> (c < length tbl)%nat) ->
    masks_grow tbl (fold_left (update_siblings_step cpuid) cpus tbl)
      (fun a b => same_cluster tbl a b /\
                  ((b = cpuid /\ In a cpus) \/ (a = cpuid /\ In b cpus)))
      (fun a b => same_cluster tbl a b /\ same_core tbl a b /\
                  ((b = cpuid /\ In a cpus) \/ (a = cpuid /\ In b cpus))).
Proof.
  induction cpus as [|c rest IH]; intros tbl Hid Hlt; simpl.
  - eapply masks_grow_ext; [apply masks_grow_refl| |]; intros a b; tauto.
  - pose proof (update_siblings_step_grow cpuid c tbl Hid
                  (Hlt c (or_introl eq_refl))) as G1.
    assert (Hl : length (update_siblings_step cpuid tbl c) = length tbl)
      by apply G1.
    eapply masks_grow_ext.
    + eapply masks_grow_trans; [exact G1|]. apply IH.
      * rewrite Hl. exact Hid.
      * intros x Hx. rewrite Hl. apply Hlt. right. exact Hx.
    + intros a b. simpl. rewrite (masks_grow_same_cluster _ _ _ _ a b G1).
      unfold same_cluster, pair_of. split.
      * intros [[Hc [[-> ->]|[-> ->]]]|[Hc [[-> Hin]|[-> Hin]]]]; auto 6.
      * intros [Hc [[-> [->|Hin]]|[-> [->|Hin]]]]; auto 6.
    + intros a b. simpl. rewrite (masks_grow_same_cluster _ _ _ _ a b G1).
      rewrite (masks_grow_same_core _ _ _ _ a b G1).
      unfold same_cluster, same_core, pair_of. split.
      * intros [(Hc & Hd & [[-> ->]|[-> ->]])|(Hc & Hd & [[-> Hin]|[-> Hin]])];
          auto 7.
      * intros (Hc & Hd & [[-> [->|Hin]]|[-> [->|Hin]]]); auto 7.
Qed.
Lemma for_each_possible_cpu_lt E (c : nat) :
  In c (for_each_possible_cpu E) -> (c < NR_CPUS)%nat.
Proof. intros H. apply for_each_cpu_spec in H. apply H. Qed.

Lemma update_all_fold_grow E (l : list nat) :
  forall tbl,
    length tbl = NR_CPUS -> (forall c, In c l -> (c < NR_CPUS)%nat) ->
    masks_grow tbl
      (fold_left (fun tbl cpu => update_siblings_masks E cpu tbl) l tbl)
      (fun a b => same_cluster tbl a b /\
                  ((In b l /\ In a (for_each_possible_cpu E)) \/
                   (In a l /\ In b (for_each_possible_cpu E))))
      (fun a b => same_cluster tbl a b /\ same_core tbl a b /\
                  ((In b l /\ In a (for_each_possible_cpu E)) \/
                   (In a l /\ In b (for_each_possible_cpu E)))).
Proof.
  induction l as [|c rest IH]; intros tbl Hlen Hlt; simpl.
  - eapply masks_grow_ext; [apply masks_grow_refl| |]; intros a b; tauto.
  - assert (G1 := update_siblings_fold_grow c (for_each_possible_cpu E) tbl).
    fold (update_siblings_masks E c tbl) in G1.
    specialize (G1 ltac:(rewrite Hlen; apply Hlt; left; reflexivity)
                   ltac:(intros x Hx; rewrite Hlen;
                         eapply for_each_possible_cpu_lt, Hx)).
    assert (Hl : length (update_siblings_masks E c tbl) = length tbl)
      by apply G1.
    eapply masks_grow_ext.
    + eapply masks_grow_trans; [exact G1|]. apply IH.
      * congruence.
      * intros x Hx. apply Hlt. right. exact Hx.
    + intros a b. simpl. rewrite (masks_grow_same_cluster _ _ _ _ a b G1).
      split.
      * intros [[Hc [[-> Hin]|[-> Hin]]]|[Hc [[Hin1 Hin2]|[Hin1 Hin2]]]];
          auto 7.
      * intros [Hc [[[->|Hin1] Hin2]|[[->|Hin1] Hin2]]]; auto 7.
    + intros a b. simpl. rewrite (masks_grow_same_cluster _ _ _ _ a b G1).
      rewrite (masks_grow_same_core _ _ _ _ a b G1).
      split.
      * intros [(Hc & Hd & [[-> Hin]|[-> Hin]])
               |(Hc & Hd & [[Hin1 Hin2]|[Hin1 Hin2]])]; auto 8.
      * intros (Hc & Hd & [[[->|Hin1] Hin2]|[[->|Hin1] Hin2]]); auto 8.
Qed.

(** What [update_all_siblings_masks] adds to the table of [init_cpu_topology]. *)
Lemma update_all_siblings_masks_grow E tbl :
  length tbl = NR_CPUS ->
  masks_grow tbl (update_all_siblings_masks E tbl)
    (fun a b => same_cluster tbl a b /\
                In a (for_each_possible_cpu E) /\
                In b (for_each_possible_cpu E))
    (fun a b => same_cluster tbl a b /\ same_core tbl a b /\
                In a (for_each_possible_cpu E) /\
                In b (for_each_possible_cpu E)).
Proof.
  intros Hlen. eapply masks_grow_ext.
  - apply (update_all_fold_grow E (for_each_possible_cpu E) tbl Hlen).
    intros c. apply for_each_possible_cpu_lt.
  - intros a b. simpl. tauto.
  - intros a b. simpl. tauto.
Qed.

Lemma reset_cpu_fold_length (cpus : list nat) :
  forall tbl, length (fold_left reset_cpu cpus tbl) = length tbl.
Proof.
  induction cpus as [|x rest IH]; intros tbl; simpl; [reflexivity|].
  rewrite IH. apply length_alter.
Qed.

Lemma reset_cpu_fold_lookup (cpus : list nat) (c : nat) :
  forall tbl,
    (forall x, In x cpus -> (x < length tbl)%nat) ->
    (In c cpus -> fold_left reset_cpu cpus tbl !!! c = cpu_topology_default c)
    /\ (~ In c cpus -> fold_left reset_cpu cpus tbl !!! c = tbl !!! c).
Proof.
  induction cpus as [|x rest IH]; intros tbl Hlt; simpl.
  - split; [contradiction|reflexivity].
  - assert (Hx : (x < length tbl)%nat) by (apply Hlt; left; reflexivity).
    destruct (IH (reset_cpu tbl x)) as [IHin IHout].
    { intros y Hy. unfold reset_cpu. rewrite length_alter.
      apply Hlt. right. exact Hy. }
    assert (Hhere : reset_cpu tbl x !!! x = cpu_topology_default x).
    { unfold reset_cpu. rewrite list_lookup_total_alter_eq by exact Hx.
      reflexivity. }
    split.
    + intros [->|Hin].
      * destruct (in_dec Nat.eq_dec c rest) as [Hin|Hnin]; [auto|].
        rewrite IHout by exact Hnin. exact Hhere.
      * auto.
    + intros Hnin. rewrite IHout by tauto.
      unfold reset_cpu. apply list_lookup_total_alter_ne. tauto.
Qed.

Lemma reset_cpu_topology_length E tbl :
  length (reset_cpu_topology E tbl) = length tbl.
Proof. apply reset_cpu_fold_length. Qed.

Lemma reset_cpu_topology_lookup E tbl (c : nat) :
  length tbl = NR_CPUS ->
  In c (for_each_possible_cpu E) ->
  reset_cpu_topology E tbl !!! c = cpu_topology_default c.
Proof.
  intros Hlen Hin. unfold reset_cpu_topology.
  apply reset_cpu_fold_lookup; [|exact Hin].
  intros x Hx. rewrite Hlen. eapply for_each_possible_cpu_lt, Hx.
Qed.

Lemma cpu_topology_default_sibling (c b : nat) :
  cpumask_test_cpu b (cpumask_set_cpu c 0) = true <-> b = c.
Proof.
  rewrite cpumask_test_set_cpu. unfold cpumask_test_cpu.
  rewrite Z.testbit_0_l, orb_false_r, Nat.eqb_eq. intuition.
Qed.

(** C6: after [reset_cpu_topology] followed by [update_siblings_masks] for
    every possible CPU, each possible CPU is its own core sibling, core
    siblings are mutual among possible CPUs, and the thread siblings of a
    possible CPU are among its core siblings. *)
Theorem siblings_reflexive_symmetric E (tbl : list cpu_topology_t) :
  length tbl = NR_CPUS ->
  let tbl' := update_all_siblings_masks E (reset_cpu_topology E tbl) in
  (forall c, In c (for_each_possible_cpu E) ->
     cpumask_test_cpu c (core_sibling (tbl' !!! c)) = true) /\
  (forall c1 c2,
     In c1 (for_each_possible_cpu E) -> In c2 (for_each_possible_cpu E) ->
     cpumask_test_cpu c2 (core_sibling (tbl' !!! c1)) = true <->
     cpumask_test_cpu c1 (core_sibling (tbl' !!! c2)) = true) /\
  (forall c x, In c (for_each_possible_cpu E) ->
     cpumask_test_cpu x (thread_sibling (tbl' !!! c)) = true ->
     cpumask_test_cpu x (core_sibling (tbl' !!! c)) = true).
Proof.
  intros Hlen tbl'.
  set (tbl0 := reset_cpu_topology E tbl) in *.
  assert (Hlen0 : length tbl0 = NR_CPUS)
    by (unfold tbl0; rewrite reset_cpu_topology_length; exact Hlen).
  destruct (update_all_siblings_masks_grow E tbl0 Hlen0)
    as (_ & _ & Hcs & Hts).
  fold tbl' in Hcs, Hts. unfold cs, ts in Hcs, Hts.
  assert (Hdef : forall c, In c (for_each_possible_cpu E) ->
                   tbl0 !!! c = cpu_topology_default c)
    by (intros c Hc; apply reset_cpu_topology_lookup; assumption).
  split; [|split].
  - intros c Hc. apply Hcs. left. rewrite (Hdef c Hc). simpl.
    apply cpu_topology_default_sibling. reflexivity.
  - intros c1 c2 H1 H2. rewrite !Hcs.
    rewrite (Hdef c1 H1), (Hdef c2 H2). simpl.
    rewrite !cpu_topology_default_sibling.
    unfold same_cluster. rewrite (Hdef c1 H1), (Hdef c2 H2). simpl.
    intuition.
  - intros c x Hc Hx. apply Hts in Hx. apply Hcs.
    destruct Hx as [Hx|(Hcl & _ & Hin)]; [left|right; auto].
    rewrite (Hdef c Hc) in *. simpl in *.
    apply cpu_topology_default_sibling.
    apply cpu_topology_default_sibling in Hx. exact Hx.
Qed.
End SiblingFacts.

(** ** Scanning the children of a node *)

Lemma names_distinctb_sound prefix :
  names_distinctb prefix = true -> names_distinct prefix.
Proof.
  intros H i j Hi Hj Heq. unfold names_distinctb in H.
  rewrite forallb_forall in H. specialize (H i). 
  rewrite forallb_forall in H.
  specialize (H ltac:(apply in_seq; lia) j ltac:(apply in_seq; lia)).
  rewrite Heq, String.eqb_refl in H. simpl in H.
  apply Nat.eqb_eq, H.
Qed.

Lemma cluster_names_distinct : names_distinct "cluster".
Proof. apply names_distinctb_sound. vm_compute. reflexivity. Qed.
Lemma core_names_distinct : names_distinct "core".
Proof. apply names_distinctb_sound. vm_compute. reflexivity. Qed.
Lemma thread_names_distinct : names_distinct "thread".
Proof. apply names_distinctb_sound. vm_compute. reflexivity. Qed.

Lemma of_get_child_by_name_In node name c :
  of_get_child_by_name node name = Some c ->
  In c (dn_child node) /\ dn_name c = name.
Proof.
  unfold of_get_child_by_name. intros H. apply find_some in H.
  destruct H as [Hin Heq]. apply String.eqb_eq in Heq. auto.
Qed.

(** Among the first [n] names either all are taken or one is free. *)
Lemma scan_gap_dec node prefix (n : nat) :
  (forall g, (g < n)%nat ->
     of_get_child_by_name node (snprintf_d 10 prefix (Z.of_nat g)) <> None) \/
  (exists g, (g < n)%nat /\
     of_get_child_by_name node (snprintf_d 10 prefix (Z.of_nat g)) = None).
Proof.
  induction n as [|n [IH|(g & Hg & Hnone)]].
  - left. intros g Hg. lia.
  - destruct (of_get_child_by_name node (snprintf_d 10 prefix (Z.of_nat n)))
      eqn:Hn.
    + left. intros g Hg. destruct (Nat.eq_dec g n) as [->|Hne].
      * rewrite Hn. discriminate.
      * apply IH. lia.
    + right. exists n. split; [lia|exact Hn].
  - right. exists g. split; [lia|exact Hnone].
Qed.

(** A node with fewer than 100 children has a free name among the first
    [length + 1] ones: every scan of the parser stops. *)
Lemma scan_gap node prefix :
  names_distinct prefix ->
  (length (dn_child node) < 100)%nat ->
  exists g, (g <= length (dn_child node))%nat /\
    of_get_child_by_name node (snprintf_d 10 prefix (Z.of_nat g)) = None.
Proof.
  intros Hinj Hlen.
  destruct (scan_gap_dec node prefix (S (length (dn_child node))))
    as [Hall|(g & Hg & Hnone)].
  2:{ exists g. split; [lia|exact Hnone]. }
  exfalso.
  set (names := map (fun g => snprintf_d 10 prefix (Z.of_nat g))
                    (seq 0 (S (length (dn_child node))))).
  assert (Hnd : List.NoDup names).
  { unfold names. apply Finite.Injective_map_NoDup_in; [|apply seq_NoDup].
    intros i j Hi Hj Heq. apply in_seq in Hi, Hj.
    apply Hinj; [lia|lia|exact Heq]. }
  assert (Hincl : incl names (map dn_name (dn_child node))).
  { intros nm Hnm. unfold names in Hnm. apply in_map_iff in Hnm.
    destruct Hnm as (g & <- & Hg). apply in_seq in Hg.
    specialize (Hall g ltac:(lia)).
    destruct (of_get_child_by_name node (snprintf_d 10 prefix (Z.of_nat g)))
      as [c|] eqn:Hc; [|contradiction].
    apply of_get_child_by_name_In in Hc. destruct Hc as [Hin <-].
    apply in_map. exact Hin. }
  apply List.NoDup_incl_length in Hincl; [|exact Hnd].
  unfold names in Hincl. rewrite !length_map, length_seq in Hincl. lia.
Qed.

Lemma int_add_succ (k : nat) :
  (k < 100)%nat -> int_add (Z.of_nat k) 1 = Z.of_nat (S k).
Proof.
  intros Hk. unfold int_add. rewrite wrap_int_small.
  - lia.
  - unfold INT_MIN, INT_MAX. lia.
Qed.

Lemma dt_small_children node :
  dt_small node = true ->
  (length (dn_child node) < 100)%nat /\
  (forall c, In c (dn_child node) -> dt_small c = true).
Proof.
  destruct node as [name cpu child]. simpl. intros H.
  apply andb_true_iff in H. destruct H as [Hl Hc].
  apply Nat.ltb_lt in Hl. rewrite forallb_forall in Hc. auto.
Qed.

Lemma node_size_pos node : (1 <= node_size node)%nat.
Proof. destruct node. simpl. lia. Qed.

Lemma node_size_children node :
  node_size node = S (list_sum (map node_size (dn_child node))).
Proof. destruct node. reflexivity. Qed.

Lemma list_sum_node_size_ge (l : list device_node) :
  (length l <= list_sum (map node_size l))%nat.
Proof.
  induction l as [|x l IH]; simpl; [lia|].
  pose proof (node_size_pos x). lia.
Qed.

Lemma list_sum_node_size_In (l : list device_node) c :
  In c l -> (node_size c + length l <= S (list_sum (map node_size l)))%nat.
Proof.
  induction l as [|x l IH]; simpl; [contradiction|].
  intros [->|Hin].
  - pose proof (list_sum_node_size_ge l). lia.
  - specialize (IH Hin). pose proof (node_size_pos x). lia.
Qed.

(** A child costs its size and leaves room for its siblings. *)
Lemma node_size_child node c :
  In c (dn_child node) ->
  (node_size c + length (dn_child node) <= node_size node)%nat.
Proof.
  intros Hin. rewrite (node_size_children node).
  apply list_sum_node_size_In, Hin.
Qed.

Section ParseTotal.
Context {K : kconfig}.
Variable E : topo_env.

Lemma parse_core_threads_total core cluster_id core_id (g : nat) :
  (g < 100)%nat ->
  of_get_child_by_name core (snprintf_d 10 "thread" (Z.of_nat g)) = None ->
  forall fuel (k : nat) leaf st,
    (k <= g)%nat -> (g < fuel + k)%nat ->
    exists r,
      parse_core_threads fuel E core cluster_id core_id (Z.of_nat k) leaf st
      = Some r.
Proof.
  intros Hg Hgap. induction fuel as [|fuel IH]; intros k leaf st Hk Hfuel.
  - lia.
  - simpl.
    destruct (of_get_child_by_name core (snprintf_d 10 "thread" (Z.of_nat k)))
      as [t|] eqn:Ht; [|eauto].
    assert (k <> g) by (intros ->; congruence).
    destruct (get_cpu_for_node E t st) as [cpu st1].
    destruct (0 <=? cpu); [|eauto].
    rewrite int_add_succ by lia. apply IH; lia.
Qed.

Lemma parse_core_total core cluster_id core_id fuel st :
  (length (dn_child core) < 100)%nat ->
  (length (dn_child core) < fuel)%nat ->
  exists r, parse_core fuel E core cluster_id core_id st = Some r.
Proof.
  intros Hsmall Hfuel.
  destruct (scan_gap core "thread" thread_names_distinct Hsmall)
    as (g & Hg & Hgap).
  destruct (parse_core_threads_total core cluster_id core_id g
              ltac:(lia) Hgap fuel 0%nat true st ltac:(lia) ltac:(lia))
    as ([[ret leaf] st1] & Hrun).
  unfold parse_core. change (Z.of_nat 0) with 0 in Hrun. rewrite Hrun.
  destruct (negb (ret =? 0)); [eauto|].
  destruct (get_cpu_for_node E core st1) as [cpu st2].
  destruct (0 <=? cpu); destruct leaf; simpl; eauto.
Qed.

Lemma parse_cluster_cores_total cluster depth leaf (g : nat) :
  dt_small cluster = true ->
  (g <= length (dn_child cluster))%nat ->
  of_get_child_by_name cluster (snprintf_d 10 "core" (Z.of_nat g)) = None ->
  forall fuel (k : nat) core_id has_cores st,
    (k <= g)%nat -> (node_size cluster <= fuel + k)%nat ->
    exists r,
      parse_cluster_cores fuel E cluster depth leaf (Z.of_nat k) core_id
        has_cores st = Some r.
Proof.
  intros Hsmall Hg Hgap.
  destruct (dt_small_children cluster Hsmall) as [Hlen Hch].
  induction fuel as [|fuel IH]; intros k core_id has_cores st Hk Hfuel.
  - rewrite node_size_children in Hfuel.
    pose proof (list_sum_node_size_ge (dn_child cluster)). lia.
  - simpl.
    destruct (of_get_child_by_name cluster (snprintf_d 10 "core" (Z.of_nat k)))
      as [c|] eqn:Hc; [|eauto].
    assert (k <> g) by (intros ->; congruence).
    destruct (depth =? 0); [eauto|].
    destruct leaf; [|eauto].
    apply of_get_child_by_name_In in Hc. destruct Hc as [Hin _].
    pose proof (node_size_child cluster c Hin) as Hsz.
    destruct (dt_small_children c (Hch c Hin)) as [Hclen _].
    assert (Hcsz : (length (dn_child c) < node_size c)%nat).
    { rewrite node_size_children.
      pose proof (list_sum_node_size_ge (dn_child c)). lia. }
    destruct (parse_core_total c (static_cluster_id st) core_id fuel st Hclen
                ltac:(lia)) as ([ret st1] & ->).
    destruct (negb (ret =? 0)); [eauto|].
    rewrite int_add_succ by lia. apply IH; lia.
Qed.

Lemma parse_cluster_unfold fuel cluster depth st :
  parse_cluster (S fuel) E cluster depth st =
  match parse_cluster_clusters fuel E cluster depth 0 true st with
  | None => None
  | Some (ret, leaf, st) =>
      if negb (ret =? 0) then Some (ret, st)
      else
        match parse_cluster_cores fuel E cluster depth leaf 0 0 false st with
        | None => None
        | Some (ret, has_cores, st) =>
            if negb (ret =? 0) then Some (ret, st)
            else
              let st :=
                if leaf && negb has_cores
                then pr (warn_empty_cluster (dn_name cluster)) st
                else st in
              let st :=
                if leaf
                then set_static_cluster_id
                       (int_add (static_cluster_id st) 1) st
                else st in
              Some (0, st)
        end
  end.
Proof. reflexivity. Qed.

Lemma parse_cluster_clusters_unfold fuel cluster depth i leaf st :
  parse_cluster_clusters (S fuel) E cluster depth i leaf st =
  match of_get_child_by_name cluster (snprintf_d 10 "cluster" i) with
  | Some c =>
      match parse_cluster fuel E c (int_add depth 1) st with
      | None => None
      | Some (ret, st) =>
          if negb (ret =? 0) then Some (ret, false, st)
          else parse_cluster_clusters fuel E cluster depth
                 (int_add i 1) false st
      end
  | None => Some (0, leaf, st)
  end.
Proof. reflexivity. Qed.

Lemma parse_cluster_clusters_total cluster depth (g : nat) :
  dt_small cluster = true ->
  (g <= length (dn_child cluster))%nat ->
  of_get_child_by_name cluster (snprintf_d 10 "cluster" (Z.of_nat g)) = None ->
  (forall c, In c (dn_child cluster) ->
     forall fuel depth st, (2 * node_size c <= fuel)%nat ->
       exists r, parse_cluster fuel E c depth st = Some r) ->
  forall fuel (k : nat) leaf st,
    (k <= g)%nat -> (2 * node_size cluster <= S (fuel + k))%nat ->
    exists r,
      parse_cluster_clusters fuel E cluster depth (Z.of_nat k) leaf st
      = Some r.
Proof.
  intros Hsmall Hg Hgap Hsub.
  destruct (dt_small_children cluster Hsmall) as [Hlen Hch].
  induction fuel as [|fuel IH]; intros k leaf st Hk Hfuel.
  - rewrite node_size_children in Hfuel.
    pose proof (list_sum_node_size_ge (dn_child cluster)). lia.
  - rewrite parse_cluster_clusters_unfold.
    destruct (of_get_child_by_name cluster
                (snprintf_d 10 "cluster" (Z.of_nat k))) as [c|] eqn:Hc;
      [|eauto].
    assert (k <> g) by (intros ->; congruence).
    apply of_get_child_by_name_In in Hc. destruct Hc as [Hin _].
    pose proof (node_size_child cluster c Hin) as Hsz.
    destruct (Hsub c Hin fuel (int_add depth 1) st ltac:(lia))
      as ([ret st1] & ->).
    destruct (negb (ret =? 0)); [eauto|].
    rewrite int_add_succ by lia. apply IH; lia.
Qed.

(** The traversal of a tree whose nodes have fewer than 100 children each
    returns within [2 * node_size] steps. *)
Theorem parse_cluster_total cluster :
  dt_small cluster = true ->
  forall fuel depth st,
    (2 * node_size cluster <= fuel)%nat ->
    exists r, parse_cluster fuel E cluster depth st = Some r.
Proof.
  remember (node_size cluster) as n eqn:Hn.
  revert cluster Hn.
  induction n as [n IHn] using lt_wf_ind.
  intros cluster -> Hsmall fuel depth st Hfuel.
  destruct (dt_small_children cluster Hsmall) as [Hlen Hch].
  destruct fuel as [|fuel]; [pose proof (node_size_pos cluster); lia|].
  rewrite parse_cluster_unfold.
  destruct (scan_gap cluster "cluster" cluster_names_distinct Hlen)
    as (g & Hg & Hgap).
  destruct (parse_cluster_clusters_total cluster depth g Hsmall Hg Hgap)
    with (fuel := fuel) (k := 0%nat) (leaf := true) (st := st)
    as ([[ret leaf] st1] & Hrun).
  { intros c Hin fuel' depth' st' Hfuel'.
    pose proof (node_size_child cluster c Hin).
    eapply (IHn (node_size c)); [|reflexivity|auto|exact Hfuel'].
    assert (1 <= length (dn_child cluster))%nat
      by (destruct (dn_child cluster); [contradiction|simpl; lia]).
    lia. }
  { lia. }
  { lia. }
  change (Z.of_nat 0) with 0 in Hrun. rewrite Hrun.
  destruct (negb (ret =? 0)); [eauto|].
  destruct (scan_gap cluster "core" core_names_distinct Hlen)
    as (g' & Hg' & Hgap').
  destruct (parse_cluster_cores_total cluster depth leaf g' Hsmall Hg' Hgap'
              fuel 0%nat 0 false st1 ltac:(lia) ltac:(lia))
    as ([[ret2 has_cores] st2] & Hrun2).
  change (Z.of_nat 0) with 0 in Hrun2. rewrite Hrun2.
  destruct (negb (ret2 =? 0)); eauto.
Qed.
End ParseTotal.

(** ** Return codes of the parser *)

Section ParseCodes.
Context {K : kconfig}.
Variable E : topo_env.

Lemma get_cpu_for_node_resolved node n cpu st :
  dn_cpu node = Some n -> cpu_of_node E n = Some cpu ->
  get_cpu_for_node E node st = (Z.of_nat cpu, st).
Proof. intros Hn Hc. unfold get_cpu_for_node. rewrite Hn, Hc. reflexivity. Qed.

Lemma parse_core_threads_ret core cluster_id core_id :
  forall fuel i leaf st ret leaf' st',
    parse_core_threads fuel E core cluster_id core_id i leaf st
      = Some (ret, leaf', st') ->
    ret = 0 \/ ret = - EINVAL.
Proof.
  induction fuel as [|fuel IH]; intros i leaf st ret leaf' st' Hrun;
    simpl in Hrun; [discriminate|].
  destruct (of_get_child_by_name core (snprintf_d 10 "thread" i)) as [t|].
  - destruct (get_cpu_for_node E t st) as [cpu st1].
    destruct (0 <=? cpu); [eauto|].
    injection Hrun as <- _ _. auto.
  - injection Hrun as <- _ _. auto.
Qed.

(** Once a thread has been found, [leaf] stays false. *)
Lemma parse_core_threads_not_leaf core cluster_id core_id :
  forall fuel i st ret leaf' st',
    parse_core_threads fuel E core cluster_id core_id i false st
      = Some (ret, leaf', st') ->
    leaf' = false.
Proof.
  induction fuel as [|fuel IH]; intros i st ret leaf' st' Hrun;
    simpl in Hrun; [discriminate|].
  destruct (of_get_child_by_name core (snprintf_d 10 "thread" i)) as [t|].
  - destruct (get_cpu_for_node E t st) as [cpu st1].
    destruct (0 <=? cpu); [eauto|].
    injection Hrun as _ <- _. reflexivity.
  - injection Hrun as _ <- _. reflexivity.
Qed.

Lemma parse_core_threads_thread0 core cluster_id core_id fuel st ret leaf' st' :
  of_get_child_by_name core (snprintf_d 10 "thread" 0) <> None ->
  parse_core_threads fuel E core cluster_id core_id 0 true st
    = Some (ret, leaf', st') ->
  leaf' = false.
Proof.
  intros Ht Hrun. destruct fuel as [|fuel]; simpl in Hrun; [discriminate|].
  destruct (of_get_child_by_name core (snprintf_d 10 "thread" 0)) as [t|];
    [|contradiction].
  destruct (get_cpu_for_node E t st) as [cpu st1].
  destruct (0 <=? cpu).
  - eapply parse_core_threads_not_leaf, Hrun.
  - injection Hrun as _ <- _. reflexivity.
Qed.

Lemma parse_core_ret core cluster_id core_id fuel st ret st' :
  parse_core fuel E core cluster_id core_id st = Some (ret, st') ->
  ret = 0 \/ ret = - EINVAL.
Proof.
  unfold parse_core. intros Hrun.
  destruct (parse_core_threads fuel E core cluster_id core_id 0 true st)
    as [[[r leaf] st1]|] eqn:Hth; [|discriminate].
  apply parse_core_threads_ret in Hth.
  destruct (negb (r =? 0)).
  - injection Hrun as <- _. exact Hth.
  - destruct (get_cpu_for_node E core st1) as [cpu st2].
    destruct (0 <=? cpu); destruct leaf; simpl in Hrun;
      injection Hrun as <- _; auto.
Qed.

(** A core with a [thread0] child and a ["cpu"] reference that resolves
    never parses successfully. *)
Lemma parse_core_ambiguous_ret core n cpu cluster_id core_id fuel st ret st' :
  of_get_child_by_name core (snprintf_d 10 "thread" 0) <> None ->
  dn_cpu core = Some n -> cpu_of_node E n = Some cpu ->
  parse_core fuel E core cluster_id core_id st = Some (ret, st') ->
  ret = - EINVAL.
Proof.
  intros Ht Hn Hc. unfold parse_core. intros Hrun.
  destruct (parse_core_threads fuel E core cluster_id core_id 0 true st)
    as [[[r leaf] st1]|] eqn:Hth; [|discriminate].
  pose proof (parse_core_threads_thread0 _ _ _ _ _ _ _ _ Ht Hth) as ->.
  pose proof (parse_core_threads_ret _ _ _ _ _ _ _ _ _ _ Hth) as [->| ->].
  - simpl in Hrun. rewrite (get_cpu_for_node_resolved core n cpu) in Hrun
      by assumption.
    destruct (Z.leb_spec 0 (Z.of_nat cpu)); [|lia].
    simpl in Hrun. injection Hrun as <- _. reflexivity.
  - simpl in Hrun. injection Hrun as <- _. reflexivity.
Qed.

Lemma parse_cluster_cores_ret cluster depth leaf :
  forall fuel i core_id has_cores st ret hc st',
    parse_cluster_cores fuel E cluster depth leaf i core_id has_cores st
      = Some (ret, hc, st') ->
    ret = 0 \/ ret = - EINVAL.
Proof.
  induction fuel as [|fuel IH]; intros i core_id has_cores st ret hc st' Hrun;
    simpl in Hrun; [discriminate|].
  destruct (of_get_child_by_name cluster (snprintf_d 10 "core" i)) as [c|].
  2:{ injection Hrun as <- _ _. auto. }
  destruct (depth =? 0); [injection Hrun as <- _ _; auto|].
  destruct leaf; [|injection Hrun as <- _ _; auto].
  destruct (parse_core fuel E c (static_cluster_id st) core_id st)
    as [[r st1]|] eqn:Hc; [|discriminate].
  apply parse_core_ret in Hc.
  destruct (negb (r =? 0)); [injection Hrun as <- _ _; exact Hc|eauto].
Qed.

Lemma parse_cluster_ret_both :
  forall fuel,
    (forall cluster depth st ret st',
       parse_cluster fuel E cluster depth st = Some (ret, st') ->
       ret = 0 \/ ret = - EINVAL) /\
    (forall cluster depth i leaf st ret leaf' st',
       parse_cluster_clusters fuel E cluster depth i leaf st
         = Some (ret, leaf', st') ->
       ret = 0 \/ ret = - EINVAL).
Proof.
  induction fuel as [|fuel [IHc IHl]].
  - split; intros; discriminate.
  - split.
    + intros cluster depth st ret st' Hrun.
      rewrite parse_cluster_unfold in Hrun.
      destruct (parse_cluster_clusters fuel E cluster depth 0 true st)
        as [[[r leaf] st1]|] eqn:Hl; [|discriminate].
      apply IHl in Hl.
      destruct (negb (r =? 0)); [injection Hrun as <- _; exact Hl|].
      destruct (parse_cluster_cores fuel E cluster depth leaf 0 0 false st1)
        as [[[r2 hc] st2]|] eqn:Hco; [|discriminate].
      apply parse_cluster_cores_ret in Hco.
      destruct (negb (r2 =? 0)); injection Hrun as <- _; auto.
    + intros cluster depth i leaf st ret leaf' st' Hrun.
      rewrite parse_cluster_clusters_unfold in Hrun.
      destruct (of_get_child_by_name cluster (snprintf_d 10 "cluster" i))
        as [c|]; [|injection Hrun as <- _ _; auto].
      destruct (parse_cluster fuel E c (int_add depth 1) st)
        as [[r1 st1]|] eqn:Hc; [|discriminate].
      apply IHc in Hc.
      destruct (negb (r1 =? 0)); [injection Hrun as <- _ _; exact Hc|eauto].
Qed.

Lemma parse_cluster_ret fuel cluster depth st ret st' :
  parse_cluster fuel E cluster depth st = Some (ret, st') ->
  ret = 0 \/ ret = - EINVAL.
Proof. apply parse_cluster_ret_both. Qed.

(** ** A successful traversal has parsed every core it visits *)

Lemma parse_cluster_cores_ok_visits cluster depth (k' : nat) core :
  (k' < 100)%nat ->
  depth <> 0 ->
  of_get_child_by_name cluster (snprintf_d 10 "core" (Z.of_nat k'))
    = Some core ->
  forall fuel (k : nat) core_id has_cores st hc st',
    (k <= k')%nat ->
    (forall j : nat, (k <= j <= k')%nat ->
       of_get_child_by_name cluster (snprintf_d 10 "core" (Z.of_nat j))
       <> None) ->
    parse_cluster_cores fuel E cluster depth true (Z.of_nat k) core_id
      has_cores st = Some (0, hc, st') ->
    exists fuel' cid coreid st0 st1,
      parse_core fuel' E core cid coreid st0 = Some (0, st1).
Proof.
  intros Hk' Hdepth Hcore.
  induction fuel as [|fuel IH]; intros k core_id has_cores st hc st' Hk Hrun
    Hres; simpl in Hres; [discriminate|].
  destruct (of_get_child_by_name cluster (snprintf_d 10 "core" (Z.of_nat k)))
    as [c|] eqn:Hc.
  2:{ exfalso. apply (Hrun k); [lia|exact Hc]. }
  destruct (Z.eqb_spec depth 0) as [?|_]; [contradiction|].
  destruct (parse_core fuel E c (static_cluster_id st) core_id st)
    as [[r st1]|] eqn:Hpc; [|discriminate].
  destruct (Z.eqb_spec r 0) as [->|Hr]; simpl in Hres.
  2:{ injection Hres as -> _ _. contradiction. }
  destruct (Nat.eq_dec k k') as [->|Hne].
  - rewrite Hcore in Hc. injection Hc as <-. eauto 6.
  - rewrite int_add_succ in Hres by lia.
    eapply IH; [| |exact Hres]; [lia|]. intros j Hj. apply Hrun. lia.
Qed.

Lemma parse_cluster_clusters_ok_visits cluster depth (k' : nat) sub :
  (k' < 100)%nat ->
  of_get_child_by_name cluster (snprintf_d 10 "cluster" (Z.of_nat k'))
    = Some sub ->
  forall fuel (k : nat) leaf st leaf' st',
    (k <= k')%nat ->
    (forall j : nat, (k <= j <= k')%nat ->
       of_get_child_by_name cluster (snprintf_d 10 "cluster" (Z.of_nat j))
       <> None) ->
    parse_cluster_clusters fuel E cluster depth (Z.of_nat k) leaf st
      = Some (0, leaf', st') ->
    exists fuel' st0 st1,
      parse_cluster fuel' E sub (int_add depth 1) st0 = Some (0, st1).
Proof.
  intros Hk' Hsub.
  induction fuel as [|fuel IH]; intros k leaf st leaf' st' Hk Hrun Hres;
    [discriminate|].
  rewrite parse_cluster_clusters_unfold in Hres.
  destruct (of_get_child_by_name cluster
              (snprintf_d 10 "cluster" (Z.of_nat k))) as [c|] eqn:Hc.
  2:{ exfalso. apply (Hrun k); [lia|exact Hc]. }
  destruct (parse_cluster fuel E c (int_add depth 1) st)
    as [[r st1]|] eqn:Hpc; [|discriminate].
  destruct (Z.eqb_spec r 0) as [->|Hr]; simpl in Hres.
  2:{ injection Hres as -> _ _. contradiction. }
  destruct (Nat.eq_dec k k') as [->|Hne].
  - rewrite Hsub in Hc. injection Hc as <-. eauto.
  - rewrite int_add_succ in Hres by lia.
    eapply IH; [| |exact Hres]; [lia|]. intros j Hj. apply Hrun. lia.
Qed.

Lemma parse_cluster_clusters_leaf fuel cluster depth i leaf st r :
  of_get_child_by_name cluster (snprintf_d 10 "cluster" i) = None ->
  parse_cluster_clusters fuel E cluster depth i leaf st = Some r ->
  r = (0, leaf, st).
Proof.
  intros Hleaf Hrun. destruct fuel as [|fuel]; [discriminate|].
  rewrite parse_cluster_clusters_unfold, Hleaf in Hrun. congruence.
Qed.

Lemma parse_cluster_ok_visits cluster depth core :
  visits_core cluster depth core ->
  forall fuel st st',
    parse_cluster fuel E cluster depth st = Some (0, st') ->
    exists fuel' cid coreid st0 st1,
      parse_core fuel' E core cid coreid st0 = Some (0, st1).
Proof.
  induction 1 as [cluster depth k core Hleaf Hdepth Hk Hrun Hcore
                 |cluster depth k sub core Hk Hrun Hsub Hvis IH];
    intros fuel st st' Hres.
  - destruct fuel as [|fuel]; [discriminate|].
    rewrite parse_cluster_unfold in Hres.
    destruct (parse_cluster_clusters fuel E cluster depth 0 true st)
      as [r0|] eqn:Hl; [|discriminate].
    apply (parse_cluster_clusters_leaf _ _ _ _ _ _ _ Hleaf) in Hl. subst r0.
    simpl in Hres.
    destruct (parse_cluster_cores fuel E cluster depth true 0 0 false st)
      as [[[r hc] st1]|] eqn:Hco; [|discriminate].
    destruct (Z.eqb_spec r 0) as [->|Hr]; simpl in Hres.
    2:{ injection Hres as -> _. contradiction. }
    eapply (parse_cluster_cores_ok_visits cluster depth k core Hk Hdepth
              Hcore fuel 0%nat); [| |exact Hco]; [lia|].
    intros j Hj. apply Hrun. lia.
  - destruct fuel as [|fuel]; [discriminate|].
    rewrite parse_cluster_unfold in Hres.
    destruct (parse_cluster_clusters fuel E cluster depth 0 true st)
      as [[[r leaf] st1]|] eqn:Hl; [|discriminate].
    destruct (Z.eqb_spec r 0) as [->|Hr]; simpl in Hres.
    2:{ injection Hres as -> _. contradiction. }
    destruct (parse_cluster_clusters_ok_visits cluster depth k sub Hk Hsub
                fuel 0%nat true st leaf st1 ltac:(lia)
                ltac:(intros j Hj; apply Hrun; lia) Hl)
      as (fuel' & st0 & st2 & Hsubrun).
    eapply IH, Hsubrun.
Qed.
End ParseCodes.

(** ** What the parser leaves alone *)

Section ParsePreserves.
Context {K : kconfig}.
Variable E : topo_env.
Variable P : topo_state -> Prop.
Hypothesis P_pr : forall m st, P st -> P (pr m st).
Hypothesis P_alter :
  forall f (i : nat) st, P st -> P (upd_topology (alter f i) st).
Hypothesis P_static : forall v st, P st -> P (set_static_cluster_id v st).

Lemma get_cpu_for_node_preserves node st cpu st' :
  P st -> get_cpu_for_node E node st = (cpu, st') -> P st'.
Proof.
  unfold get_cpu_for_node. intros HP Hrun.
  destruct (dn_cpu node) as [n|]; [|congruence].
  destruct (cpu_of_node E n); injection Hrun as _ <-; auto.
Qed.

Lemma parse_core_threads_preserves core cluster_id core_id :
  forall fuel i leaf st ret leaf' st',
    P st ->
    parse_core_threads fuel E core cluster_id core_id i leaf st
      = Some (ret, leaf', st') ->
    P st'.
Proof.
  induction fuel as [|fuel IH]; intros i leaf st ret leaf' st' HP Hrun;
    simpl in Hrun; [discriminate|].
  destruct (of_get_child_by_name core (snprintf_d 10 "thread" i)) as [t|].
  2:{ injection Hrun as _ _ <-. exact HP. }
  destruct (get_cpu_for_node E t st) as [cpu st1] eqn:Hg.
  apply get_cpu_for_node_preserves in Hg; [|exact HP].
  destruct (0 <=? cpu).
  - eapply IH; [|exact Hrun]. auto.
  - injection Hrun as _ _ <-. auto.
Qed.

Lemma parse_core_preserves core cluster_id core_id fuel st ret st' :
  P st -> parse_core fuel E core cluster_id core_id st = Some (ret, st') ->
  P st'.
Proof.
  unfold parse_core. intros HP Hrun.
  destruct (parse_core_threads fuel E core cluster_id core_id 0 true st)
    as [[[r leaf] st1]|] eqn:Hth; [|discriminate].
  apply parse_core_threads_preserves in Hth; [|exact HP].
  destruct (negb (r =? 0)); [injection Hrun as _ <-; exact Hth|].
  destruct (get_cpu_for_node E core st1) as [cpu st2] eqn:Hg.
  apply get_cpu_for_node_preserves in Hg; [|exact Hth].
  destruct (0 <=? cpu); destruct leaf; simpl in Hrun;
    injection Hrun as _ <-; auto.
Qed.

Lemma parse_cluster_cores_preserves cluster depth leaf :
  forall fuel i core_id has_cores st ret hc st',
    P st ->
    parse_cluster_cores fuel E cluster depth leaf i core_id has_cores st
      = Some (ret, hc, st') ->
    P st'.
Proof.
  induction fuel as [|fuel IH];
    intros i core_id has_cores st ret hc st' HP Hrun;
    simpl in Hrun; [discriminate|].
  destruct (of_get_child_by_name cluster (snprintf_d 10 "core" i)) as [c|].
  2:{ injection Hrun as _ _ <-. exact HP. }
  destruct (depth =? 0); [injection Hrun as _ _ <-; auto|].
  destruct leaf; [|injection Hrun as _ _ <-; auto].
  destruct (parse_core fuel E c (static_cluster_id st) core_id st)
    as [[r st1]|] eqn:Hc; [|discriminate].
  apply parse_core_preserves in Hc; [|exact HP].
  destruct (negb (r =? 0)); [injection Hrun as _ _ <-; exact Hc|eauto].
Qed.

Lemma parse_cluster_preserves_both :
  forall fuel,
    (forall cluster depth st ret st',
       P st -> parse_cluster fuel E cluster depth st = Some (ret, st') ->
       P st') /\
    (forall cluster depth i leaf st ret leaf' st',
       P st ->
       parse_cluster_clusters fuel E cluster depth i leaf st
         = Some (ret, leaf', st') ->
       P st').
Proof.
  induction fuel as [|fuel [IHc IHl]].
  - split; intros; discriminate.
  - split.
    + intros cluster depth st ret st' HP Hrun.
      rewrite parse_cluster_unfold in Hrun.
      destruct (parse_cluster_clusters fuel E cluster depth 0 true st)
        as [[[r leaf] st1]|] eqn:Hl; [|discriminate].
      apply IHl in Hl; [|exact HP].
      destruct (negb (r =? 0)); [injection Hrun as _ <-; exact Hl|].
      destruct (parse_cluster_cores fuel E cluster depth leaf 0 0 false st1)
        as [[[r2 hc] st2]|] eqn:Hco; [|discriminate].
      apply parse_cluster_cores_preserves in Hco; [|exact Hl].
      destruct (negb (r2 =? 0)); injection Hrun as _ <-; [exact Hco|].
      destruct leaf; simpl; [|exact Hco].
      apply P_static. destruct (negb hc); auto.
    + intros cluster depth i leaf st ret leaf' st' HP Hrun.
      rewrite parse_cluster_clusters_unfold in Hrun.
      destruct (of_get_child_by_name cluster (snprintf_d 10 "cluster" i))
        as [c|]; [|injection Hrun as _ _ <-; exact HP].
      destruct (parse_cluster fuel E c (int_add depth 1) st)
        as [[r1 st1]|] eqn:Hc; [|discriminate].
      apply IHc in Hc; [|exact HP].
      destruct (negb (r1 =? 0)); [injection Hrun as _ _ <-; exact Hc|eauto].
Qed.

Lemma parse_cluster_preserves fuel cluster depth st ret st' :
  P st -> parse_cluster fuel E cluster depth st = Some (ret, st') -> P st'.
Proof. apply parse_cluster_preserves_both. Qed.
End ParsePreserves.

(** ** [parse_dt_topology] *)

Section InitFacts.
Context {K : kconfig}.
Variable E : topo_env.

Lemma parse_dt_topology_map map st :
  of_cpu_map E = Some map ->
  parse_dt_topology E st =
    match parse_cluster (parse_fuel map) E map 0 st with
    | None => None
    | Some (ret, st) =>
        if negb (ret =? 0) then Some (ret, st)
        else Some (fold_left (parse_dt_check_cpu E)
                             (for_each_possible_cpu E) (0, st))
    end.
Proof.
  unfold of_cpu_map, parse_dt_topology.
  destruct (of_find_cpus E) as [cn|]; [|discriminate].
  intros ->. reflexivity.
Qed.

Lemma parse_dt_topology_no_map st :
  of_cpu_map E = None ->
  exists st', parse_dt_topology E st = Some (0, st') /\
              cpu_topology st' = cpu_topology st /\
              cpu_efficiency st' = cpu_efficiency st.
Proof.
  unfold of_cpu_map, parse_dt_topology.
  destruct (of_find_cpus E) as [cn|].
  - intros ->. eauto.
  - intros _. eexists. split; [reflexivity|]. split; reflexivity.
Qed.

(** The closing loop of [parse_dt_topology] leaves the table alone and
    answers 0 only if no CPU it went through has [cluster_id == -1]. *)
Lemma parse_dt_check_fold (l : list nat) :
  forall ret st ret' st',
    fold_left (parse_dt_check_cpu E) l (ret, st) = (ret', st') ->
    cpu_topology st' = cpu_topology st /\
    length (cpu_efficiency st') = length (cpu_efficiency st) /\
    (ret' = 0 \/ ret' = - EINVAL \/ ret' = ret) /\
    (ret' = 0 ->
       ret = 0 /\
       forall c, In c l -> cluster_id (cpu_topology st !!! c) <> -1).
Proof.
  induction l as [|c l IH]; intros ret st ret' st' Hrun; cbn [fold_left] in Hrun.
  - injection Hrun as <- <-. intuition.
  - destruct (parse_dt_check_cpu E (ret, st) c) as [r1 st1] eqn:Hstep.
    apply IH in Hrun. destruct Hrun as (Htbl & Hlen & Hcode & Hok).
    assert (Hst1 : cpu_topology st1 = cpu_topology st /\
                   length (cpu_efficiency st1) = length (cpu_efficiency st) /\
                   r1 = (if cluster_id (cpu_topology st !!! c) =? -1
                         then - EINVAL else ret)).
    { unfold parse_dt_check_cpu in Hstep.
      destruct (of_get_cpu_node E c) as [cn|];
        [destruct (cn_efficiency cn)|]; injection Hstep as <- <-; simpl;
        rewrite ?length_insert; auto. }
    destruct Hst1 as (Htbl1 & Hlen1 & Hr1).
    split; [congruence|]. split; [congruence|]. split.
    + destruct Hcode as [?|[?| ->]]; auto. rewrite Hr1.
      destruct (cluster_id (cpu_topology st !!! c) =? -1); auto.
    + intros Hz. destruct (Hok Hz) as [Hr10 Hall]. rewrite Hr1 in Hr10.
      destruct (Z.eqb_spec (cluster_id (cpu_topology st !!! c)) (-1))
        as [?|Hne]; [discriminate|].
      split; [exact Hr10|]. intros x [<-|Hx]; [exact Hne|].
      rewrite <- Htbl1. apply Hall, Hx.
Qed.

(** The closing loop stores the ["efficiency"] property of every CPU that
    has one. *)
Lemma parse_dt_check_fold_efficiency (l : list nat) (c : nat) cn e :
  of_get_cpu_node E c = Some cn -> cn_efficiency cn = Some e ->
  forall ret st ret' st',
    fold_left (parse_dt_check_cpu E) l (ret, st) = (ret', st') ->
    (c < length (cpu_efficiency st))%nat ->
    (In c l \/ cpu_efficiency st !!! c = e) ->
    cpu_efficiency st' !!! c = e.
Proof.
  intros Hcn He.
  induction l as [|x l IH]; intros ret st ret' st' Hrun Hlt Hin;
    cbn [fold_left] in Hrun.
  - injection Hrun as _ <-. destruct Hin as [[]|Hin]. exact Hin.
  - destruct (parse_dt_check_cpu E (ret, st) x) as [r1 st1] eqn:Hstep.
    eapply IH; [exact Hrun| |].
    + unfold parse_dt_check_cpu in Hstep.
      destruct (of_get_cpu_node E x) as [cx|];
        [destruct (cn_efficiency cx)|]; injection Hstep as _ <-; simpl;
        rewrite ?length_insert; exact Hlt.
    + destruct (Nat.eq_dec x c) as [->|Hne].
      * right. unfold parse_dt_check_cpu in Hstep. rewrite Hcn, He in Hstep.
        injection Hstep as _ <-. simpl.
        apply list_lookup_total_insert_eq. exact Hlt.
      * destruct Hin as [[?|Hin]|Hin]; [contradiction|left; exact Hin|].
        right. unfold parse_dt_check_cpu in Hstep.
        destruct (of_get_cpu_node E x) as [cx|];
          [destruct (cn_efficiency cx)|]; injection Hstep as _ <-; simpl;
          rewrite ?list_lookup_total_insert_ne by exact Hne; exact Hin.
Qed.

Lemma parse_cluster_length fuel cluster depth st ret st' :
  parse_cluster fuel E cluster depth st = Some (ret, st') ->
  length (cpu_topology st') = length (cpu_topology st) /\
  cpu_efficiency st' = cpu_efficiency st.
Proof.
  intros Hrun.
  apply (parse_cluster_preserves E
           (fun s => length (cpu_topology s) = length (cpu_topology st) /\
                     cpu_efficiency s = cpu_efficiency st))
    in Hrun; [exact Hrun| | | |].
  - intros m s Hs. exact Hs.
  - intros f i s [Hl He]. simpl. rewrite length_alter. auto.
  - intros v s Hs. exact Hs.
  - auto.
Qed.

Lemma parse_dt_topology_length st ret st' :
  parse_dt_topology E st = Some (ret, st') ->
  length (cpu_topology st') = length (cpu_topology st).
Proof.
  destruct (of_cpu_map E) as [map|] eqn:Hmap.
  - rewrite (parse_dt_topology_map map st Hmap).
    destruct (parse_cluster (parse_fuel map) E map 0 st)
      as [[r st1]|] eqn:Hp; [|discriminate].
    apply parse_cluster_length in Hp. destruct Hp as [Hl _].
    destruct (negb (r =? 0)).
    + intros H. injection H as _ <-. exact Hl.
    + destruct (fold_left _ _ _) as [r2 st2] eqn:Hf.
      apply parse_dt_check_fold in Hf. destruct Hf as (Ht & _).
      intros H. injection H as _ <-. congruence.
  - destruct (parse_dt_topology_no_map st Hmap) as (st1 & -> & Ht & _).
    intros H. injection H as _ <-. congruence.
Qed.

(** [parse_dt_topology] returns on a tree whose [cpu-map] nodes have fewer
    than 100 children each. *)
Lemma parse_dt_topology_total st :
  (forall map, of_cpu_map E = Some map -> dt_small map = true) ->
  exists ret st', parse_dt_topology E st = Some (ret, st').
Proof.
  intros Hsmall. destruct (of_cpu_map E) as [map|] eqn:Hmap.
  - rewrite (parse_dt_topology_map map st Hmap).
    destruct (parse_cluster_total E map (Hsmall map eq_refl)
                (parse_fuel map) 0 st ltac:(unfold parse_fuel; lia))
      as ([r st1] & ->).
    destruct (negb (r =? 0)); [eauto|].
    destruct (fold_left _ _ _) as [r2 st2]. eauto.
  - destruct (parse_dt_topology_no_map st Hmap) as (st1 & -> & _). eauto.
Qed.
End InitFacts.

(** ** [init_cpu_topology] *)

Section InitTheorems.
Context {K : kconfig}.
Variable E : topo_env.

Lemma parse_core_threads_err_log core cluster_id core_id :
  forall fuel i leaf st ret leaf' st',
    parse_core_threads fuel E core cluster_id core_id i leaf st
      = Some (ret, leaf', st') ->
    ret <> 0 ->
    exists t log, topo_log st' = log ++ [err_thread_no_cpu t].
Proof.
  induction fuel as [|fuel IH]; intros i leaf st ret leaf' st' Hrun Hret;
    simpl in Hrun; [discriminate|].
  destruct (of_get_child_by_name core (snprintf_d 10 "thread" i)) as [t|].
  - destruct (get_cpu_for_node E t st) as [cpu st1].
    destruct (0 <=? cpu); [eauto|].
    injection Hrun as _ _ <-. simpl. eauto.
  - injection Hrun as <- _ _. contradiction.
Qed.

(** C7 (as amended): a core node with a [thread0] child whose own ["cpu"]
    reference resolves to a CPU makes [parse_core] return [-EINVAL],
    logging "Core has both threads and CPU" unless one of its threads
    already failed to resolve.  The error stops every traversal of a
    [cpu-map] that visits the core: [parse_cluster] and
    [parse_dt_topology] return it and [init_cpu_topology] resets the
    table. *)
Theorem parse_core_threads_and_cpu core (n cpu : nat) :
  of_get_child_by_name core "thread0" <> None ->
  dn_cpu core = Some n ->
  cpu_of_node E n = Some cpu ->
  (length (dn_child core) < 100)%nat ->
  (forall fuel cluster_id core_id st,
     (length (dn_child core) < fuel)%nat ->
     exists st' m log,
       parse_core fuel E core cluster_id core_id st = Some (- EINVAL, st') /\
       topo_log st' = log ++ [m] /\
       (m = err_core_threads_and_cpu (dn_name core) \/
        exists t, m = err_thread_no_cpu t)) /\
  (forall map,
     dt_small map = true ->
     visits_core map 0 core ->
     (forall st, exists st',
        parse_cluster (parse_fuel map) E map 0 st = Some (- EINVAL, st')) /\
     (of_cpu_map E = Some map ->
      forall st, exists st1 st',
        parse_dt_topology E (upd_topology (reset_cpu_topology E) st)
          = Some (- EINVAL, st1) /\
        init_cpu_topology E st = Some st' /\
        cpu_topology st' = reset_cpu_topology E (cpu_topology st1))).
Proof.
  intros Ht0 Hn Hcpu Hlen.
  change "thread0"%string with (snprintf_d 10 "thread" 0) in Ht0.
  split.
  - intros fuel cluster_id core_id st Hfuel.
    destruct (parse_core_total E core cluster_id core_id fuel st Hlen Hfuel)
      as ([r st'] & Hrun).
    pose proof (parse_core_ambiguous_ret E core n cpu _ _ _ _ _ _
                  Ht0 Hn Hcpu Hrun) as ->.
    exists st'. pose proof Hrun as Hrun0. unfold parse_core in Hrun.
    destruct (parse_core_threads fuel E core cluster_id core_id 0 true st)
      as [[[r leaf] st1]|] eqn:Hth; [|discriminate].
    destruct (Z.eqb_spec r 0) as [->|Hr]; simpl in Hrun.
    + rewrite (get_cpu_for_node_resolved E core n cpu) in Hrun by assumption.
      pose proof (parse_core_threads_thread0 E _ _ _ _ _ _ _ _ Ht0 Hth) as ->.
      destruct (Z.leb_spec 0 (Z.of_nat cpu)); [|lia]. simpl in Hrun.
      injection Hrun as <-.
      exists (err_core_threads_and_cpu (dn_name core)), (topo_log st1).
      split; [exact Hrun0|]. split; [reflexivity|left; reflexivity].
    + injection Hrun as _ <-.
      destruct (parse_core_threads_err_log _ _ _ _ _ _ _ _ _ _ Hth Hr)
        as (t & log & Hlog).
      exists (err_thread_no_cpu t), log.
      split; [exact Hrun0|]. split; [exact Hlog|right; eauto].
  - intros map Hsmall Hvis.
    assert (Hcluster : forall st, exists st',
              parse_cluster (parse_fuel map) E map 0 st
              = Some (- EINVAL, st')).
    { intros st.
      destruct (parse_cluster_total E map Hsmall (parse_fuel map) 0 st
                  ltac:(unfold parse_fuel; lia)) as ([r st'] & Hrun).
      destruct (parse_cluster_ret E _ _ _ _ _ _ Hrun) as [->| ->]; [|eauto].
      exfalso.
      destruct (parse_cluster_ok_visits E map 0 core Hvis _ _ _ Hrun)
        as (fuel' & cid & coreid & st0 & st1 & Hcore).
      apply (parse_core_ambiguous_ret E core n cpu) in Hcore; try assumption.
      discriminate. }
    split; [exact Hcluster|].
    intros Hmap st.
    destruct (Hcluster (upd_topology (reset_cpu_topology E) st))
      as (st1 & Hrun).
    exists st1. eexists. split; [|split].
    + rewrite (parse_dt_topology_map E map _ Hmap), Hrun. reflexivity.
    + unfold init_cpu_topology.
      rewrite (parse_dt_topology_map E map _ Hmap), Hrun. reflexivity.
    + reflexivity.
Qed.

(** C5 (as amended): [init_cpu_topology] returns, and the table it leaves
    is never partly filled in.  If [parse_dt_topology] answered an error,
    every possible CPU holds the flat default again.  If it answered 0 for
    a tree with a [cpu-map], every possible CPU has a [cluster_id] other
    than -1.  If the tree has no [/cpus] node or no [cpu-map],
    [parse_dt_topology] answers 0 without parsing anything and every
    possible CPU keeps [cluster_id == -1]. *)
Theorem init_cpu_topology_no_partial_table (st : topo_state) :
  length (cpu_topology st) = NR_CPUS ->
  (forall map, of_cpu_map E = Some map -> dt_small map = true) ->
  exists ret st1 st',
    parse_dt_topology E (upd_topology (reset_cpu_topology E) st)
      = Some (ret, st1) /\
    init_cpu_topology E st = Some st' /\
    (ret <> 0 ->
       forall cpu, In cpu (for_each_possible_cpu E) ->
         cpu_topology st' !!! cpu = cpu_topology_default cpu) /\
    (ret = 0 -> of_cpu_map E <> None ->
       forall cpu, In cpu (for_each_possible_cpu E) ->
         cluster_id (cpu_topology st' !!! cpu) <> -1) /\
    (of_cpu_map E = None ->
       ret = 0 /\
       forall cpu, In cpu (for_each_possible_cpu E) ->
         cluster_id (cpu_topology st' !!! cpu) = -1).
Proof.
  intros Hlen Hsmall.
  set (st0 := upd_topology (reset_cpu_topology E) st).
  assert (Hlen0 : length (cpu_topology st0) = NR_CPUS)
    by (simpl; rewrite reset_cpu_topology_length; exact Hlen).
  destruct (parse_dt_topology_total E st0 Hsmall) as (ret & st1 & Hparse).
  pose proof (parse_dt_topology_length E _ _ _ Hparse) as Hlen1.
  rewrite Hlen0 in Hlen1.
  exists ret, st1. eexists. split; [exact Hparse|].
  split; [unfold init_cpu_topology; fold st0; rewrite Hparse; reflexivity|].
  pose proof (update_all_siblings_masks_grow E (cpu_topology st1) Hlen1)
    as Hgrow.
  split; [|split].
  - intros Hret cpu Hcpu.
    destruct (Z.eqb_spec ret 0) as [?|_]; [contradiction|]. simpl.
    apply reset_cpu_topology_lookup; assumption.
  - intros -> Hmap cpu Hcpu. simpl.
    destruct (masks_grow_ids _ _ _ _ cpu Hgrow) as (_ & _ & ->).
    destruct (of_cpu_map E) as [map|] eqn:Hm; [|contradiction].
    rewrite (parse_dt_topology_map E map st0 Hm) in Hparse.
    destruct (parse_cluster (parse_fuel map) E map 0 st0)
      as [[r stp]|]; [|discriminate].
    destruct (Z.eqb_spec r 0) as [->|Hr]; simpl in Hparse;
      [|injection Hparse as -> _; contradiction].
    injection Hparse as Hfold.
    apply parse_dt_check_fold in Hfold.
    destruct Hfold as (Htbl & _ & _ & Hok). rewrite Htbl.
    apply (Hok eq_refl), Hcpu.
  - intros Hmap.
    destruct (parse_dt_topology_no_map E st0 Hmap) as (st1' & Hp & Htbl & _).
    rewrite Hp in Hparse. injection Hparse as <- <-.
    split; [reflexivity|]. intros cpu Hcpu. simpl.
    destruct (masks_grow_ids _ _ _ _ cpu Hgrow) as (_ & _ & ->).
    rewrite Htbl. simpl.
    rewrite reset_cpu_topology_lookup by assumption. reflexivity.
Qed.

(** C10: [reset_cpu_topology] does not touch [cpu_efficiency].  Whatever
    [parse_dt_topology] stored there is what [arch_get_cpu_efficiency]
    answers after [init_cpu_topology], also when discovery failed and the
    table was reset; in particular the ["efficiency"] value of a possible
    CPU, read once [parse_cluster] has succeeded, is still there. *)
Theorem reset_keeps_cpu_efficiency (st : topo_state) :
  (forall cpu,
     arch_get_cpu_efficiency (upd_topology (reset_cpu_topology E) st) cpu
     = arch_get_cpu_efficiency st cpu) /\
  (forall ret st1,
     parse_dt_topology E (upd_topology (reset_cpu_topology E) st)
       = Some (ret, st1) ->
     exists st', init_cpu_topology E st = Some st' /\
                 cpu_efficiency st' = cpu_efficiency st1 /\
                 forall cpu, arch_get_cpu_efficiency st' cpu
                             = arch_get_cpu_efficiency st1 cpu) /\
  (forall map stp cpu cn e,
     of_cpu_map E = Some map ->
     parse_cluster (parse_fuel map) E map 0
       (upd_topology (reset_cpu_topology E) st) = Some (0, stp) ->
     In cpu (for_each_possible_cpu E) ->
     (cpu < length (cpu_efficiency st))%nat ->
     of_get_cpu_node E cpu = Some cn ->
     cn_efficiency cn = Some e ->
     exists st', init_cpu_topology E st = Some st' /\
                 arch_get_cpu_efficiency st' cpu = e).
Proof.
  split; [reflexivity|]. split.
  - intros ret st1 Hparse. unfold init_cpu_topology. rewrite Hparse.
    eexists. split; [reflexivity|].
    destruct (negb (ret =? 0)); split; reflexivity.
  - intros map stp cpu cn e Hmap Hrun Hcpu Hlt Hcn He.
    unfold init_cpu_topology.
    rewrite (parse_dt_topology_map E map _ Hmap), Hrun. simpl.
    destruct (fold_left (parse_dt_check_cpu E) (for_each_possible_cpu E)
                (0, stp)) as [r2 st2] eqn:Hfold.
    eexists. split; [reflexivity|].
    apply parse_cluster_length in Hrun. destruct Hrun as [_ Heff].
    assert (Hgoal : cpu_efficiency st2 !!! cpu = e).
    { eapply parse_dt_check_fold_efficiency; [exact Hcn|exact He|exact Hfold
        | |left; exact Hcpu]. rewrite Heff. exact Hlt. }
    unfold arch_get_cpu_efficiency.
    destruct (negb (r2 =? 0)); exact Hgoal.
Qed.
End InitTheorems.

(** * The worked configurations *)

(** ** Scheduling domains *)

(** On a parent with exactly one group the source and the specification
    agree. *)
Lemma sd_parent_degenerate_one_group {K : kconfig} (nr_node_ids : Z)
    (d p : sched_domain) (g : sched_group) :
  groups p = [g] ->
  (sd_parent_degenerate nr_node_ids d p = 1 <->
   spec_parent_degenerate nr_node_ids d p = true) /\
  parent_pflags nr_node_ids p = spec_p_effective nr_node_ids p.
Proof.
  intros Hg. unfold sd_parent_degenerate, spec_parent_degenerate,
    parent_pflags, spec_p_effective, sched_domain_span.
  rewrite Hg. simpl.
  destruct (negb (sd_degenerate p =? 0)); [tauto|].
  destruct (negb (cpumask_equal (span d) (span p)));
    [split; [split|]; try discriminate; reflexivity|].
  split; [|reflexivity].
  destruct (Z.land (Z.lnot (flags d)) _ =? 0); simpl; split;
    try discriminate; reflexivity.
Qed.

(** C3: with a parent that has two groups, [sd_parent_degenerate] drops
    the parent's [SD_LOAD_BALANCE] and answers 1, where the rule "the
    group flags are cleared exactly when [p.group_count <= 1]" keeps the
    flag and answers false.  The source tests [parent->groups] for
    non-NULL under the comment "Flags needing groups don't count if only 1
    group in parent". *)
Theorem sd_parent_degenerate_two_groups :
  @sd_degenerate mido_config balancing_parent = 0 /\
  @cpumask_equal mido_config (span child_domain) (span balancing_parent)
    = true /\
  length (groups balancing_parent) = 2%nat /\
  @parent_pflags mido_config 1 balancing_parent = 0 /\
  @spec_p_effective mido_config 1 balancing_parent = 0x0001 /\
  @sd_parent_degenerate mido_config 1 child_domain balancing_parent = 1 /\
  @spec_parent_degenerate mido_config 1 child_domain balancing_parent = false.
Proof. repeat split; vm_compute; reflexivity. Qed.

Lemma sd_degenerate_single_cpu_witness :
  @cpumask_weight mido_config (sched_domain_span busy_single_cpu_domain) = 1 /\
  @sd_degenerate mido_config busy_single_cpu_domain = 1.
Proof.
  split; [reflexivity|].
  apply (@sd_degenerate_single_cpu mido_config busy_single_cpu_domain).
  reflexivity.
Defined.

(** The parent spans CPU 0 alone, so it is degenerate, and
    [sd_parent_degenerate] answers 1 although the child spans CPU 1. *)
Lemma sd_parent_degenerate_span_differs_degenerate_parent :
  @cpumask_equal mido_config (sched_domain_span other_cpu_domain)
                 (sched_domain_span single_cpu_parent) = false /\
  @sd_parent_degenerate mido_config 1 other_cpu_domain single_cpu_parent = 1 /\
  @sd_parent_degenerate mido_config 1 other_cpu_domain single_cpu_parent <> 0.
Proof. repeat split; vm_compute; congruence. Qed.

Lemma sd_parent_degenerate_span_differs_witness :
  @sd_degenerate mido_config wake_affine_parent = 0 /\
  @cpumask_equal mido_config (sched_domain_span other_cpu_domain)
                 (sched_domain_span wake_affine_parent) = false /\
  @sd_parent_degenerate mido_config 1 other_cpu_domain wake_affine_parent = 0.
Proof.
  split; [reflexivity|]. split; [reflexivity|].
  apply (@sd_parent_degenerate_span_differs mido_config 1
           other_cpu_domain wake_affine_parent); reflexivity.
Defined.

(** ** Performance domains *)

(** Without the marker the published list is dropped and queued for
    destruction: the state does change. *)
Lemma build_perf_domains_no_asym_drops_published :
  sd_asym_cpucapacity symmetric_env (@cpumask_first mido_config 0xff) = false /\
  rd_pd (@build_perf_domains mido_config symmetric_env 0xff eas_sched_state)
    <> rd_pd eas_sched_state /\
  rcu_callbacks
    (@build_perf_domains mido_config symmetric_env 0xff eas_sched_state)
    = [[little_pd]] /\
  rcu_callbacks
    (@build_perf_domains mido_config symmetric_env 0xff eas_sched_state)
    <> rcu_callbacks eas_sched_state.
Proof. repeat split; vm_compute; congruence. Qed.

Lemma build_perf_domains_no_asym_capacity_witness :
  sd_asym_cpucapacity symmetric_env (@cpumask_first mido_config 0xff) = false /\
  rd_pd (@build_perf_domains mido_config symmetric_env 0xff eas_sched_state)
    = [] /\
  rcu_callbacks
    (@build_perf_domains mido_config symmetric_env 0xff eas_sched_state)
    = [[little_pd]].
Proof.
  split; [reflexivity|].
  destruct (@build_perf_domains_no_asym_capacity mido_config symmetric_env
              0xff eas_sched_state eq_refl) as (Hpd & Hrcu & _).
  split; [exact Hpd|exact Hrcu].
Defined.

Lemma build_perf_domains_complexity_gate_witness :
  sd_asym_cpucapacity eas_env (@cpumask_first mido_config 0xff) = true /\
  @build_traverse mido_config eas_env 0xff idle_sched_state
    = (Some eas_built, []) /\
  em_complexity (b_nr_pd eas_built) (b_nr_cs eas_built)
    (wrap_int (@cpumask_weight mido_config 0xff)) = 290 /\
  rd_pd (@build_perf_domains mido_config eas_env 0xff idle_sched_state)
    = b_pd eas_built.
Proof.
  split; [reflexivity|]. split; [reflexivity|]. split; [reflexivity|].
  destruct (@build_perf_domains_complexity_gate mido_config eas_env 0xff
              idle_sched_state eas_built [] eq_refl eq_refl)
    as (_ & Hle & _).
  apply Hle. vm_compute. discriminate.
Defined.

(** Eight single-CPU domains of 300 capacity states each: the complexity is
    8 * (2400 + 8) = 19264 and the build is refused with a warning. *)
Example build_perf_domains_too_complex :
  let E := {| sd_asym_cpucapacity := fun _ => true;
              cpufreq_cpu_get := fun _ => Some {| governor := schedutil_gov |};
              em_cpu_get := fun cpu =>
                Some {| nr_cap_states := 300;
                        em_cpus := Z.shiftl 1 (Z.of_nat cpu) |};
              kzalloc_ok := fun _ => true;
              sched_debug := false |} in
  @build_perf_domains mido_config E 0xff eas_sched_state
  = {| rd_pd := [];
       rcu_callbacks := [[little_pd]];
       sched_log := [WARN_em_complexity 0xff] |}.
Proof. vm_compute. reflexivity. Qed.

(** ** Sibling masks *)

Lemma siblings_reflexive_symmetric_witness :
  length (cpu_topology boot_state) = @NR_CPUS mido_config /\
  In 1%nat (@for_each_possible_cpu mido_config example_env) /\
  cpumask_test_cpu 1
    (core_sibling
       (@update_all_siblings_masks mido_config example_env
          (@reset_cpu_topology mido_config example_env
             (cpu_topology boot_state)) !!! 1%nat)) = true.
Proof.
  split; [reflexivity|]. split; [vm_compute; auto|].
  destruct (@siblings_reflexive_symmetric mido_config example_env
              (cpu_topology boot_state) eq_refl) as (Hrefl & _).
  apply Hrefl. vm_compute. auto.
Defined.

(** ** Discovery *)

(** Without a [cpu-map], [parse_dt_topology] answers 0 and
    [init_cpu_topology] takes the success branch, yet CPU 0 is left with
    [cluster_id == -1]. *)
Lemma init_cpu_topology_no_map_unpopulated :
  In 0%nat (@for_each_possible_cpu mido_config no_map_env) /\
  (exists st1,
     @parse_dt_topology mido_config no_map_env
       (upd_topology (@reset_cpu_topology mido_config no_map_env) boot_state)
     = Some (0, st1)) /\
  (exists st',
     @init_cpu_topology mido_config no_map_env boot_state = Some st' /\
     sched_topology_set st' = true /\
     cluster_id (cpu_topology st' !!! 0%nat) = -1).
Proof.
  split; [vm_compute; auto|]. split.
  - eexists. vm_compute. reflexivity.
  - eexists. split; [vm_compute; reflexivity|]. split; reflexivity.
Qed.

Lemma example_map_small map :
  @of_cpu_map example_env = Some map -> dt_small map = true.
Proof. intros H. vm_compute in H. injection H as <-. reflexivity. Qed.

Lemma init_cpu_topology_no_partial_table_witness :
  length (cpu_topology boot_state) = @NR_CPUS mido_config /\
  (forall map, of_cpu_map example_env = Some map -> dt_small map = true) /\
  exists st', @init_cpu_topology mido_config example_env boot_state = Some st' /\
    forall cpu, In cpu (@for_each_possible_cpu mido_config example_env) ->
      cluster_id (cpu_topology st' !!! cpu) <> -1.
Proof.
  split; [reflexivity|]. split; [exact example_map_small|].
  destruct (@init_cpu_topology_no_partial_table mido_config example_env
              boot_state eq_refl example_map_small)
    as (ret & st1 & st' & Hparse & Hinit & _ & Hok & _).
  exists st'. split; [exact Hinit|].
  apply Hok.
  - vm_compute in Hparse. congruence.
  - vm_compute. discriminate.
Defined.

(** [thread1_core] has a thread child and a ["cpu"] reference that
    resolves, yet [parse_core] answers 0 and the traversal goes on to
    succeed: the scan for threads stops at the missing [thread0]. *)
Lemma parse_core_thread1_and_cpu_accepted :
  of_get_child_by_name thread1_core "thread1" <> None /\
  dn_cpu thread1_core = Some 100%nat /\
  @cpu_of_node mido_config thread1_env 100 = Some 0%nat /\
  (exists st',
     @parse_core mido_config 2 thread1_env thread1_core 0 0 boot_state
     = Some (0, st')) /\
  (exists st',
     @parse_dt_topology mido_config thread1_env
       (upd_topology (@reset_cpu_topology mido_config thread1_env) boot_state)
     = Some (0, st')).
Proof.
  split; [vm_compute; discriminate|]. split; [reflexivity|].
  split; [reflexivity|]. split; eexists; vm_compute; reflexivity.
Qed.

Lemma ambiguous_core_visited :
  visits_core ambiguous_map 0 ambiguous_core.
Proof.
  apply (visits_core_below ambiguous_map 0 0
           (DeviceNode "cluster0" None [ambiguous_core])).
  - lia.
  - intros j Hj. assert (j = 0%nat) as -> by lia. vm_compute. discriminate.
  - reflexivity.
  - apply (visits_core_here _ _ 0).
    + reflexivity.
    + vm_compute. discriminate.
    + lia.
    + intros j Hj. assert (j = 0%nat) as -> by lia. vm_compute. discriminate.
    + reflexivity.
Defined.

Lemma parse_core_threads_and_cpu_witness :
  of_get_child_by_name ambiguous_core "thread0" <> None /\
  dn_cpu ambiguous_core = Some 100%nat /\
  @cpu_of_node mido_config ambiguous_env 100 = Some 0%nat /\
  (length (dn_child ambiguous_core) < 100)%nat /\
  dt_small ambiguous_map = true /\
  visits_core ambiguous_map 0 ambiguous_core /\
  (exists st' m log,
     @parse_core mido_config 2 ambiguous_env ambiguous_core 0 0 boot_state
       = Some (- EINVAL, st') /\
     topo_log st' = log ++ [m] /\
     (m = err_core_threads_and_cpu (dn_name ambiguous_core) \/
      exists t, m = err_thread_no_cpu t)) /\
  (exists st',
     @parse_cluster mido_config (parse_fuel ambiguous_map) ambiguous_env
       ambiguous_map 0 boot_state = Some (- EINVAL, st')) /\
  (exists st1 st',
     @parse_dt_topology mido_config ambiguous_env
       (upd_topology (@reset_cpu_topology mido_config ambiguous_env)
                     boot_state) = Some (- EINVAL, st1) /\
     @init_cpu_topology mido_config ambiguous_env boot_state = Some st' /\
     cpu_topology st'
     = @reset_cpu_topology mido_config ambiguous_env (cpu_topology st1)).
Proof.
  assert (Ht0 : of_get_child_by_name ambiguous_core "thread0" <> None)
    by (vm_compute; discriminate).
  assert (Hlen : (length (dn_child ambiguous_core) < 100)%nat)
    by (vm_compute; lia).
  split; [exact Ht0|]. split; [reflexivity|]. split; [reflexivity|].
  split; [exact Hlen|]. split; [reflexivity|].
  split; [exact ambiguous_core_visited|].
  destruct (@parse_core_threads_and_cpu mido_config ambiguous_env
              ambiguous_core 100 0 Ht0 eq_refl eq_refl Hlen)
    as (Hcore & Htrav).
  destruct (Htrav ambiguous_map eq_refl ambiguous_core_visited)
    as (Hcluster & Hinit).
  split; [apply Hcore; vm_compute; lia|].
  split; [apply Hcluster|apply Hinit; reflexivity].
Defined.

Lemma reset_keeps_cpu_efficiency_witness :
  @of_cpu_map partial_env = Some partial_map /\
  @parse_cluster mido_config (parse_fuel partial_map) partial_env partial_map 0
    (upd_topology (@reset_cpu_topology mido_config partial_env) boot_state)
    = Some (0, partial_parsed) /\
  In 1%nat (@for_each_possible_cpu mido_config partial_env) /\
  (1 < length (cpu_efficiency boot_state))%nat /\
  of_get_cpu_node partial_env 1
    = Some {| cn_id := 101; cn_efficiency := Some 1001 |} /\
  (exists st1,
     @parse_dt_topology mido_config partial_env
       (upd_topology (@reset_cpu_topology mido_config partial_env) boot_state)
     = Some (- EINVAL, st1)) /\
  (exists st',
     @init_cpu_topology mido_config partial_env boot_state = Some st' /\
     arch_get_cpu_efficiency st' 1 = 1001).
Proof.
  assert (Hin : In 1%nat (@for_each_possible_cpu mido_config partial_env))
    by (vm_compute; auto).
  assert (Hlt : (1 < length (cpu_efficiency boot_state))%nat)
    by (vm_compute; lia).
  split; [reflexivity|]. split; [reflexivity|]. split; [exact Hin|].
  split; [exact Hlt|]. split; [reflexivity|]. split.
  - eexists. vm_compute. reflexivity.
  - destruct (@reset_keeps_cpu_efficiency mido_config partial_env boot_state)
      as (_ & _ & Hread).
    apply (Hread partial_map partial_parsed 1%nat
             {| cn_id := 101; cn_efficiency := Some 1001 |} 1001);
      try reflexivity; assumption.
Defined.

(** * Further properties of the code *)

(** ** Tables with the same contents *)

Lemma cpumask_ext (m m' : cpumask) :
  (forall b : nat, cpumask_test_cpu b m = cpumask_test_cpu b m') -> m = m'.
Proof.
  intros H. apply Z.bits_inj'. intros n Hn.
  specialize (H (Z.to_nat n)). unfold cpumask_test_cpu in H.
  rewrite Z2Nat.id in H by exact Hn. exact H.
Qed.

Lemma bool_eq_of_iff (x y : bool) : (x = true <-> y = true) -> x = y.
Proof. destruct x, y; intuition congruence. Qed.

Lemma cpu_topology_ext (t t' : cpu_topology_t) :
  ids t = ids t' ->
  (forall b, cpumask_test_cpu b (core_sibling t) = true <->
             cpumask_test_cpu b (core_sibling t') = true) ->
  (forall b, cpumask_test_cpu b (thread_sibling t) = true <->
             cpumask_test_cpu b (thread_sibling t') = true) ->
  t = t'.
Proof.
  intros Hi Hc Ht. destruct t as [a1 a2 a3 a4 a5], t' as [b1 b2 b3 b4 b5].
  unfold ids in Hi. simpl in *. injection Hi as -> -> ->.
  assert (a4 = b4) as -> by (apply cpumask_ext; intros b; apply bool_eq_of_iff, Ht).
  assert (a5 = b5) as -> by (apply cpumask_ext; intros b; apply bool_eq_of_iff, Hc).
  reflexivity.
Qed.

Lemma table_ext (tbl tbl' : list cpu_topology_t) :
  length tbl' = length tbl ->
  (forall a, ids (tbl' !!! a) = ids (tbl !!! a)) ->
  (forall a b, cs tbl' a b <-> cs tbl a b) ->
  (forall a b, ts tbl' a b <-> ts tbl a b) ->
  tbl' = tbl.
Proof.
  intros Hlen Hi Hc Ht.
  apply (list_eq_same_length _ _ (length tbl)); [reflexivity|exact Hlen|].
  intros i x y Hlt Hx Hy.
  apply list_lookup_total_correct in Hx, Hy. subst x y.
  apply cpu_topology_ext; [apply Hi|apply Hc|apply Ht].
Qed.

(** Two tables grown from the same one by the same pairs are equal. *)
Lemma masks_grow_unique tbl tbl1 tbl2 Rc Rt Rc' Rt' :
  masks_grow tbl tbl1 Rc Rt -> masks_grow tbl tbl2 Rc' Rt' ->
  (forall a b, cs tbl a b \/ Rc a b <-> cs tbl a b \/ Rc' a b) ->
  (forall a b, ts tbl a b \/ Rt a b <-> ts tbl a b \/ Rt' a b) ->
  tbl1 = tbl2.
Proof.
  intros (Hl1 & Hi1 & Hc1 & Ht1) (Hl2 & Hi2 & Hc2 & Ht2) Hc Ht.
  apply table_ext.
  - congruence.
  - intros a. rewrite Hi1, Hi2. reflexivity.
  - intros a b. rewrite Hc1, Hc2. apply Hc.
  - intros a b. rewrite Ht1, Ht2. apply Ht.
Qed.

Section SiblingAlgebra.
Context {K : kconfig}.
Variable E : topo_env.

Lemma update_siblings_masks_grow (cpuid : nat) tbl :
  length tbl = NR_CPUS -> (cpuid < NR_CPUS)%nat ->
  masks_grow tbl (update_siblings_masks E cpuid tbl)
    (fun a b => same_cluster tbl a b /\
                ((b = cpuid /\ In a (for_each_possible_cpu E)) \/
                 (a = cpuid /\ In b (for_each_possible_cpu E))))
    (fun a b => same_cluster tbl a b /\ same_core tbl a b /\
                ((b = cpuid /\ In a (for_each_possible_cpu E)) \/
                 (a = cpuid /\ In b (for_each_possible_cpu E)))).
Proof.
  intros Hlen Hid. apply update_siblings_fold_grow.
  - lia.
  - intros c Hc. rewrite Hlen. eapply for_each_possible_cpu_lt, Hc.
Qed.

(** X1: what [update_siblings_masks(cpuid)] does to a table of [NR_CPUS]
    entries.  The three ids of every entry and the size of the table are
    kept, no sibling bit is ever cleared, and the bits added are exactly
    these: [cpuid] and each possible CPU of the same cluster become core
    siblings of each other, and thread siblings too when their [core_id]
    is the same as well. *)
Theorem update_siblings_masks_spec (cpuid : nat) (tbl : list cpu_topology_t) :
  length tbl = NR_CPUS -> (cpuid < NR_CPUS)%nat ->
  let tbl' := update_siblings_masks E cpuid tbl in
  length tbl' = length tbl /\
  (forall a,
     thread_id (tbl' !!! a) = thread_id (tbl !!! a) /\
     core_id (tbl' !!! a) = core_id (tbl !!! a) /\
     cluster_id (tbl' !!! a) = cluster_id (tbl !!! a)) /\
  (forall a b : nat,
     cpumask_test_cpu b (core_sibling (tbl' !!! a)) = true <->
     cpumask_test_cpu b (core_sibling (tbl !!! a)) = true \/
     (cluster_id (tbl !!! a) = cluster_id (tbl !!! b) /\
      ((b = cpuid /\ In a (for_each_possible_cpu E)) \/
       (a = cpuid /\ In b (for_each_possible_cpu E))))) /\
  (forall a b : nat,
     cpumask_test_cpu b (thread_sibling (tbl' !!! a)) = true <->
     cpumask_test_cpu b (thread_sibling (tbl !!! a)) = true \/
     (cluster_id (tbl !!! a) = cluster_id (tbl !!! b) /\
      core_id (tbl !!! a) = core_id (tbl !!! b) /\
      ((b = cpuid /\ In a (for_each_possible_cpu E)) \/
       (a = cpuid /\ In b (for_each_possible_cpu E))))).
Proof.
  intros Hlen Hid tbl'.
  pose proof (update_siblings_masks_grow cpuid tbl Hlen Hid) as G.
  fold tbl' in G.
  split; [apply G|]. split; [intros a; eapply masks_grow_ids, G|].
  destruct G as (_ & _ & Hc & Ht). split; [exact Hc|exact Ht].
Qed.

Lemma update_siblings_masks_twice (cpuid : nat)
    (tbl : list cpu_topology_t) :
  length tbl = NR_CPUS -> (cpuid < NR_CPUS)%nat ->
  update_siblings_masks E cpuid (update_siblings_masks E cpuid tbl)
  = update_siblings_masks E cpuid tbl.
Proof.
  intros Hlen Hid.
  pose proof (update_siblings_masks_grow cpuid tbl Hlen Hid) as G1.
  assert (Hlen1 : length (update_siblings_masks E cpuid tbl) = NR_CPUS)
    by (destruct G1 as [-> _]; exact Hlen).
  pose proof (update_siblings_masks_grow cpuid _ Hlen1 Hid) as G2.
  eapply masks_grow_unique;
    [eapply masks_grow_trans; [exact G1|exact G2]
    |eapply masks_grow_ext; [exact G1| |]; intros a b; reflexivity| |].
  - intros a b. simpl.
    rewrite (masks_grow_same_cluster _ _ _ _ a b G1). tauto.
  - intros a b. simpl.
    rewrite (masks_grow_same_cluster _ _ _ _ a b G1),
            (masks_grow_same_core _ _ _ _ a b G1). tauto.
Qed.

Lemma update_siblings_masks_swap (c1 c2 : nat)
    (tbl : list cpu_topology_t) :
  length tbl = NR_CPUS -> (c1 < NR_CPUS)%nat -> (c2 < NR_CPUS)%nat ->
  update_siblings_masks E c1 (update_siblings_masks E c2 tbl)
  = update_siblings_masks E c2 (update_siblings_masks E c1 tbl).
Proof.
  intros Hlen H1 H2.
  pose proof (update_siblings_masks_grow c1 tbl Hlen H1) as G1.
  pose proof (update_siblings_masks_grow c2 tbl Hlen H2) as G2.
  assert (Hl1 : length (update_siblings_masks E c1 tbl) = NR_CPUS)
    by (destruct G1 as [-> _]; exact Hlen).
  assert (Hl2 : length (update_siblings_masks E c2 tbl) = NR_CPUS)
    by (destruct G2 as [-> _]; exact Hlen).
  pose proof (update_siblings_masks_grow c1 _ Hl2 H1) as G21.
  pose proof (update_siblings_masks_grow c2 _ Hl1 H2) as G12.
  eapply masks_grow_unique;
    [eapply masks_grow_trans; [exact G2|exact G21]
    |eapply masks_grow_trans; [exact G1|exact G12]| |].
  - intros a b. simpl.
    rewrite (masks_grow_same_cluster _ _ _ _ a b G1),
            (masks_grow_same_cluster _ _ _ _ a b G2). tauto.
  - intros a b. simpl.
    rewrite (masks_grow_same_cluster _ _ _ _ a b G1),
            (masks_grow_same_cluster _ _ _ _ a b G2),
            (masks_grow_same_core _ _ _ _ a b G1),
            (masks_grow_same_core _ _ _ _ a b G2). tauto.
Qed.
(** X2: [update_siblings_masks] is idempotent: a second call for the same
    CPU changes nothing, however many other CPUs were brought up in
    between. *)
Theorem update_siblings_masks_idempotent (cpuid : nat) (others : list nat)
    (tbl : list cpu_topology_t) :
  length tbl = NR_CPUS -> (cpuid < NR_CPUS)%nat ->
  (forall c, In c others -> (c < NR_CPUS)%nat) ->
  let bring_up := fold_left (fun tbl c => update_siblings_masks E c tbl) in
  update_siblings_masks E cpuid
    (bring_up others (update_siblings_masks E cpuid tbl))
  = bring_up others (update_siblings_masks E cpuid tbl).
Proof.
  intros Hlen Hid Hothers bring_up. subst bring_up.
  revert tbl Hlen.
  induction others as [|c others IH]; intros tbl Hlen; simpl.
  - apply update_siblings_masks_twice; assumption.
  - assert (Hc : (c < NR_CPUS)%nat) by (apply Hothers; left; reflexivity).
    rewrite update_siblings_masks_swap by assumption.
    apply IH.
    + intros x Hx. apply Hothers. right. exact Hx.
    + destruct (update_siblings_masks_grow c tbl Hlen Hc) as [-> _].
      exact Hlen.
Qed.

(** X3: calls of [update_siblings_masks] for two CPUs commute: the order
    in which CPUs come up does not matter. *)
Theorem update_siblings_masks_commute (c1 c2 : nat)
    (tbl : list cpu_topology_t) :
  length tbl = NR_CPUS -> (c1 < NR_CPUS)%nat -> (c2 < NR_CPUS)%nat ->
  update_siblings_masks E c1 (update_siblings_masks E c2 tbl)
  = update_siblings_masks E c2 (update_siblings_masks E c1 tbl).
Proof. apply update_siblings_masks_swap. Qed.

End SiblingAlgebra.

Section SiblingInvariants.
Context {K : kconfig}.
Variable E : topo_env.

(** X4: [update_siblings_masks(cpuid)] keeps the sibling relation
    well-formed as CPUs come up one at a time: if core siblings were
    mutual among the possible CPUs they still are, a CPU whose thread
    siblings were among its core siblings keeps that, and afterwards a
    possible [cpuid] is its own core and thread sibling. *)
Theorem update_siblings_masks_invariants (cpuid : nat)
    (tbl : list cpu_topology_t) :
  length tbl = NR_CPUS -> (cpuid < NR_CPUS)%nat ->
  let tbl' := update_siblings_masks E cpuid tbl in
  let P := for_each_possible_cpu E in
  ((forall a b, In a P -> In b P ->
      cpumask_test_cpu b (core_sibling (tbl !!! a)) = true <->
      cpumask_test_cpu a (core_sibling (tbl !!! b)) = true) ->
   forall a b, In a P -> In b P ->
     cpumask_test_cpu b (core_sibling (tbl' !!! a)) = true <->
     cpumask_test_cpu a (core_sibling (tbl' !!! b)) = true) /\
  (forall a,
     (forall b, cpumask_test_cpu b (thread_sibling (tbl !!! a)) = true ->
                cpumask_test_cpu b (core_sibling (tbl !!! a)) = true) ->
     forall b, cpumask_test_cpu b (thread_sibling (tbl' !!! a)) = true ->
               cpumask_test_cpu b (core_sibling (tbl' !!! a)) = true) /\
  (In cpuid P ->
     cpumask_test_cpu cpuid (core_sibling (tbl' !!! cpuid)) = true /\
     cpumask_test_cpu cpuid (thread_sibling (tbl' !!! cpuid)) = true).
Proof.
  intros Hlen Hid tbl' P.
  destruct (update_siblings_masks_grow E cpuid tbl Hlen Hid)
    as (_ & _ & Hc & Ht).
  fold tbl' in Hc, Ht. unfold cs, ts, same_cluster, same_core in Hc, Ht.
  split; [|split].
  - intros Hsym a b Ha Hb. rewrite !Hc, (Hsym a b Ha Hb).
    fold P. split; intros [?|(Hcl & [[-> ?]|[-> ?]])]; auto 6.
  - intros a Hsub b Hb. apply Ht in Hb. apply Hc.
    destruct Hb as [Hb|(? & _ & ?)]; [left; apply Hsub, Hb|right; auto].
  - intros Hin. split; [apply Hc|apply Ht]; right; auto 6.
Qed.
End SiblingInvariants.

(** ** The parser writes ids only *)

Section ParseWritesIds.
Context {K : kconfig}.
Variable E : topo_env.
Variable P : topo_state -> Prop.
Hypothesis P_pr : forall m st, P st -> P (pr m st).
Hypothesis P_ids :
  forall f (i : nat) st,
    In i (for_each_possible_cpu E) -> keeps_masks f -> P st ->
    P (upd_topology (alter f i) st).

Lemma get_cpu_for_node_possible node st cpu st' :
  get_cpu_for_node E node st = (cpu, st') -> 0 <= cpu ->
  In (Z.to_nat cpu) (for_each_possible_cpu E).
Proof.
  unfold get_cpu_for_node. intros Hrun Hpos.
  destruct (dn_cpu node) as [n|]; [|injection Hrun as <- _; lia].
  destruct (cpu_of_node E n) as [c|] eqn:Hc; injection Hrun as <- _; [|lia].
  rewrite Nat2Z.id. unfold cpu_of_node in Hc. apply find_some in Hc.
  apply Hc.
Qed.
Hypothesis P_static : forall v st, P st -> P (set_static_cluster_id v st).

Lemma parse_core_threads_writes_ids core cluster_id core_id :
  forall fuel i leaf st ret leaf' st',
    P st ->
    parse_core_threads fuel E core cluster_id core_id i leaf st
      = Some (ret, leaf', st') ->
    P st'.
Proof.
  induction fuel as [|fuel IH]; intros i leaf st ret leaf' st' HP Hrun;
    simpl in Hrun; [discriminate|].
  destruct (of_get_child_by_name core (snprintf_d 10 "thread" i)) as [t|].
  2:{ injection Hrun as _ _ <-. exact HP. }
  destruct (get_cpu_for_node E t st) as [cpu st1] eqn:Hg.
  pose proof (get_cpu_for_node_possible _ _ _ _ Hg) as Hposs.
  apply (get_cpu_for_node_preserves E P P_pr) in Hg; [|exact HP].
  destruct (Z.leb_spec 0 cpu) as [Hpos|_].
  - eapply IH; [|exact Hrun]. apply P_ids; [auto| |exact Hg].
    intros e. split; reflexivity.
  - injection Hrun as _ _ <-. auto.
Qed.

Lemma parse_core_writes_ids core cluster_id core_id fuel st ret st' :
  P st -> parse_core fuel E core cluster_id core_id st = Some (ret, st') ->
  P st'.
Proof.
  unfold parse_core. intros HP Hrun.
  destruct (parse_core_threads fuel E core cluster_id core_id 0 true st)
    as [[[r leaf] st1]|] eqn:Hth; [|discriminate].
  apply parse_core_threads_writes_ids in Hth; [|exact HP].
  destruct (negb (r =? 0)); [injection Hrun as _ <-; exact Hth|].
  destruct (get_cpu_for_node E core st1) as [cpu st2] eqn:Hg.
  pose proof (get_cpu_for_node_possible _ _ _ _ Hg) as Hposs.
  apply (get_cpu_for_node_preserves E P P_pr) in Hg; [|exact Hth].
  destruct (Z.leb_spec 0 cpu) as [Hpos|_]; destruct leaf; simpl in Hrun;
    injection Hrun as _ <-; auto.
  apply P_ids; [auto| |exact Hg]. intros e. split; reflexivity.
Qed.

Lemma parse_cluster_cores_writes_ids cluster depth leaf :
  forall fuel i core_id has_cores st ret hc st',
    P st ->
    parse_cluster_cores fuel E cluster depth leaf i core_id has_cores st
      = Some (ret, hc, st') ->
    P st'.
Proof.
  induction fuel as [|fuel IH];
    intros i core_id has_cores st ret hc st' HP Hrun;
    simpl in Hrun; [discriminate|].
  destruct (of_get_child_by_name cluster (snprintf_d 10 "core" i)) as [c|].
  2:{ injection Hrun as _ _ <-. exact HP. }
  destruct (depth =? 0); [injection Hrun as _ _ <-; auto|].
  destruct leaf; [|injection Hrun as _ _ <-; auto].
  destruct (parse_core fuel E c (static_cluster_id st) core_id st)
    as [[r st1]|] eqn:Hc; [|discriminate].
  apply parse_core_writes_ids in Hc; [|exact HP].
  destruct (negb (r =? 0)); [injection Hrun as _ _ <-; exact Hc|eauto].
Qed.

Lemma parse_cluster_writes_ids_both :
  forall fuel,
    (forall cluster depth st ret st',
       P st -> parse_cluster fuel E cluster depth st = Some (ret, st') ->
       P st') /\
    (forall cluster depth i leaf st ret leaf' st',
       P st ->
       parse_cluster_clusters fuel E cluster depth i leaf st
         = Some (ret, leaf', st') ->
       P st').
Proof.
  induction fuel as [|fuel [IHc IHl]].
  - split; intros; discriminate.
  - split.
    + intros cluster depth st ret st' HP Hrun.
      rewrite parse_cluster_unfold in Hrun.
      destruct (parse_cluster_clusters fuel E cluster depth 0 true st)
        as [[[r leaf] st1]|] eqn:Hl; [|discriminate].
      apply IHl in Hl; [|exact HP].
      destruct (negb (r =? 0)); [injection Hrun as _ <-; exact Hl|].
      destruct (parse_cluster_cores fuel E cluster depth leaf 0 0 false st1)
        as [[[r2 hc] st2]|] eqn:Hco; [|discriminate].
      apply parse_cluster_cores_writes_ids in Hco; [|exact Hl].
      destruct (negb (r2 =? 0)); injection Hrun as _ <-; [exact Hco|].
      destruct leaf; simpl; [|exact Hco].
      apply P_static. destruct (negb hc); auto.
    + intros cluster depth i leaf st ret leaf' st' HP Hrun.
      rewrite parse_cluster_clusters_unfold in Hrun.
      destruct (of_get_child_by_name cluster (snprintf_d 10 "cluster" i))
        as [c|]; [|injection Hrun as _ _ <-; exact HP].
      destruct (parse_cluster fuel E c (int_add depth 1) st)
        as [[r1 st1]|] eqn:Hc; [|discriminate].
      apply IHc in Hc; [|exact HP].
      destruct (negb (r1 =? 0)); [injection Hrun as _ _ <-; exact Hc|eauto].
Qed.

Lemma parse_cluster_writes_ids fuel cluster depth st ret st' :
  P st -> parse_cluster fuel E cluster depth st = Some (ret, st') -> P st'.
Proof. apply parse_cluster_writes_ids_both. Qed.
End ParseWritesIds.

Lemma same_masks_alter f (i : nat) st0 st :
  keeps_masks f -> same_masks st0 st ->
  same_masks st0 (upd_topology (alter f i) st).
Proof.
  intros Hf [Hl Hm]. split; simpl.
  - rewrite length_alter. exact Hl.
  - intros a. rewrite list_lookup_total_alter.
    case_decide as Hd; [|apply Hm].
    destruct Hd as [-> _]. destruct (Hf (cpu_topology st !!! a)) as [-> ->].
    apply Hm.
Qed.

Section ParseFrame.
Context {K : kconfig}.
Variable E : topo_env.

Lemma parse_cluster_frame fuel cluster depth st ret st' :
  parse_cluster fuel E cluster depth st = Some (ret, st') ->
  length (cpu_topology st') = length (cpu_topology st) /\
  (forall a,
     thread_sibling (cpu_topology st' !!! a)
       = thread_sibling (cpu_topology st !!! a) /\
     core_sibling (cpu_topology st' !!! a)
       = core_sibling (cpu_topology st !!! a)) /\
  cpu_efficiency st' = cpu_efficiency st /\
  sched_topology_set st' = sched_topology_set st /\
  energy_costs_initialized st' = energy_costs_initialized st.
Proof.
  intros Hrun.
  apply (parse_cluster_writes_ids E
           (fun s => same_masks st s /\
                     cpu_efficiency s = cpu_efficiency st /\
                     sched_topology_set s = sched_topology_set st /\
                     energy_costs_initialized s
                       = energy_costs_initialized st)) in Hrun.
  - destruct Hrun as ([Hl Hm] & He & Hs & Hi). auto.
  - intros m s Hs. exact Hs.
  - intros f i s _ Hf (Hm & He). split; [|exact He].
    apply same_masks_alter; assumption.
  - intros v s Hs. exact Hs.
  - split; [split; auto|auto].
Qed.
End ParseFrame.

Section InitSiblings.
Context {K : kconfig}.
Variable E : topo_env.

Lemma parse_dt_topology_same_masks st ret st' :
  parse_dt_topology E st = Some (ret, st') -> same_masks st st'.
Proof.
  destruct (of_cpu_map E) as [map|] eqn:Hmap.
  - rewrite (parse_dt_topology_map E map st Hmap).
    destruct (parse_cluster (parse_fuel map) E map 0 st)
      as [[r st1]|] eqn:Hp; [|discriminate].
    apply parse_cluster_frame in Hp.
    destruct Hp as (Hl & Hm & _).
    destruct (negb (r =? 0)).
    + intros H. injection H as _ <-. split; assumption.
    + destruct (fold_left _ _ _) as [r2 st2] eqn:Hf.
      apply parse_dt_check_fold in Hf. destruct Hf as (Ht & _).
      intros H. injection H as _ <-. unfold same_masks.
      rewrite Ht. split; assumption.
  - destruct (parse_dt_topology_no_map E st Hmap) as (st1 & -> & Ht & _).
    intros H. injection H as _ <-. unfold same_masks. rewrite Ht.
    split; [reflexivity|intros a; split; reflexivity].
Qed.

(** X5: the device-tree parser writes nothing into the table but the
    three ids of its entries: whatever [parse_dt_topology] returns, also on
    an error deep in the tree, the size of the table and every sibling
    mask are as before, the [cpu_efficiency] array keeps its size, and
    the topology levels are not installed. *)
Theorem parse_dt_topology_writes_only_ids (st : topo_state) ret st' :
  parse_dt_topology E st = Some (ret, st') ->
  length (cpu_topology st') = length (cpu_topology st) /\
  (forall a,
     thread_sibling (cpu_topology st' !!! a)
       = thread_sibling (cpu_topology st !!! a) /\
     core_sibling (cpu_topology st' !!! a)
       = core_sibling (cpu_topology st !!! a)) /\
  length (cpu_efficiency st') = length (cpu_efficiency st) /\
  sched_topology_set st' = sched_topology_set st /\
  energy_costs_initialized st' = energy_costs_initialized st.
Proof.
  intros Hrun.
  destruct (parse_dt_topology_same_masks _ _ _ Hrun) as [Hl Hm].
  split; [exact Hl|]. split; [exact Hm|].
  destruct (of_cpu_map E) as [map|] eqn:Hmap.
  - rewrite (parse_dt_topology_map E map st Hmap) in Hrun.
    destruct (parse_cluster (parse_fuel map) E map 0 st)
      as [[r st1]|] eqn:Hp; [|discriminate].
    apply parse_cluster_frame in Hp.
    destruct Hp as (_ & _ & He & Hs & Hi).
    destruct (negb (r =? 0)).
    + injection Hrun as _ <-. rewrite He. auto.
    + injection Hrun as Hf.
      assert (Hflags : forall l acc,
                sched_topology_set
                  (snd (fold_left (parse_dt_check_cpu E) l acc))
                = sched_topology_set (snd acc) /\
                energy_costs_initialized
                  (snd (fold_left (parse_dt_check_cpu E) l acc))
                = energy_costs_initialized (snd acc)).
      { induction l as [|c l IH]; intros acc; [auto|].
        cbn [fold_left]. destruct (IH (parse_dt_check_cpu E acc c)) as [-> ->].
        destruct acc as [r0 s0]. unfold parse_dt_check_cpu.
        destruct (of_get_cpu_node E c) as [cn|];
          [destruct (cn_efficiency cn)|]; auto. }
      destruct (Hflags (for_each_possible_cpu E) (0, st1)) as [Hfs Hfi].
      rewrite Hf in Hfs, Hfi. simpl in Hfs, Hfi.
      apply parse_dt_check_fold in Hf. destruct Hf as (_ & Hle & _).
      rewrite Hle, He, Hfs, Hfi. auto.
  - destruct (parse_dt_topology_no_map E st Hmap) as (st1 & Hp & _ & He).
    rewrite Hp in Hrun. injection Hrun as _ <-.
    rewrite He. split; [reflexivity|].
    unfold of_cpu_map, parse_dt_topology in *.
    destruct (of_find_cpus E) as [cn|].
    + rewrite Hmap in Hp. injection Hp as <-. auto.
    + injection Hp as <-. auto.
Qed.

(** X6: when discovery returns 0, [init_cpu_topology] leaves sibling masks
    that say exactly who shares what: among the possible CPUs, [c2] is a
    core sibling of [c1] iff both have the same [cluster_id], and a thread
    sibling iff they also have the same [core_id]; no mask of a possible
    CPU names a CPU that is not possible. *)
Theorem init_cpu_topology_siblings (st st1 : topo_state) :
  length (cpu_topology st) = NR_CPUS ->
  parse_dt_topology E (upd_topology (reset_cpu_topology E) st)
    = Some (0, st1) ->
  exists st',
    init_cpu_topology E st = Some st' /\
    let tbl := cpu_topology st' in
    let P := for_each_possible_cpu E in
    (forall c1 c2, In c1 P -> In c2 P ->
       (cpumask_test_cpu c2 (core_sibling (tbl !!! c1)) = true <->
        cluster_id (tbl !!! c1) = cluster_id (tbl !!! c2)) /\
       (cpumask_test_cpu c2 (thread_sibling (tbl !!! c1)) = true <->
        cluster_id (tbl !!! c1) = cluster_id (tbl !!! c2) /\
        core_id (tbl !!! c1) = core_id (tbl !!! c2))) /\
    (forall c1 b, In c1 P ->
       cpumask_test_cpu b (core_sibling (tbl !!! c1)) = true \/
       cpumask_test_cpu b (thread_sibling (tbl !!! c1)) = true ->
       In b P).
Proof.
  intros Hlen Hparse.
  set (st0 := upd_topology (reset_cpu_topology E) st) in *.
  assert (Hlen0 : length (cpu_topology st0) = NR_CPUS)
    by (simpl; rewrite reset_cpu_topology_length; exact Hlen).
  destruct (parse_dt_topology_same_masks _ _ _ Hparse) as [Hl1 Hm1].
  rewrite Hlen0 in Hl1.
  assert (Hsingle : forall a b, In a (for_each_possible_cpu E) ->
            (cs (cpu_topology st1) a b <-> b = a) /\
            (ts (cpu_topology st1) a b <-> b = a)).
  { intros a b Ha. unfold cs, ts. destruct (Hm1 a) as [-> ->].
    simpl. rewrite (reset_cpu_topology_lookup E _ a Hlen Ha). simpl.
    split; apply cpu_topology_default_sibling. }
  exists (init_sched_energy_costs
            (set_sched_topology
               (upd_topology (update_all_siblings_masks E) st1))).
  split; [unfold init_cpu_topology; fold st0; rewrite Hparse; reflexivity|].
  simpl.
  pose proof (update_all_siblings_masks_grow E (cpu_topology st1) Hl1) as G.
  destruct G as (_ & Hi & Hc & Ht).
  assert (Hcl : forall a,
            cluster_id (update_all_siblings_masks E (cpu_topology st1) !!! a)
            = cluster_id (cpu_topology st1 !!! a) /\
            core_id (update_all_siblings_masks E (cpu_topology st1) !!! a)
            = core_id (cpu_topology st1 !!! a)).
  { intros a. specialize (Hi a). unfold ids in Hi.
    injection Hi as _ -> ->. auto. }
  unfold cs, ts, same_cluster, same_core in Hc, Ht, Hsingle.
  split.
  - intros c1 c2 H1 H2.
    destruct (Hcl c1) as [-> ->], (Hcl c2) as [-> ->].
    rewrite Hc, Ht.
    destruct (Hsingle c1 c2 H1) as [-> ->].
    split; split; try tauto.
    + intros [->|?]; tauto.
    + intros [->|?]; tauto.
  - intros c1 b H1 [Hb|Hb]; [apply Hc in Hb|apply Ht in Hb].
    + destruct Hb as [Hb|?]; [|tauto].
      apply (Hsingle c1 b H1) in Hb. subst b. exact H1.
    + destruct Hb as [Hb|?]; [|tauto].
      apply (Hsingle c1 b H1) in Hb. subst b. exact H1.
Qed.
End InitSiblings.

(** ** Topology from the affinity register *)

Lemma alter_fixed {A} `{!Inhabited A} (f : A -> A) (i : nat) (l : list A) :
  f (l !!! i) = l !!! i -> alter f i l = l.
Proof.
  intros Hf. apply list_eq. intros j. rewrite list_lookup_alter.
  case_decide as Hd; [|reflexivity]. subst j.
  destruct (l !! i) as [x|] eqn:Hx; [|reflexivity].
  apply list_lookup_total_correct in Hx. rewrite Hx in Hf.
  simpl. congruence.
Qed.

Lemma ids_set_ids v e : ids (set_ids v e) = v.
Proof. destruct v as [[t c] cl]. reflexivity. Qed.

Lemma set_ids_same e : set_ids (ids e) e = e.
Proof. destruct e. reflexivity. Qed.

Lemma set_ids_keeps_masks v : keeps_masks (set_ids v).
Proof. destruct v as [[t c] cl]. intros e. split; reflexivity. Qed.

Section StoreFacts.
Context {K : kconfig} {M : mpidr_macros}.
Variable E : topo_env.

Lemma update_siblings_masks_wf (cpuid : nat) (tbl : list cpu_topology_t) :
  length tbl = NR_CPUS -> (cpuid < NR_CPUS)%nat ->
  siblings_wf E tbl -> siblings_wf E (update_siblings_masks E cpuid tbl).
Proof.
  intros Hlen Hid [Hsym Hsub].
  destruct (update_siblings_masks_grow E cpuid tbl Hlen Hid)
    as (_ & _ & Hc & Ht).
  unfold cs, ts, same_cluster, same_core in Hc, Ht.
  split.
  - intros a b Ha Hb. rewrite !Hc, (Hsym a b Ha Hb).
    split; intros [?|(Hcl & [[-> ?]|[-> ?]])]; auto 6.
  - intros a b Ha Hb. apply Ht in Hb. apply Hc.
    destruct Hb as [Hb|(? & _ & ?)]; [left; apply Hsub; assumption|right; auto].
Qed.

(** The table on which [store_cpu_topology] recomputes the masks. *)
Lemma alter_set_ids_lookup v (cpuid : nat) (tbl : list cpu_topology_t)
    (a : nat) :
  thread_sibling (alter (set_ids v) cpuid tbl !!! a)
    = thread_sibling (tbl !!! a) /\
  core_sibling (alter (set_ids v) cpuid tbl !!! a)
    = core_sibling (tbl !!! a) /\
  (a <> cpuid -> alter (set_ids v) cpuid tbl !!! a = tbl !!! a).
Proof.
  rewrite list_lookup_total_alter. case_decide as Hd.
  - destruct Hd as [-> _].
    destruct (set_ids_keeps_masks v (tbl !!! a)) as [-> ->].
    split; [reflexivity|]. split; [reflexivity|]. intros H. contradiction.
  - auto.
Qed.

Lemma alter_set_ids_wf v (cpuid : nat) (tbl : list cpu_topology_t) :
  siblings_wf E tbl -> siblings_wf E (alter (set_ids v) cpuid tbl).
Proof.
  intros [Hsym Hsub]. split.
  - intros a b Ha Hb.
    destruct (alter_set_ids_lookup v cpuid tbl a) as (_ & -> & _).
    destruct (alter_set_ids_lookup v cpuid tbl b) as (_ & -> & _).
    apply Hsym; assumption.
  - intros a b Ha.
    destruct (alter_set_ids_lookup v cpuid tbl a) as (-> & -> & _).
    apply Hsub, Ha.
Qed.

Lemma store_cpu_topology_length mpidr (cpuid : nat)
    (tbl : list cpu_topology_t) :
  length tbl = NR_CPUS -> (cpuid < NR_CPUS)%nat ->
  length (store_cpu_topology E mpidr cpuid tbl) = NR_CPUS.
Proof.
  intros Hlen Hid. unfold store_cpu_topology.
  destruct (negb (cluster_id (tbl !!! cpuid) =? -1)).
  - destruct (update_siblings_masks_grow E cpuid tbl Hlen Hid) as [-> _].
    exact Hlen.
  - destruct (negb (Z.land mpidr MPIDR_UP_BITMASK =? 0)); [exact Hlen|].
    assert (Hl : length (alter (set_ids (mpidr_ids mpidr)) cpuid tbl)
                 = NR_CPUS) by (rewrite length_alter; exact Hlen).
    destruct (update_siblings_masks_grow E cpuid _ Hl Hid) as [-> _].
    exact Hl.
Qed.

Lemma store_cpu_topology_wf mpidr (cpuid : nat)
    (tbl : list cpu_topology_t) :
  length tbl = NR_CPUS -> (cpuid < NR_CPUS)%nat ->
  siblings_wf E tbl -> siblings_wf E (store_cpu_topology E mpidr cpuid tbl).
Proof.
  intros Hlen Hid Hwf. unfold store_cpu_topology.
  destruct (negb (cluster_id (tbl !!! cpuid) =? -1)).
  - apply update_siblings_masks_wf; assumption.
  - destruct (negb (Z.land mpidr MPIDR_UP_BITMASK =? 0)); [exact Hwf|].
    apply update_siblings_masks_wf;
      [rewrite length_alter; exact Hlen|exact Hid|].
    apply alter_set_ids_wf, Hwf.
Qed.

Lemma reset_cpu_topology_wf (tbl : list cpu_topology_t) :
  length tbl = NR_CPUS -> siblings_wf E (reset_cpu_topology E tbl).
Proof.
  intros Hlen. split.
  - intros a b Ha Hb.
    rewrite !reset_cpu_topology_lookup by assumption. simpl.
    rewrite !cpu_topology_default_sibling. intuition.
  - intros a b Ha. rewrite !reset_cpu_topology_lookup by assumption.
    simpl. auto.
Qed.

Lemma store_cpu_topology_keeps_bits mpidr (cpuid : nat)
    (tbl : list cpu_topology_t) (a b : nat) :
  length tbl = NR_CPUS -> (cpuid < NR_CPUS)%nat ->
  (cpumask_test_cpu b (core_sibling (tbl !!! a)) = true ->
   cpumask_test_cpu b
     (core_sibling (store_cpu_topology E mpidr cpuid tbl !!! a)) = true) /\
  (cpumask_test_cpu b (thread_sibling (tbl !!! a)) = true ->
   cpumask_test_cpu b
     (thread_sibling (store_cpu_topology E mpidr cpuid tbl !!! a)) = true).
Proof.
  intros Hlen Hid. unfold store_cpu_topology.
  set (tbl1 := alter (set_ids (mpidr_ids mpidr)) cpuid tbl).
  assert (Hl1 : length tbl1 = NR_CPUS)
    by (unfold tbl1; rewrite length_alter; exact Hlen).
  destruct (update_siblings_masks_grow E cpuid tbl Hlen Hid)
    as (_ & _ & Hc & Ht).
  destruct (update_siblings_masks_grow E cpuid tbl1 Hl1 Hid)
    as (_ & _ & Hc1 & Ht1).
  unfold cs, ts in *.
  destruct (negb (cluster_id (tbl !!! cpuid) =? -1)).
  - rewrite Hc, Ht. tauto.
  - destruct (negb (Z.land mpidr MPIDR_UP_BITMASK =? 0)); [tauto|].
    rewrite Hc1, Ht1. unfold tbl1.
    destruct (alter_set_ids_lookup (mpidr_ids mpidr) cpuid tbl a)
      as (-> & -> & _). tauto.
Qed.

Lemma store_cpu_topologies_keeps_bits (ups : list (nat * Z)) (a b : nat) :
  forall tbl : list cpu_topology_t,
    length tbl = NR_CPUS ->
    (forall up, In up ups -> (fst up < NR_CPUS)%nat) ->
    (cpumask_test_cpu b (core_sibling (tbl !!! a)) = true ->
     cpumask_test_cpu b
       (core_sibling (store_cpu_topologies E ups tbl !!! a)) = true) /\
    (cpumask_test_cpu b (thread_sibling (tbl !!! a)) = true ->
     cpumask_test_cpu b
       (thread_sibling (store_cpu_topologies E ups tbl !!! a)) = true).
Proof.
  induction ups as [|[c m] ups IH]; intros tbl Hlen Hlt; simpl; [auto|].
  assert (Hc : (c < NR_CPUS)%nat) by (apply (Hlt (c, m)); left; reflexivity).
  destruct (IH (store_cpu_topology E m c tbl)) as [IHc IHt].
  - apply store_cpu_topology_length; assumption.
  - intros up Hup. apply Hlt. right. exact Hup.
  - destruct (store_cpu_topology_keeps_bits m c tbl a b Hlen Hc) as [H1 H2].
    split; auto.
Qed.

(** X7: [store_cpu_topology] is idempotent: called again for the same CPU
    with the same register value, it leaves the table as the first call
    left it. *)
Theorem store_cpu_topology_idempotent mpidr (cpuid : nat)
    (tbl : list cpu_topology_t) :
  length tbl = NR_CPUS -> (cpuid < NR_CPUS)%nat ->
  store_cpu_topology E mpidr cpuid (store_cpu_topology E mpidr cpuid tbl)
  = store_cpu_topology E mpidr cpuid tbl.
Proof.
  intros Hlen Hid. unfold store_cpu_topology at 2 3.
  destruct (Z.eqb_spec (cluster_id (tbl !!! cpuid)) (-1)) as [Hun|Hpop];
    simpl.
  - destruct (Z.eqb_spec (Z.land mpidr MPIDR_UP_BITMASK) 0) as [Hmp|Hup];
      simpl.
    + set (tbl1 := alter (set_ids (mpidr_ids mpidr)) cpuid tbl).
      assert (Hl1 : length tbl1 = NR_CPUS)
        by (unfold tbl1; rewrite length_alter; exact Hlen).
      pose proof (update_siblings_masks_grow E cpuid tbl1 Hl1 Hid) as G.
      set (tbl2 := update_siblings_masks E cpuid tbl1) in *.
      assert (Hids : ids (tbl2 !!! cpuid) = mpidr_ids mpidr).
      { destruct G as (_ & -> & _). unfold tbl1.
        rewrite list_lookup_total_alter_eq by lia. apply ids_set_ids. }
      assert (Hl2 : length tbl2 = NR_CPUS) by (destruct G as [-> _]; exact Hl1).
      unfold store_cpu_topology.
      destruct (negb (cluster_id (tbl2 !!! cpuid) =? -1)).
      * apply update_siblings_masks_twice; assumption.
      * destruct (Z.eqb_spec (Z.land mpidr MPIDR_UP_BITMASK) 0) as [_|?];
          [|contradiction]. simpl.
        rewrite alter_fixed
          by (rewrite <- Hids; apply set_ids_same).
        apply update_siblings_masks_twice; assumption.
    + unfold store_cpu_topology.
      destruct (Z.eqb_spec (cluster_id (tbl !!! cpuid)) (-1)) as [_|?];
        [|contradiction]. simpl.
      destruct (Z.eqb_spec (Z.land mpidr MPIDR_UP_BITMASK) 0) as [?|_];
        [contradiction|]. reflexivity.
  - pose proof (update_siblings_masks_grow E cpuid tbl Hlen Hid) as G.
    unfold store_cpu_topology.
    destruct (masks_grow_ids _ _ _ _ cpuid G) as (_ & _ & ->).
    destruct (Z.eqb_spec (cluster_id (tbl !!! cpuid)) (-1)) as [?|_];
      [contradiction|]. simpl.
    apply update_siblings_masks_twice; assumption.
Qed.

(** X8: [store_cpu_topology] never overwrites what discovery found and
    never touches another CPU's ids: the ids of every CPU other than
    [cpuid] are kept, those of [cpuid] are kept too when its [cluster_id]
    is not -1, and otherwise become the ones read from the register unless
    the register says "uniprocessor", in which case the whole table is left
    as it is.  No sibling bit is ever cleared. *)
Theorem store_cpu_topology_ids mpidr (cpuid : nat)
    (tbl : list cpu_topology_t) :
  length tbl = NR_CPUS -> (cpuid < NR_CPUS)%nat ->
  let tbl' := store_cpu_topology E mpidr cpuid tbl in
  (forall a, a <> cpuid -> ids (tbl' !!! a) = ids (tbl !!! a)) /\
  (cluster_id (tbl !!! cpuid) <> -1 ->
     ids (tbl' !!! cpuid) = ids (tbl !!! cpuid)) /\
  (cluster_id (tbl !!! cpuid) = -1 ->
     Z.land mpidr MPIDR_UP_BITMASK <> 0 -> tbl' = tbl) /\
  (cluster_id (tbl !!! cpuid) = -1 ->
     Z.land mpidr MPIDR_UP_BITMASK = 0 ->
     ids (tbl' !!! cpuid) = mpidr_ids mpidr) /\
  (forall a b,
     (cpumask_test_cpu b (core_sibling (tbl !!! a)) = true ->
      cpumask_test_cpu b (core_sibling (tbl' !!! a)) = true) /\
     (cpumask_test_cpu b (thread_sibling (tbl !!! a)) = true ->
      cpumask_test_cpu b (thread_sibling (tbl' !!! a)) = true)).
Proof.
  intros Hlen Hid tbl'. subst tbl'. unfold store_cpu_topology.
  set (tbl1 := alter (set_ids (mpidr_ids mpidr)) cpuid tbl).
  assert (Hl1 : length tbl1 = NR_CPUS)
    by (unfold tbl1; rewrite length_alter; exact Hlen).
  pose proof (update_siblings_masks_grow E cpuid tbl Hlen Hid) as G.
  pose proof (update_siblings_masks_grow E cpuid tbl1 Hl1 Hid) as G1.
  destruct G as (_ & Hi & Hc & Ht). destruct G1 as (_ & Hi1 & Hc1 & Ht1).
  unfold cs, ts in *.
  destruct (Z.eqb_spec (cluster_id (tbl !!! cpuid)) (-1)) as [Hun|Hpop];
    simpl.
  - destruct (Z.eqb_spec (Z.land mpidr MPIDR_UP_BITMASK) 0) as [Hmp|Hup];
      simpl.
    + split; [|split; [|split; [|split]]].
      * intros a Ha. rewrite Hi1. unfold tbl1.
        destruct (alter_set_ids_lookup (mpidr_ids mpidr) cpuid tbl a)
          as (_ & _ & ->); auto.
      * intros H. contradiction.
      * intros _ H. contradiction.
      * intros _ _. rewrite Hi1. unfold tbl1.
        rewrite list_lookup_total_alter_eq by lia. apply ids_set_ids.
      * intros a b. rewrite Hc1, Ht1. unfold tbl1.
        destruct (alter_set_ids_lookup (mpidr_ids mpidr) cpuid tbl a)
          as (-> & -> & _). tauto.
    + split; [|split; [|split; [|split]]]; auto; try contradiction.
  - split; [|split; [|split; [|split]]]; try contradiction.
    + intros a _. apply Hi.
    + intros _. apply Hi.
    + intros a b. rewrite Hc, Ht. tauto.
Qed.

Lemma store_cpu_topologies_wf (ups : list (nat * Z)) :
  forall tbl,
    length tbl = NR_CPUS ->
    (forall up, In up ups -> (fst up < NR_CPUS)%nat) ->
    siblings_wf E tbl ->
    length (store_cpu_topologies E ups tbl) = NR_CPUS /\
    siblings_wf E (store_cpu_topologies E ups tbl).
Proof.
  induction ups as [|[c m] ups IH]; intros tbl Hlen Hlt Hwf; simpl.
  - auto.
  - apply IH.
    + apply store_cpu_topology_length; [exact Hlen|].
      apply (Hlt (c, m)). left. reflexivity.
    + intros up Hup. apply Hlt. right. exact Hup.
    + apply store_cpu_topology_wf; [exact Hlen| |exact Hwf].
      apply (Hlt (c, m)). left. reflexivity.
Qed.

(** X9: the sibling masks stay well-formed while CPUs come up one after
    the other.  Starting from the reset table, after any sequence of
    [store_cpu_topology] calls, whatever the register values, core
    siblings are mutual among the possible CPUs and the thread siblings of
    a possible CPU are among its core siblings. *)
Theorem store_cpu_topologies_siblings (ups : list (nat * Z))
    (tbl : list cpu_topology_t) :
  length tbl = NR_CPUS ->
  (forall up, In up ups -> (fst up < NR_CPUS)%nat) ->
  let tbl' := store_cpu_topologies E ups (reset_cpu_topology E tbl) in
  (forall a b, In a (for_each_possible_cpu E) ->
               In b (for_each_possible_cpu E) ->
     cpumask_test_cpu b (core_sibling (tbl' !!! a)) = true <->
     cpumask_test_cpu a (core_sibling (tbl' !!! b)) = true) /\
  (forall a b, In a (for_each_possible_cpu E) ->
     cpumask_test_cpu b (thread_sibling (tbl' !!! a)) = true ->
     cpumask_test_cpu b (core_sibling (tbl' !!! a)) = true) /\
  (forall a, In a (for_each_possible_cpu E) ->
     cpumask_test_cpu a (core_sibling (tbl' !!! a)) = true /\
     cpumask_test_cpu a (thread_sibling (tbl' !!! a)) = true).
Proof.
  intros Hlen Hlt tbl'.
  destruct (store_cpu_topologies_wf ups (reset_cpu_topology E tbl))
    as [_ [Hsym Hsub]].
  - rewrite reset_cpu_topology_length. exact Hlen.
  - exact Hlt.
  - apply reset_cpu_topology_wf, Hlen.
  - fold tbl' in Hsym, Hsub. split; [exact Hsym|]. split; [exact Hsub|].
    intros a Ha.
    destruct (store_cpu_topologies_keeps_bits ups a a
                (reset_cpu_topology E tbl)) as [Hc Ht].
    + rewrite reset_cpu_topology_length. exact Hlen.
    + exact Hlt.
    + fold tbl' in Hc, Ht.
      rewrite reset_cpu_topology_lookup in Hc, Ht by assumption.
      simpl in Hc, Ht.
      split; [apply Hc|apply Ht]; apply cpu_topology_default_sibling;
        reflexivity.
Qed.
End StoreFacts.

(** ** Discovery: what the parser refuses *)

Section ParseEdges.
Context {K : kconfig}.
Variable E : topo_env.

(** X10: [get_cpu_for_node] answers -1 or the number of a possible CPU,
    below [NR_CPUS], whose device-tree node is the one the ["cpu"]
    reference names; it answers -1 exactly when the reference is missing
    or names no possible CPU, and it changes nothing but the log. *)
Theorem get_cpu_for_node_spec (node : device_node) (st : topo_state) :
  let cpu := fst (get_cpu_for_node E node st) in
  let st' := snd (get_cpu_for_node E node st) in
  (cpu = -1 \/
   exists (c : nat) cn,
     cpu = Z.of_nat c /\ In c (for_each_possible_cpu E) /\
     (c < NR_CPUS)%nat /\
     of_get_cpu_node E c = Some cn /\ dn_cpu node = Some (cn_id cn)) /\
  (cpu = -1 <-> unresolved E node) /\
  cpu_topology st' = cpu_topology st /\
  cpu_efficiency st' = cpu_efficiency st /\
  static_cluster_id st' = static_cluster_id st /\
  (dn_cpu node = None -> st' = st).
Proof.
  unfold get_cpu_for_node, unresolved.
  destruct (dn_cpu node) as [n|]; simpl.
  2:{ intuition. }
  destruct (cpu_of_node E n) as [c|] eqn:Hc; simpl.
  - unfold cpu_of_node in Hc. apply find_some in Hc.
    destruct Hc as [Hin Hmatch].
    destruct (of_get_cpu_node E c) as [cn|] eqn:Hcn; [|discriminate].
    apply Nat.eqb_eq in Hmatch. subst n.
    split; [|split; [|intuition discriminate]].
    + right. exists c, cn. repeat split; auto.
      eapply for_each_possible_cpu_lt, Hin.
    + split; [lia|discriminate].
  - intuition discriminate.
Qed.

Lemma get_cpu_for_node_table node st :
  cpu_topology (snd (get_cpu_for_node E node st)) = cpu_topology st.
Proof.
  unfold get_cpu_for_node. destruct (dn_cpu node) as [n|]; [|reflexivity].
  destruct (cpu_of_node E n); reflexivity.
Qed.

Lemma get_cpu_for_node_unresolved node st :
  unresolved E node -> fst (get_cpu_for_node E node st) = -1.
Proof.
  unfold unresolved, get_cpu_for_node.
  destruct (dn_cpu node) as [n|]; [intros ->|]; reflexivity.
Qed.

(** *** Cores in the wrong place *)

Lemma parse_cluster_clusters_false cluster depth :
  forall fuel i st ret leaf' st',
    parse_cluster_clusters fuel E cluster depth i false st
      = Some (ret, leaf', st') ->
    leaf' = false.
Proof.
  induction fuel as [|fuel IH]; intros i st ret leaf' st' Hrun;
    [discriminate|].
  rewrite parse_cluster_clusters_unfold in Hrun.
  destruct (of_get_child_by_name cluster (snprintf_d 10 "cluster" i)) as [c|].
  - destruct (parse_cluster fuel E c (int_add depth 1) st)
      as [[r st1]|]; [|discriminate].
    destruct (negb (r =? 0)); [injection Hrun as _ <- _; reflexivity|eauto].
  - injection Hrun as _ <- _. reflexivity.
Qed.

Lemma parse_cluster_clusters_not_leaf cluster depth fuel leaf st ret leaf' st' :
  of_get_child_by_name cluster (snprintf_d 10 "cluster" 0) <> None ->
  parse_cluster_clusters fuel E cluster depth 0 leaf st
    = Some (ret, leaf', st') ->
  leaf' = false.
Proof.
  intros Hc Hrun. destruct fuel as [|fuel]; [discriminate|].
  rewrite parse_cluster_clusters_unfold in Hrun.
  destruct (of_get_child_by_name cluster (snprintf_d 10 "cluster" 0)) as [c|];
    [|contradiction].
  destruct (parse_cluster fuel E c (int_add depth 1) st)
    as [[r st1]|]; [|discriminate].
  destruct (negb (r =? 0)); [injection Hrun as _ <- _; reflexivity|].
  eapply parse_cluster_clusters_false, Hrun.
Qed.

(** X11: a [core0] node directly under the [cpu-map] (depth 0), or under a
    cluster that also has a [cluster0] child, is always refused:
    [parse_cluster] returns [-EINVAL]. *)
Theorem parse_cluster_misplaced_core (cluster : device_node) (depth : Z) :
  dt_small cluster = true ->
  of_get_child_by_name cluster "core0" <> None ->
  depth = 0 \/ of_get_child_by_name cluster "cluster0" <> None ->
  forall fuel st,
    (2 * node_size cluster <= fuel)%nat ->
    exists st', parse_cluster fuel E cluster depth st = Some (- EINVAL, st').
Proof.
  intros Hsmall Hcore Hwhere fuel st Hfuel.
  change "core0"%string with (snprintf_d 10 "core" 0) in Hcore.
  change "cluster0"%string with (snprintf_d 10 "cluster" 0) in Hwhere.
  destruct (parse_cluster_total E cluster Hsmall fuel depth st Hfuel)
    as ([r st'] & Hrun).
  destruct (parse_cluster_ret E _ _ _ _ _ _ Hrun) as [->| ->]; [|eauto].
  exfalso. destruct fuel as [|fuel]; [discriminate|].
  rewrite parse_cluster_unfold in Hrun.
  destruct (parse_cluster_clusters fuel E cluster depth 0 true st)
    as [[[r leaf] st1]|] eqn:Hl; [|discriminate].
  destruct (Z.eqb_spec r 0) as [->|Hr]; simpl in Hrun;
    [|injection Hrun as -> _; contradiction].
  destruct (parse_cluster_cores fuel E cluster depth leaf 0 0 false st1)
    as [[[r2 hc] st2]|] eqn:Hco; [|discriminate].
  destruct (Z.eqb_spec r2 0) as [->|Hr2]; simpl in Hrun;
    [|injection Hrun as -> _; contradiction].
  destruct fuel as [|fuel]; [discriminate|]. simpl in Hco.
  destruct (of_get_child_by_name cluster (snprintf_d 10 "core" 0)) as [c|];
    [|contradiction].
  destruct (Z.eqb_spec depth 0) as [Hd|Hd]; [discriminate|].
  destruct Hwhere as [?|Hcl]; [contradiction|].
  rewrite (parse_cluster_clusters_not_leaf _ _ _ _ _ _ _ _ Hcl Hl) in Hco.
  discriminate.
Qed.

(** X12: an empty leaf cluster (no [cluster0], no [core0]) is not an
    error: [parse_cluster] returns 0, logs the warning, moves the running
    [cluster_id] on by one and touches nothing else. *)
Theorem parse_cluster_empty_cluster (cluster : device_node) (depth : Z)
    (fuel : nat) (st : topo_state) :
  of_get_child_by_name cluster "cluster0" = None ->
  of_get_child_by_name cluster "core0" = None ->
  (2 <= fuel)%nat ->
  parse_cluster fuel E cluster depth st
  = Some (0, set_static_cluster_id (int_add (static_cluster_id st) 1)
               (pr (warn_empty_cluster (dn_name cluster)) st)).
Proof.
  intros Hcl Hco Hfuel.
  change "core0"%string with (snprintf_d 10 "core" 0) in Hco.
  change "cluster0"%string with (snprintf_d 10 "cluster" 0) in Hcl.
  destruct fuel as [|[|fuel]]; [lia|lia|].
  rewrite parse_cluster_unfold, parse_cluster_clusters_unfold, Hcl.
  simpl. rewrite Hco. reflexivity.
Qed.

(** *** References that do not resolve *)

Lemma parse_core_leaf_unresolved core cluster_id core_id fuel st ret st' :
  of_get_child_by_name core (snprintf_d 10 "thread" 0) = None ->
  unresolved E core ->
  parse_core fuel E core cluster_id core_id st = Some (ret, st') ->
  ret = - EINVAL /\ cpu_topology st' = cpu_topology st.
Proof.
  intros Ht Hun Hrun. unfold parse_core in Hrun.
  destruct fuel as [|fuel]; [discriminate|]. simpl in Hrun.
  rewrite Ht in Hrun. simpl in Hrun.
  pose proof (get_cpu_for_node_unresolved core st Hun) as Hcpu.
  pose proof (get_cpu_for_node_table core st) as Htbl.
  destruct (get_cpu_for_node E core st) as [cpu st1]. simpl in *. subst cpu.
  simpl in Hrun. injection Hrun as <- <-. split; [reflexivity|exact Htbl].
Qed.

Lemma parse_core_threads_unresolved core cluster_id core_id (k : nat) t :
  (k < 100)%nat ->
  of_get_child_by_name core (snprintf_d 10 "thread" (Z.of_nat k)) = Some t ->
  unresolved E t ->
  forall fuel (i : nat) leaf st ret leaf' st',
    (i <= k)%nat ->
    (forall j : nat, (i <= j <= k)%nat ->
       of_get_child_by_name core (snprintf_d 10 "thread" (Z.of_nat j))
       <> None) ->
    parse_core_threads fuel E core cluster_id core_id (Z.of_nat i) leaf st
      = Some (ret, leaf', st') ->
    ret = - EINVAL.
Proof.
  intros Hk Ht Hun.
  induction fuel as [|fuel IH]; intros i leaf st ret leaf' st' Hi Hrun Hres;
    simpl in Hres; [discriminate|].
  destruct (of_get_child_by_name core (snprintf_d 10 "thread" (Z.of_nat i)))
    as [ti|] eqn:Hti.
  2:{ exfalso. apply (Hrun i); [lia|exact Hti]. }
  destruct (Nat.eq_dec i k) as [->|Hne].
  - rewrite Ht in Hti. injection Hti as <-.
    pose proof (get_cpu_for_node_unresolved t st Hun) as Hcpu.
    destruct (get_cpu_for_node E t st) as [cpu st1]. simpl in Hcpu.
    subst cpu. simpl in Hres. injection Hres as <- _ _. reflexivity.
  - destruct (get_cpu_for_node E ti st) as [cpu st1].
    destruct (0 <=? cpu); [|injection Hres as <- _ _; reflexivity].
    rewrite int_add_succ in Hres by lia.
    eapply IH; [| |exact Hres]; [lia|]. intros j Hj. apply Hrun. lia.
Qed.

(** A visited core on which [parse_core] cannot succeed stops the
    traversal. *)
Lemma parse_cluster_fails_at_core map depth core :
  dt_small map = true ->
  visits_core map depth core ->
  (forall fuel cluster_id core_id st st',
     parse_core fuel E core cluster_id core_id st <> Some (0, st')) ->
  forall fuel st,
    (2 * node_size map <= fuel)%nat ->
    exists st', parse_cluster fuel E map depth st = Some (- EINVAL, st').
Proof.
  intros Hsmall Hvis Hbad fuel st Hfuel.
  destruct (parse_cluster_total E map Hsmall fuel depth st Hfuel)
    as ([r st'] & Hrun).
  destruct (parse_cluster_ret E _ _ _ _ _ _ Hrun) as [->| ->]; [|eauto].
  exfalso.
  destruct (parse_cluster_ok_visits E map depth core Hvis _ _ _ Hrun)
    as (fuel' & cid & coreid & st0 & st1 & Hcore).
  exact (Hbad _ _ _ _ _ Hcore).
Qed.

(** X13: a reference that does not resolve to a possible CPU is an error
    wherever the traversal meets it.  If a core it visits has no [thread0]
    and no resolvable ["cpu"] reference of its own, or has a run of
    threads [thread0 .. threadk] the last of which does not resolve, then
    [parse_cluster] returns [-EINVAL] and so does [parse_dt_topology]. *)
Theorem parse_cluster_unresolved_reference (map core : device_node) :
  dt_small map = true ->
  visits_core map 0 core ->
  (of_get_child_by_name core "thread0" = None /\ unresolved E core) \/
  (exists (k : nat) t,
     (k < 100)%nat /\
     (forall j : nat, (j <= k)%nat ->
        of_get_child_by_name core (snprintf_d 10 "thread" (Z.of_nat j))
        <> None) /\
     of_get_child_by_name core (snprintf_d 10 "thread" (Z.of_nat k))
       = Some t /\
     unresolved E t) ->
  (forall st, exists st',
     parse_cluster (parse_fuel map) E map 0 st = Some (- EINVAL, st')) /\
  (of_cpu_map E = Some map ->
   forall st, exists st',
     parse_dt_topology E st = Some (- EINVAL, st')).
Proof.
  intros Hsmall Hvis Hbad.
  assert (Hcluster : forall st, exists st',
            parse_cluster (parse_fuel map) E map 0 st
            = Some (- EINVAL, st')).
  { intros st. apply (parse_cluster_fails_at_core map 0 core Hsmall Hvis);
      [|unfold parse_fuel; lia].
    intros fuel cid coreid st0 st1 Hrun.
    destruct Hbad as [[Ht Hun]|(k & t & Hk & Hrunk & Ht & Hun)].
    - change "thread0"%string with (snprintf_d 10 "thread" 0) in Ht.
      destruct (parse_core_leaf_unresolved _ _ _ _ _ _ _ Ht Hun Hrun).
      discriminate.
    - unfold parse_core in Hrun.
      destruct (parse_core_threads fuel E core cid coreid 0 true st0)
        as [[[r leaf] st2]|] eqn:Hth; [|discriminate].
      apply (parse_core_threads_unresolved core cid coreid k t Hk Ht Hun
               fuel 0%nat) in Hth.
      + subst r. simpl in Hrun. discriminate.
      + lia.
      + intros j Hj. apply Hrunk. lia. }
  split; [exact Hcluster|].
  intros Hmap st. destruct (Hcluster st) as (st' & Hrun).
  exists st'. rewrite (parse_dt_topology_map E map st Hmap), Hrun.
  reflexivity.
Qed.

(** *** Every possible CPU must be described *)

Lemma parse_dt_check_fold_ok (l : list nat) :
  forall st,
    (forall c, In c l -> cluster_id (cpu_topology st !!! c) <> -1) ->
    fst (fold_left (parse_dt_check_cpu E) l (0, st)) = 0.
Proof.
  induction l as [|c l IH]; intros st Hall; cbn [fold_left]; [reflexivity|].
  assert (Hstep : exists st1, parse_dt_check_cpu E (0, st) c = (0, st1) /\
                    cpu_topology st1 = cpu_topology st).
  { unfold parse_dt_check_cpu.
    destruct (Z.eqb_spec (cluster_id (cpu_topology st !!! c)) (-1)) as [H|_].
    - exfalso. apply (Hall c); [left; reflexivity|exact H].
    - destruct (of_get_cpu_node E c) as [cn|];
        [destruct (cn_efficiency cn)|]; eauto. }
  destruct Hstep as (st1 & -> & Htbl). apply IH.
  intros x Hx. rewrite Htbl. apply Hall. right. exact Hx.
Qed.

(** X14: once the traversal of the [cpu-map] has succeeded,
    [parse_dt_topology] returns 0 exactly when no possible CPU is left
    with [cluster_id == -1], and [-EINVAL] otherwise; the table is the one
    the traversal left either way. *)
Theorem parse_dt_topology_all_cpus (map : device_node) (st stp : topo_state) :
  of_cpu_map E = Some map ->
  parse_cluster (parse_fuel map) E map 0 st = Some (0, stp) ->
  exists ret st',
    parse_dt_topology E st = Some (ret, st') /\
    (ret = 0 <->
     forall c, In c (for_each_possible_cpu E) ->
       cluster_id (cpu_topology stp !!! c) <> -1) /\
    (ret <> 0 -> ret = - EINVAL) /\
    cpu_topology st' = cpu_topology stp.
Proof.
  intros Hmap Hrun.
  rewrite (parse_dt_topology_map E map st Hmap), Hrun. simpl.
  destruct (fold_left (parse_dt_check_cpu E) (for_each_possible_cpu E)
              (0, stp)) as [r st'] eqn:Hf.
  exists r, st'. split; [reflexivity|].
  pose proof (parse_dt_check_fold_ok (for_each_possible_cpu E) stp) as Hok.
  rewrite Hf in Hok. simpl in Hok.
  apply parse_dt_check_fold in Hf.
  destruct Hf as (Htbl & _ & Hcode & Hall).
  split; [|split; [|exact Htbl]].
  - split; [intros Hr; apply (Hall Hr)|exact Hok].
  - intros Hr. destruct Hcode as [?|[?|?]]; [contradiction|assumption|].
    contradiction.
Qed.
End ParseEdges.

(** ** Discovery: what the parser writes *)

Section ParseWrites.
Context {K : kconfig}.
Variable E : topo_env.

(** X15: a core without [thread0] whose ["cpu"] reference resolves to CPU
    [c] is accepted: [parse_core] returns 0 and stores the cluster and core
    ids in entry [c], which is within the table; the [thread_id] and the
    sibling masks of [c] and every other entry are left as they were. *)
Theorem parse_core_leaf (core : device_node) (n c : nat)
    (cluster core_ : Z) (fuel : nat) (st : topo_state) :
  of_get_child_by_name core "thread0" = None ->
  dn_cpu core = Some n ->
  cpu_of_node E n = Some c ->
  length (cpu_topology st) = NR_CPUS ->
  (1 <= fuel)%nat ->
  exists st',
    parse_core fuel E core cluster core_ st = Some (0, st') /\
    (c < NR_CPUS)%nat /\
    cluster_id (cpu_topology st' !!! c) = cluster /\
    core_id (cpu_topology st' !!! c) = core_ /\
    thread_id (cpu_topology st' !!! c) = thread_id (cpu_topology st !!! c) /\
    thread_sibling (cpu_topology st' !!! c)
      = thread_sibling (cpu_topology st !!! c) /\
    core_sibling (cpu_topology st' !!! c)
      = core_sibling (cpu_topology st !!! c) /\
    (forall a, a <> c -> cpu_topology st' !!! a = cpu_topology st !!! a) /\
    topo_log st' = topo_log st.
Proof.
  intros Ht Hn Hc Hlen Hfuel.
  change "thread0"%string with (snprintf_d 10 "thread" 0) in Ht.
  assert (Hlt : (c < NR_CPUS)%nat).
  { unfold cpu_of_node in Hc. apply find_some in Hc.
    eapply for_each_possible_cpu_lt, Hc. }
  destruct fuel as [|fuel]; [lia|].
  unfold parse_core. simpl. rewrite Ht. simpl.
  rewrite (get_cpu_for_node_resolved E core n c st Hn Hc).
  destruct (Z.leb_spec 0 (Z.of_nat c)); [|lia]. simpl.
  eexists. split; [reflexivity|]. simpl. rewrite Nat2Z.id.
  split; [exact Hlt|].
  rewrite list_lookup_total_alter_eq by lia. simpl.
  repeat split; try reflexivity.
  intros a Ha. apply list_lookup_total_alter_ne. auto.
Qed.

Lemma parse_core_threads_resolved core cluster core_ (cpu_at : nat -> nat)
    (g : nat) :
  (g < 100)%nat ->
  (forall j, (j < g)%nat ->
     exists t n,
       of_get_child_by_name core (snprintf_d 10 "thread" (Z.of_nat j))
         = Some t /\
       dn_cpu t = Some n /\ cpu_of_node E n = Some (cpu_at j)) ->
  of_get_child_by_name core (snprintf_d 10 "thread" (Z.of_nat g)) = None ->
  forall fuel (i : nat) leaf st,
    (i <= g)%nat -> (g < fuel + i)%nat ->
    parse_core_threads fuel E core cluster core_ (Z.of_nat i) leaf st
    = Some (0, if (i <? g)%nat then false else leaf,
            upd_topology (threads_stored cpu_at cluster core_ i g) st).
Proof.
  intros Hg Hthreads Hgap.
  induction fuel as [|fuel IH]; intros i leaf st Hi Hfuel; [lia|].
  simpl. destruct (Nat.eq_dec i g) as [->|Hne].
  - rewrite Hgap. rewrite Nat.ltb_irrefl.
    unfold threads_stored. rewrite Nat.sub_diag. simpl.
    destruct st; reflexivity.
  - destruct (Hthreads i ltac:(lia)) as (t & n & -> & Hn & Hc).
    rewrite (get_cpu_for_node_resolved E t n (cpu_at i) st Hn Hc).
    destruct (Z.leb_spec 0 (Z.of_nat (cpu_at i))); [|lia].
    rewrite int_add_succ by lia. rewrite IH by lia.
    destruct (Nat.ltb_spec i g); [|lia].
    f_equal. f_equal.
    + destruct (S i <? g)%nat; reflexivity.
    + unfold threads_stored.
      replace (g - i)%nat with (S (g - S i)) by lia.
      simpl. rewrite Nat2Z.id. reflexivity.
Qed.

Lemma threads_stored_length cpu_at cluster core_ (g : nat) :
  forall (k i : nat) (tbl : list cpu_topology_t),
    (g - i = k)%nat ->
    length (threads_stored cpu_at cluster core_ i g tbl) = length tbl.
Proof.
  unfold threads_stored.
  induction k as [|k IH]; intros i tbl Hk; rewrite Hk; simpl; [reflexivity|].
  specialize (IH (S i)
                (alter (fun e => set_thread_id (Z.of_nat i)
                          (set_core_id core_ (set_cluster_id cluster e)))
                       (cpu_at i) tbl) ltac:(lia)).
  replace (g - S i)%nat with k in IH by lia.
  rewrite IH. apply length_alter.
Qed.

Lemma threads_stored_lookup cpu_at cluster core_ (g : nat) :
  forall (k i : nat) (tbl : list cpu_topology_t) (a : nat),
    (g - i = k)%nat ->
    let tbl' := threads_stored cpu_at cluster core_ i g tbl in
    thread_sibling (tbl' !!! a) = thread_sibling (tbl !!! a) /\
    core_sibling (tbl' !!! a) = core_sibling (tbl !!! a) /\
    ((forall j, (i <= j < g)%nat -> cpu_at j <> a) ->
     tbl' !!! a = tbl !!! a) /\
    (forall j, (i <= j < g)%nat -> cpu_at j = a ->
       (forall j', (j < j' < g)%nat -> cpu_at j' <> a) ->
       (a < length tbl)%nat ->
       ids (tbl' !!! a) = (Z.of_nat j, core_, cluster)).
Proof.
  unfold threads_stored.
  induction k as [|k IH]; intros i tbl a Hk; rewrite Hk; simpl.
  - split; [reflexivity|]. split; [reflexivity|]. split; [reflexivity|].
    intros j Hj. lia.
  - set (f := fun e => set_thread_id (Z.of_nat i)
                         (set_core_id core_ (set_cluster_id cluster e))).
    specialize (IH (S i) (alter f (cpu_at i) tbl) a ltac:(lia)).
    replace (g - S i)%nat with k in IH by lia.
    destruct IH as (IHt & IHc & IHother & IHj).
    assert (Hstep : thread_sibling (alter f (cpu_at i) tbl !!! a)
                    = thread_sibling (tbl !!! a) /\
                    core_sibling (alter f (cpu_at i) tbl !!! a)
                    = core_sibling (tbl !!! a)).
    { rewrite list_lookup_total_alter. case_decide as Hd; [|auto].
      destruct Hd as [-> _]. auto. }
    destruct Hstep as [Hst Hsc].
    split; [congruence|]. split; [congruence|]. split.
    + intros Hno. rewrite IHother by (intros j Hj; apply Hno; lia).
      apply list_lookup_total_alter_ne. apply Hno. lia.
    + intros j Hj Hat Hlast Hlt.
      destruct (Nat.eq_dec j i) as [->|Hne].
      * rewrite IHother by (intros j' Hj'; apply Hlast; lia).
        rewrite <- Hat. rewrite list_lookup_total_alter_eq by lia.
        reflexivity.
      * apply IHj; [lia|exact Hat|exact Hlast|].
        rewrite length_alter. exact Hlt.
Qed.

(** X16: a core with threads [thread0 .. thread(g-1)] that all resolve,
    and no ["cpu"] reference of its own that does, is accepted:
    [parse_core] returns 0 and the CPU of thread [j] receives
    [(cluster_id, core_id, thread_id = j)] (the last thread wins if two
    name the same CPU).  Entries of other CPUs and all sibling masks are
    left as they were. *)
Theorem parse_core_threads_assigned (core : device_node)
    (cpu_at : nat -> nat) (g : nat) (cluster core_ : Z) (fuel : nat)
    (st : topo_state) :
  (1 <= g < 100)%nat ->
  (forall j, (j < g)%nat ->
     exists t n,
       of_get_child_by_name core (snprintf_d 10 "thread" (Z.of_nat j))
         = Some t /\
       dn_cpu t = Some n /\ cpu_of_node E n = Some (cpu_at j)) ->
  of_get_child_by_name core (snprintf_d 10 "thread" (Z.of_nat g)) = None ->
  unresolved E core ->
  length (cpu_topology st) = NR_CPUS ->
  (g < fuel)%nat ->
  exists st',
    parse_core fuel E core cluster core_ st = Some (0, st') /\
    length (cpu_topology st') = NR_CPUS /\
    (forall j, (j < g)%nat ->
       (cpu_at j < NR_CPUS)%nat /\
       ((forall j', (j < j' < g)%nat -> cpu_at j' <> cpu_at j) ->
        thread_id (cpu_topology st' !!! cpu_at j) = Z.of_nat j /\
        core_id (cpu_topology st' !!! cpu_at j) = core_ /\
        cluster_id (cpu_topology st' !!! cpu_at j) = cluster)) /\
    (forall a,
       thread_sibling (cpu_topology st' !!! a)
         = thread_sibling (cpu_topology st !!! a) /\
       core_sibling (cpu_topology st' !!! a)
         = core_sibling (cpu_topology st !!! a) /\
       ((forall j, (j < g)%nat -> cpu_at j <> a) ->
        cpu_topology st' !!! a = cpu_topology st !!! a)).
Proof.
  intros Hg Hthreads Hgap Hun Hlen Hfuel.
  pose proof (parse_core_threads_resolved core cluster core_ cpu_at g
                ltac:(lia) Hthreads Hgap fuel 0%nat true st
                ltac:(lia) ltac:(lia)) as Hloop.
  change (Z.of_nat 0) with 0 in Hloop.
  destruct (Nat.ltb_spec 0 g); [|lia].
  set (st1 := upd_topology (threads_stored cpu_at cluster core_ 0 g) st)
    in *.
  pose proof (get_cpu_for_node_unresolved E core st1 Hun) as Hcpu.
  pose proof (get_cpu_for_node_table E core st1) as Htbl.
  exists (snd (get_cpu_for_node E core st1)).
  split.
  { unfold parse_core. rewrite Hloop. simpl.
    destruct (get_cpu_for_node E core st1) as [cpu st2]. simpl in *.
    subst cpu. reflexivity. }
  rewrite Htbl. simpl.
  pose proof (threads_stored_length cpu_at cluster core_ g g 0%nat
                (cpu_topology st) ltac:(lia)) as Hl.
  split; [congruence|]. split.
  - intros j Hj.
    assert (Hlt : (cpu_at j < NR_CPUS)%nat).
    { destruct (Hthreads j Hj) as (t & n & _ & _ & Hc).
      unfold cpu_of_node in Hc. apply find_some in Hc.
      eapply for_each_possible_cpu_lt, Hc. }
    split; [exact Hlt|]. intros Hlast.
    destruct (threads_stored_lookup cpu_at cluster core_ g g 0%nat
                (cpu_topology st) (cpu_at j) ltac:(lia))
      as (_ & _ & _ & Hids).
    specialize (Hids j ltac:(lia) eq_refl Hlast ltac:(lia)).
    unfold ids in Hids. injection Hids as -> -> ->. auto.
  - intros a.
    destruct (threads_stored_lookup cpu_at cluster core_ g g 0%nat
                (cpu_topology st) a ltac:(lia)) as (Ht & Hc & Hother & _).
    split; [exact Ht|]. split; [exact Hc|].
    intros Hno. apply Hother. intros j Hj. apply Hno. lia.
Qed.
End ParseWrites.

(** ** Performance domains: what gets published *)

Lemma find_pd_spec (pd : list perf_domain) (cpu : nat) :
  (find_pd pd cpu = [] <->
   forall p, In p pd -> cpumask_test_cpu cpu (perf_domain_span p) = false) /\
  (forall p rest, find_pd pd cpu = p :: rest ->
     cpumask_test_cpu cpu (perf_domain_span p) = true /\
     exists before, pd = before ++ p :: rest /\
       forall q, In q before ->
         cpumask_test_cpu cpu (perf_domain_span q) = false).
Proof.
  induction pd as [|q pd [IHnil IHcons]]; simpl.
  - split; [intuition|intros; discriminate].
  - destruct (cpumask_test_cpu cpu (perf_domain_span q)) eqn:Hq.
    + split.
      * split; [discriminate|]. intros H.
        specialize (H q (or_introl eq_refl)). congruence.
      * intros p rest Heq. injection Heq as <- <-. split; [exact Hq|].
        exists []. split; [reflexivity|]. intros ? [].
    + split.
      * rewrite IHnil. split.
        -- intros H p [<-|Hp]; auto.
        -- intros H p Hp. apply H. right. exact Hp.
      * intros p rest Heq. destruct (IHcons p rest Heq)
          as (Hp & before & -> & Hbefore).
        split; [exact Hp|]. exists (q :: before). split; [reflexivity|].
        intros x [<-|Hx]; auto.
Qed.

Lemma find_pd_spanned pd cpu :
  is_null (find_pd pd cpu) = false <-> spanned pd cpu.
Proof.
  destruct (find_pd_spec pd cpu) as [Hnil Hcons]. split.
  - destruct (find_pd pd cpu) as [|p rest] eqn:Hf; [discriminate|].
    intros _. destruct (Hcons p rest eq_refl) as (Hp & before & -> & _).
    exists p. split; [|exact Hp]. apply in_or_app. right. left. reflexivity.
  - intros (p & Hin & Hp).
    destruct (find_pd pd cpu) as [|q rest] eqn:Hf; [|reflexivity].
    destruct Hnil as [Hnil _]. rewrite (Hnil eq_refl p Hin) in Hp.
    discriminate.
Qed.

Lemma build_loop_made E cpu_map old (cpus : list nat) :
  forall b log b' log',
    build_perf_domains_loop E cpu_map old cpus b log = (Some b', log') ->
    (exists added,
       b_pd b' = added ++ b_pd b /\
       (length added <= length cpus)%nat /\
       forall p, In p added -> pd_made_for E cpus p) /\
    ((forall i obj, em_cpu_get E i = Some obj ->
        cpumask_test_cpu i (em_span_cpus obj) = true) ->
     forall i, In i cpus -> spanned (b_pd b') i) /\
    (exists more, log' = log ++ more).
Proof.
  induction cpus as [|i rest IH]; intros b log b' log' Hrun; simpl in Hrun.
  - injection Hrun as <- <-. split; [|split].
    + exists []. split; [reflexivity|]. split; [simpl; lia|intros ? []].
    + intros _ i [].
    + exists []. rewrite app_nil_r. reflexivity.
  - destruct (is_null (find_pd (b_pd b) i)) eqn:Hfind; simpl in Hrun.
    + destruct (cpufreq_cpu_get E i) as [policy|] eqn:Hpol; [|discriminate].
      destruct (is_schedutil (governor policy)) eqn:Hgov; simpl in Hrun;
        [|discriminate].
      unfold pd_init in Hrun.
      destruct (em_cpu_get E i) as [obj|] eqn:Hem; [|discriminate].
      destruct (kzalloc_ok E i) eqn:Hk; [|discriminate].
      apply IH in Hrun. simpl in Hrun.
      destruct Hrun as ((added & Heq & Hlen & Hmade) & Hcov & Hlog).
      split; [|split; [|exact Hlog]].
      * exists (added ++ [{| em_pd := obj |}]).
        rewrite <- app_assoc. split; [exact Heq|]. split.
        -- rewrite length_app. simpl. lia.
        -- intros p Hp. apply in_app_or in Hp. destruct Hp as [Hp|[<-|[]]].
           ++ destruct (Hmade p Hp) as (j & pol & Hj & ?).
              exists j, pol. split; [right; exact Hj|assumption].
           ++ exists i, policy. simpl. repeat split; auto.
              destruct (governor policy); [reflexivity|discriminate].
      * intros Hwf j [<-|Hj]; [|apply Hcov; assumption].
        exists {| em_pd := obj |}. split.
        -- rewrite Heq. apply in_or_app. right. left. reflexivity.
        -- apply Hwf, Hem.
    + apply IH in Hrun.
      destruct Hrun as ((added & Heq & Hlen & Hmade) & Hcov & Hlog).
      split; [|split; [|exact Hlog]].
      * exists added. split; [exact Heq|]. split; [simpl; lia|].
        intros p Hp. destruct (Hmade p Hp) as (j & pol & Hj & ?).
        exists j, pol. split; [right; exact Hj|assumption].
      * intros Hwf j [<-|Hj]; [|apply Hcov; assumption].
        apply find_pd_spanned in Hfind.
        destruct Hfind as (p & Hp & Hspan). exists p. split; [|exact Hspan].
        rewrite Heq. apply in_or_app. right. exact Hp.
Qed.

Lemma build_loop_log E cpu_map old (cpus : list nat) :
  forall b log r log',
    build_perf_domains_loop E cpu_map old cpus b log = (r, log') ->
    exists more, log' = log ++ more /\
      (is_null old = true -> ~ In (warn_schedutil_mandatory cpu_map) more).
Proof.
  induction cpus as [|i rest IH]; intros b log r log' Hrun; simpl in Hrun.
  - injection Hrun as _ <-. exists []. rewrite app_nil_r. auto.
  - destruct (negb (is_null (find_pd (b_pd b) i))); [eauto|].
    destruct (cpufreq_cpu_get E i) as [policy|].
    2:{ injection Hrun as _ <-. exists []. rewrite app_nil_r. auto. }
    destruct (negb (is_schedutil (governor policy))).
    { injection Hrun as _ <-. destruct (is_null old) eqn:Hold; simpl.
      - exists []. rewrite app_nil_r. auto.
      - exists [warn_schedutil_mandatory cpu_map]. split; [reflexivity|].
        discriminate. }
    unfold pd_init in Hrun.
    destruct (em_cpu_get E i) as [obj|].
    + destruct (kzalloc_ok E i); [eauto|].
      injection Hrun as _ <-. exists []. rewrite app_nil_r. auto.
    + injection Hrun as _ <-. destruct (sched_debug E).
      * exists [info_no_em i]. split; [reflexivity|].
        intros _ [H|[]]. discriminate.
      * exists []. rewrite app_nil_r. auto.
Qed.

Section PublishFacts.
Context {K : kconfig}.

(** X17: whatever path [build_perf_domains] takes, it swaps the root
    domain's list exactly once: the list published before, if there was
    one, is queued for destruction and nothing else is; the list published
    now is either empty or the complete list of a finished traversal that
    passed the complexity gate, never a partial one; and the log only
    grows. *)
Theorem build_perf_domains_swap (E : sched_env) (cpu_map : cpumask)
    (s : sched_state) :
  let s' := build_perf_domains E cpu_map s in
  rcu_callbacks s' =
    rcu_callbacks s ++ (if is_null (rd_pd s) then [] else [rd_pd s]) /\
  (rd_pd s' = [] \/
   exists b log,
     sd_asym_cpucapacity E (cpumask_first cpu_map) = true /\
     build_traverse E cpu_map s = (Some b, log) /\
     em_complexity (b_nr_pd b) (b_nr_cs b)
       (wrap_int (cpumask_weight cpu_map)) <= EM_MAX_COMPLEXITY /\
     rd_pd s' = b_pd b) /\
  (exists more, sched_log s' = sched_log s ++ more).
Proof.
  intros s'. subst s'. unfold build_perf_domains.
  assert (Hq : forall pd log,
            rcu_callbacks (attach_pd pd log s) =
            rcu_callbacks s ++ (if is_null (rd_pd s) then [] else [rd_pd s])).
  { intros pd log. unfold attach_pd. simpl.
    destruct (is_null (rd_pd s)); simpl; [rewrite app_nil_r|]; reflexivity. }
  destruct (sd_asym_cpucapacity E (cpumask_first cpu_map)) eqn:Hasym;
    cbn [negb].
  - destruct (build_traverse E cpu_map s) as [[b|] log] eqn:Hrun.
    + unfold build_traverse in Hrun.
      destruct (build_loop_log _ _ _ _ _ _ _ _ Hrun) as (more & Hlog & _).
      unfold build_finish. cbv zeta.
      destruct (Z.gtb_spec (em_complexity (b_nr_pd b) (b_nr_cs b)
                              (wrap_int (cpumask_weight cpu_map)))
                           EM_MAX_COMPLEXITY) as [Hgt|Hle].
      * cbv iota. split; [apply Hq|]. split; [left; reflexivity|]. simpl.
        exists (more ++ [WARN_em_complexity cpu_map]).
        rewrite Hlog, app_assoc. reflexivity.
      * cbv iota. split; [apply Hq|]. split.
        -- right. exists b, log. unfold build_traverse. auto.
        -- simpl. unfold perf_domain_debug.
           destruct (negb (sched_debug E) || is_null (b_pd b)).
           ++ exists more. exact Hlog.
           ++ exists (more ++ [debug_perf_domains cpu_map (b_pd b)]).
              rewrite Hlog, app_assoc. reflexivity.
    + unfold build_traverse in Hrun.
      destruct (build_loop_log _ _ _ _ _ _ _ _ Hrun) as (more & Hlog & _).
      split; [apply Hq|]. split; [left; reflexivity|].
      exists more. exact Hlog.
  - split; [apply Hq|]. split; [left; reflexivity|]. simpl.
    destruct (sched_debug E).
    + eexists. reflexivity.
    + exists []. rewrite app_nil_r. reflexivity.
Qed.

(** X18: what a published list is made of.  Every domain on it is the
    energy model of a CPU of the target set whose cpufreq governor is
    schedutil, on a root domain that has the asymmetric-capacity marker;
    there are at most as many domains as CPUs in the set; and if every
    energy model spans the CPU it was looked up for, a non-empty list
    spans every CPU of the set. *)
Theorem build_perf_domains_published (E : sched_env) (cpu_map : cpumask)
    (s : sched_state) :
  let s' := build_perf_domains E cpu_map s in
  (forall p, In p (rd_pd s') ->
     sd_asym_cpucapacity E (cpumask_first cpu_map) = true /\
     pd_made_for E (for_each_cpu cpu_map) p) /\
  Z.of_nat (length (rd_pd s')) <= cpumask_weight cpu_map /\
  ((forall i obj, em_cpu_get E i = Some obj ->
      cpumask_test_cpu i (em_span_cpus obj) = true) ->
   rd_pd s' <> [] ->
   forall i, In i (for_each_cpu cpu_map) -> spanned (rd_pd s') i).
Proof.
  intros s'. subst s'. unfold build_perf_domains.
  destruct (sd_asym_cpucapacity E (cpumask_first cpu_map)) eqn:Hasym; simpl.
  2:{ split; [intros p []|]. split; [unfold cpumask_weight; lia|].
      intros _ H. contradiction. }
  destruct (build_traverse E cpu_map s) as [[b|] log] eqn:Hrun.
  2:{ split; [intros p []|]. split; [unfold cpumask_weight; simpl; lia|].
      intros _ H. contradiction. }
  unfold build_traverse in Hrun. apply build_loop_made in Hrun.
  simpl in Hrun. destruct Hrun as ((added & Heq & Hlen & Hmade) & Hcov & _).
  rewrite app_nil_r in Heq. subst added.
  unfold build_finish.
  destruct (em_complexity _ _ _ >? EM_MAX_COMPLEXITY); simpl.
  - split; [intros p []|]. split; [unfold cpumask_weight; lia|].
    intros _ H. contradiction.
  - split; [intros p Hp; split; [reflexivity|apply Hmade, Hp]|].
    split; [unfold cpumask_weight; lia|].
    intros Hwf _. apply Hcov, Hwf.
Qed.

(** X19: the "schedutil is mandatory" warning is for regressions only: a
    root domain that had nothing published never gets it, however the
    build ends. *)
Theorem build_perf_domains_warns_on_regression (E : sched_env)
    (cpu_map : cpumask) (s : sched_state) :
  rd_pd s = [] ->
  exists more,
    sched_log (build_perf_domains E cpu_map s) = sched_log s ++ more /\
    ~ In (warn_schedutil_mandatory cpu_map) more.
Proof.
  intros Hold. unfold build_perf_domains.
  destruct (sd_asym_cpucapacity E (cpumask_first cpu_map)); simpl.
  - destruct (build_traverse E cpu_map s) as [r log] eqn:Hrun.
    unfold build_traverse in Hrun.
    destruct (build_loop_log _ _ _ _ _ _ _ _ Hrun) as (more & Hlog & Hno).
    rewrite Hold in Hno. specialize (Hno eq_refl).
    destruct r as [b|].
    + unfold build_finish.
      destruct (em_complexity _ _ _ >? EM_MAX_COMPLEXITY); simpl.
      * exists (more ++ [WARN_em_complexity cpu_map]).
        rewrite Hlog, app_assoc. split; [reflexivity|].
        intros H. apply in_app_or in H. destruct H as [H|[H|[]]];
          [contradiction|discriminate].
      * unfold perf_domain_debug.
        destruct (negb (sched_debug E) || is_null (b_pd b)).
        -- exists more. auto.
        -- exists (more ++ [debug_perf_domains cpu_map (b_pd b)]).
           rewrite Hlog, app_assoc. split; [reflexivity|].
           intros H. apply in_app_or in H. destruct H as [H|[H|[]]];
             [contradiction|discriminate].
    + exists more. auto.
  - destruct (sched_debug E).
    + eexists. split; [reflexivity|]. intros [H|[]]. discriminate.
    + exists []. rewrite app_nil_r. auto.
Qed.
End PublishFacts.

(** ** Scheduling domains: the superset rule *)

Section DegenerateMore.
Context {K : kconfig}.

Lemma cpumask_equal_refl (m : cpumask) : cpumask_equal m m = true.
Proof.
  unfold cpumask_equal. apply forallb_forall. intros c _.
  apply Bool.eqb_reflx.
Qed.

Lemma parent_pflags_subset (nr_node_ids : Z) (parent : sched_domain) (c : Z) :
  Z.land c (flags parent) = 0 ->
  Z.land c (parent_pflags nr_node_ids parent) = 0.
Proof.
  intros H. unfold parent_pflags.
  destruct (negb (is_null (groups parent))); [|exact H].
  destruct (nr_node_ids =? 1);
    rewrite ?Z.land_assoc, H, ?Z.land_0_l; reflexivity.
Qed.

(** X20: the superset rule of [sd_parent_degenerate].  When parent and
    child span the same CPUs and every flag of the parent is also set in
    the child, the parent is redundant: the answer is 1 whatever the
    groups and the number of NUMA nodes.  In particular a domain is always
    redundant above a copy of itself. *)
Theorem sd_parent_degenerate_superset (nr_node_ids : Z)
    (sd parent : sched_domain) :
  cpumask_equal (sched_domain_span sd) (sched_domain_span parent) = true ->
  Z.land (Z.lnot (flags sd)) (flags parent) = 0 ->
  sd_parent_degenerate nr_node_ids sd parent = 1 /\
  sd_parent_degenerate nr_node_ids parent parent = 1.
Proof.
  intros Hspan Hflags. split.
  - unfold sd_parent_degenerate. rewrite Hspan.
    rewrite (parent_pflags_subset nr_node_ids parent _ Hflags).
    simpl. destruct (negb (sd_degenerate parent =? 0)); reflexivity.
  - unfold sd_parent_degenerate. rewrite cpumask_equal_refl.
    rewrite (parent_pflags_subset nr_node_ids parent);
      [|rewrite Z.land_comm; apply Z.land_lnot_diag].
    simpl. destruct (negb (sd_degenerate parent =? 0)); reflexivity.
Qed.
End DegenerateMore.
(** ** Reset, and what a failed discovery leaves *)

Lemma table_eq_lookup (tbl tbl' : list cpu_topology_t) :
  length tbl' = length tbl ->
  (forall a, (a < length tbl)%nat -> tbl' !!! a = tbl !!! a) ->
  tbl' = tbl.
Proof.
  intros Hlen Heq.
  apply (list_eq_same_length _ _ (length tbl)); [reflexivity|exact Hlen|].
  intros i x y Hlt Hx Hy.
  apply list_lookup_total_correct in Hx, Hy. subst x y. apply Heq, Hlt.
Qed.

Section ResetFacts.
Context {K : kconfig}.
Variable E : topo_env.

Lemma reset_cpu_topology_other (tbl : list cpu_topology_t) (a : nat) :
  length tbl = NR_CPUS ->
  ~ In a (for_each_possible_cpu E) ->
  reset_cpu_topology E tbl !!! a = tbl !!! a.
Proof.
  intros Hlen Hnot. unfold reset_cpu_topology.
  apply reset_cpu_fold_lookup; [|exact Hnot].
  intros x Hx. rewrite Hlen. eapply for_each_possible_cpu_lt, Hx.
Qed.

(** Two tables of [NR_CPUS] entries that agree outside the possible CPUs
    have the same reset. *)
Lemma reset_cpu_topology_ext (tbl tbl' : list cpu_topology_t) :
  length tbl = NR_CPUS -> length tbl' = NR_CPUS ->
  (forall a, ~ In a (for_each_possible_cpu E) -> tbl' !!! a = tbl !!! a) ->
  reset_cpu_topology E tbl' = reset_cpu_topology E tbl.
Proof.
  intros Hlen Hlen' Hout. apply table_eq_lookup.
  - rewrite !reset_cpu_topology_length. congruence.
  - intros a _.
    destruct (in_dec Nat.eq_dec a (for_each_possible_cpu E)) as [Hin|Hnot].
    + rewrite !reset_cpu_topology_lookup by assumption. reflexivity.
    + rewrite !reset_cpu_topology_other by assumption. apply Hout, Hnot.
Qed.

(** X21: [reset_cpu_topology] forgets whatever the possible CPUs held and
    nothing else: it is idempotent, its result does not depend on the
    former entries of the possible CPUs, and the entries of other CPU
    numbers are left as they were. *)
Theorem reset_cpu_topology_forgets (tbl tbl' : list cpu_topology_t) :
  length tbl = NR_CPUS -> length tbl' = NR_CPUS ->
  reset_cpu_topology E (reset_cpu_topology E tbl) = reset_cpu_topology E tbl /\
  ((forall a, ~ In a (for_each_possible_cpu E) -> tbl' !!! a = tbl !!! a) ->
   reset_cpu_topology E tbl' = reset_cpu_topology E tbl) /\
  (forall a, ~ In a (for_each_possible_cpu E) ->
     reset_cpu_topology E tbl !!! a = tbl !!! a).
Proof.
  intros Hlen Hlen'. split; [|split].
  - apply reset_cpu_topology_ext;
      [exact Hlen|rewrite reset_cpu_topology_length; exact Hlen|].
    intros a Ha. apply reset_cpu_topology_other; assumption.
  - apply reset_cpu_topology_ext; assumption.
  - intros a Ha. apply reset_cpu_topology_other; assumption.
Qed.

(** [st'] has the entries of [st] outside the possible CPUs. *)
Lemma parse_cluster_other_entries fuel cluster depth st ret st' :
  parse_cluster fuel E cluster depth st = Some (ret, st') ->
  forall a, ~ In a (for_each_possible_cpu E) ->
    cpu_topology st' !!! a = cpu_topology st !!! a.
Proof.
  intros Hrun.
  refine (parse_cluster_writes_ids E
            (fun s => forall a, ~ In a (for_each_possible_cpu E) ->
                       cpu_topology s !!! a = cpu_topology st !!! a)
            _ _ _ fuel cluster depth st ret st' _ Hrun).
  - intros m s Hs. exact Hs.
  - intros f i s Hi _ Hs a Ha. simpl.
    rewrite list_lookup_total_alter_ne by (intros ->; contradiction).
    apply Hs, Ha.
  - intros v s Hs. exact Hs.
  - reflexivity.
Qed.

Lemma parse_dt_topology_other_entries st ret st' :
  parse_dt_topology E st = Some (ret, st') ->
  forall a, ~ In a (for_each_possible_cpu E) ->
    cpu_topology st' !!! a = cpu_topology st !!! a.
Proof.
  destruct (of_cpu_map E) as [map|] eqn:Hmap.
  - rewrite (parse_dt_topology_map E map st Hmap).
    destruct (parse_cluster (parse_fuel map) E map 0 st)
      as [[r st1]|] eqn:Hp; [|discriminate].
    pose proof (parse_cluster_other_entries _ _ _ _ _ _ Hp) as Hout.
    destruct (negb (r =? 0)).
    + intros H. injection H as _ <-. exact Hout.
    + destruct (fold_left _ _ _) as [r2 st2] eqn:Hf.
      apply parse_dt_check_fold in Hf. destruct Hf as (Ht & _).
      intros H. injection H as _ <-. rewrite Ht. exact Hout.
  - destruct (parse_dt_topology_no_map E st Hmap) as (st1 & -> & Ht & _).
    intros H. injection H as _ <-. rewrite Ht. reflexivity.
Qed.

(** X22: a failed discovery leaves no trace in the table: when
    [parse_dt_topology] answers an error, the table [init_cpu_topology]
    leaves is exactly the reset of the table it started from, entry for
    entry, and the topology levels are not installed. *)
Theorem init_cpu_topology_failure_is_reset (st st1 : topo_state) (ret : Z) :
  length (cpu_topology st) = NR_CPUS ->
  parse_dt_topology E (upd_topology (reset_cpu_topology E) st)
    = Some (ret, st1) ->
  ret <> 0 ->
  exists st',
    init_cpu_topology E st = Some st' /\
    cpu_topology st' = reset_cpu_topology E (cpu_topology st) /\
    sched_topology_set st' = sched_topology_set st /\
    energy_costs_initialized st' = true.
Proof.
  intros Hlen Hparse Hret.
  exists (init_sched_energy_costs (upd_topology (reset_cpu_topology E) st1)).
  split.
  { unfold init_cpu_topology. rewrite Hparse.
    destruct (Z.eqb_spec ret 0) as [?|_]; [contradiction|]. reflexivity. }
  destruct (parse_dt_topology_same_masks E _ _ _ Hparse) as [Hl1 _].
  simpl in Hl1. rewrite reset_cpu_topology_length, Hlen in Hl1.
  pose proof (parse_dt_topology_other_entries _ _ _ Hparse) as Hout.
  simpl in Hout.
  split; [|split; [|reflexivity]].
  - simpl.
    rewrite (reset_cpu_topology_ext (reset_cpu_topology E (cpu_topology st))
               (cpu_topology st1));
      [|rewrite reset_cpu_topology_length; exact Hlen|exact Hl1|exact Hout].
    apply reset_cpu_topology_ext;
      [exact Hlen|rewrite reset_cpu_topology_length; exact Hlen|].
    intros a Ha. apply reset_cpu_topology_other; assumption.
  - simpl.
    destruct (of_cpu_map E) as [map|] eqn:Hmap.
    + rewrite (parse_dt_topology_map E map _ Hmap) in Hparse.
      destruct (parse_cluster (parse_fuel map) E map 0 _)
        as [[r stp]|] eqn:Hp; [|discriminate].
      apply parse_cluster_frame in Hp. destruct Hp as (_ & _ & _ & Hs & _).
      destruct (negb (r =? 0)); [injection Hparse as _ <-; exact Hs|].
      injection Hparse as Hf.
      assert (Hflags : forall l acc,
                sched_topology_set
                  (snd (fold_left (parse_dt_check_cpu E) l acc))
                = sched_topology_set (snd acc)).
      { induction l as [|c l IH]; intros acc; [auto|].
        cbn [fold_left]. rewrite IH.
        destruct acc as [r0 s0]. unfold parse_dt_check_cpu.
        destruct (of_get_cpu_node E c) as [cn|];
          [destruct (cn_efficiency cn)|]; auto. }
      specialize (Hflags (for_each_possible_cpu E) (0, stp)).
      rewrite Hf in Hflags. simpl in Hflags. simpl in Hs. congruence.
    + destruct (parse_dt_topology_no_map E (upd_topology (reset_cpu_topology E) st) Hmap) as (st2 & Hp & _).
      rewrite Hp in Hparse. injection Hparse as <- _. contradiction.
Qed.
End ResetFacts.

(** * Further worked configurations *)

Lemma update_siblings_masks_spec_witness :
  length (cpu_topology example_parsed) = @NR_CPUS mido_config /\
  (1 < @NR_CPUS mido_config)%nat /\
  cpumask_test_cpu 0
    (core_sibling
       (@update_siblings_masks mido_config example_env 1
          (cpu_topology example_parsed) !!! 1%nat)) = true /\
  cpumask_test_cpu 2
    (thread_sibling
       (@update_siblings_masks mido_config example_env 1
          (cpu_topology example_parsed) !!! 1%nat)) = true.
Proof.
  assert (Hlt : (1 < @NR_CPUS mido_config)%nat) by (vm_compute; lia).
  split; [reflexivity|]. split; [exact Hlt|].
  destruct (@update_siblings_masks_spec mido_config example_env 1
              (cpu_topology example_parsed) eq_refl Hlt)
    as (_ & _ & Hcs & Hts).
  split.
  - apply Hcs. right. split; [reflexivity|]. right.
    split; [reflexivity|]. vm_compute. auto.
  - apply Hts. right. split; [reflexivity|]. split; [reflexivity|]. right.
    split; [reflexivity|]. vm_compute. auto.
Defined.

Lemma example_others_lt (c : nat) :
  In c [0%nat; 2%nat] -> (c < @NR_CPUS mido_config)%nat.
Proof. intros [<-|[<-|[]]]; vm_compute; lia. Qed.

Lemma update_siblings_masks_idempotent_witness :
  length (cpu_topology example_parsed) = @NR_CPUS mido_config /\
  (1 < @NR_CPUS mido_config)%nat /\
  (forall c, In c [0%nat; 2%nat] -> (c < @NR_CPUS mido_config)%nat) /\
  @update_siblings_masks mido_config example_env 1
    (fold_left (fun tbl c => @update_siblings_masks mido_config example_env c tbl)
       [0%nat; 2%nat]
       (@update_siblings_masks mido_config example_env 1
          (cpu_topology example_parsed)))
  = fold_left (fun tbl c => @update_siblings_masks mido_config example_env c tbl)
      [0%nat; 2%nat]
      (@update_siblings_masks mido_config example_env 1
         (cpu_topology example_parsed)).
Proof.
  assert (Hlt : (1 < @NR_CPUS mido_config)%nat) by (vm_compute; lia).
  split; [reflexivity|]. split; [exact Hlt|].
  split; [exact example_others_lt|].
  apply (@update_siblings_masks_idempotent mido_config example_env 1
           [0%nat; 2%nat] (cpu_topology example_parsed) eq_refl Hlt
           example_others_lt).
Defined.

Lemma update_siblings_masks_commute_witness :
  length (cpu_topology example_parsed) = @NR_CPUS mido_config /\
  (0 < @NR_CPUS mido_config)%nat /\ (1 < @NR_CPUS mido_config)%nat /\
  @update_siblings_masks mido_config example_env 0
    (@update_siblings_masks mido_config example_env 1
       (cpu_topology example_parsed))
  = @update_siblings_masks mido_config example_env 1
      (@update_siblings_masks mido_config example_env 0
         (cpu_topology example_parsed)).
Proof.
  assert (H0 : (0 < @NR_CPUS mido_config)%nat) by (vm_compute; lia).
  assert (H1 : (1 < @NR_CPUS mido_config)%nat) by (vm_compute; lia).
  split; [reflexivity|]. split; [exact H0|]. split; [exact H1|].
  apply (@update_siblings_masks_commute mido_config example_env 0 1
           (cpu_topology example_parsed) eq_refl H0 H1).
Defined.

Lemma update_siblings_masks_invariants_witness :
  length (cpu_topology example_parsed) = @NR_CPUS mido_config /\
  (1 < @NR_CPUS mido_config)%nat /\
  In 1%nat (@for_each_possible_cpu mido_config example_env) /\
  cpumask_test_cpu 1
    (core_sibling
       (@update_siblings_masks mido_config example_env 1
          (cpu_topology example_parsed) !!! 1%nat)) = true /\
  cpumask_test_cpu 1
    (thread_sibling
       (@update_siblings_masks mido_config example_env 1
          (cpu_topology example_parsed) !!! 1%nat)) = true.
Proof.
  assert (Hlt : (1 < @NR_CPUS mido_config)%nat) by (vm_compute; lia).
  assert (Hin : In 1%nat (@for_each_possible_cpu mido_config example_env))
    by (vm_compute; auto).
  split; [reflexivity|]. split; [exact Hlt|]. split; [exact Hin|].
  destruct (@update_siblings_masks_invariants mido_config example_env 1
              (cpu_topology example_parsed) eq_refl Hlt) as (_ & _ & Hself).
  apply Hself, Hin.
Defined.

Lemma parse_dt_topology_writes_only_ids_witness :
  @parse_dt_topology mido_config example_env
    (upd_topology (@reset_cpu_topology mido_config example_env) boot_state)
  = Some (0, example_parsed) /\
  core_sibling (cpu_topology example_parsed !!! 1%nat)
  = core_sibling
      (@reset_cpu_topology mido_config example_env
         (cpu_topology boot_state) !!! 1%nat) /\
  sched_topology_set example_parsed = false.
Proof.
  assert (Hrun : @parse_dt_topology mido_config example_env
            (upd_topology (@reset_cpu_topology mido_config example_env)
                          boot_state)
          = Some (0, example_parsed)) by (vm_compute; reflexivity).
  split; [exact Hrun|].
  destruct (@parse_dt_topology_writes_only_ids mido_config example_env
              _ _ _ Hrun) as (_ & Hm & _ & Hs & _).
  split; [apply Hm|exact Hs].
Defined.

Lemma init_cpu_topology_siblings_witness :
  length (cpu_topology boot_state) = @NR_CPUS mido_config /\
  @parse_dt_topology mido_config example_env
    (upd_topology (@reset_cpu_topology mido_config example_env) boot_state)
  = Some (0, example_parsed) /\
  exists st',
    @init_cpu_topology mido_config example_env boot_state = Some st' /\
    (cpumask_test_cpu 2 (thread_sibling (cpu_topology st' !!! 1%nat)) = true
     <-> cluster_id (cpu_topology st' !!! 1%nat)
         = cluster_id (cpu_topology st' !!! 2%nat) /\
         core_id (cpu_topology st' !!! 1%nat)
         = core_id (cpu_topology st' !!! 2%nat)).
Proof.
  assert (Hrun : @parse_dt_topology mido_config example_env
            (upd_topology (@reset_cpu_topology mido_config example_env)
                          boot_state)
          = Some (0, example_parsed)) by (vm_compute; reflexivity).
  split; [reflexivity|]. split; [exact Hrun|].
  destruct (@init_cpu_topology_siblings mido_config example_env boot_state
              example_parsed eq_refl Hrun) as (st' & Hinit & Hsib & _).
  exists st'. split; [exact Hinit|].
  apply (Hsib 1%nat 2%nat); vm_compute; auto.
Defined.

Lemma store_cpu_topology_idempotent_witness :
  length (@reset_cpu_topology mido_config example_env
            (cpu_topology boot_state)) = @NR_CPUS mido_config /\
  (1 < @NR_CPUS mido_config)%nat /\
  @store_cpu_topology mido_config sample_mpidr example_env 0x101 1
    (@store_cpu_topology mido_config sample_mpidr example_env 0x101 1
       (@reset_cpu_topology mido_config example_env
          (cpu_topology boot_state)))
  = @store_cpu_topology mido_config sample_mpidr example_env 0x101 1
      (@reset_cpu_topology mido_config example_env
         (cpu_topology boot_state)).
Proof.
  assert (Hlt : (1 < @NR_CPUS mido_config)%nat) by (vm_compute; lia).
  split; [reflexivity|]. split; [exact Hlt|].
  apply (@store_cpu_topology_idempotent mido_config sample_mpidr example_env
           0x101 1
           (@reset_cpu_topology mido_config example_env
              (cpu_topology boot_state))
           eq_refl Hlt).
Defined.

Lemma store_cpu_topology_ids_witness :
  length (@reset_cpu_topology mido_config example_env
            (cpu_topology boot_state)) = @NR_CPUS mido_config /\
  (1 < @NR_CPUS mido_config)%nat /\
  ids (@store_cpu_topology mido_config sample_mpidr example_env 0x101 1
         (@reset_cpu_topology mido_config example_env
            (cpu_topology boot_state)) !!! 1%nat)
  = (-1, 1, 1).
Proof.
  assert (Hlt : (1 < @NR_CPUS mido_config)%nat) by (vm_compute; lia).
  split; [reflexivity|]. split; [exact Hlt|].
  destruct (@store_cpu_topology_ids mido_config sample_mpidr example_env
              0x101 1
              (@reset_cpu_topology mido_config example_env
                 (cpu_topology boot_state))
              eq_refl Hlt) as (_ & _ & _ & Hset & _).
  rewrite Hset; reflexivity.
Defined.

Lemma example_bring_up_lt (up : nat * Z) :
  In up example_bring_up -> (fst up < @NR_CPUS mido_config)%nat.
Proof. intros [<-|[<-|[<-|[]]]]; vm_compute; lia. Qed.

Lemma store_cpu_topologies_siblings_witness :
  length (cpu_topology boot_state) = @NR_CPUS mido_config /\
  (forall up, In up example_bring_up ->
     (fst up < @NR_CPUS mido_config)%nat) /\
  forall a b,
    In a (@for_each_possible_cpu mido_config example_env) ->
    cpumask_test_cpu b
      (thread_sibling
         (@store_cpu_topologies mido_config sample_mpidr example_env
            example_bring_up
            (@reset_cpu_topology mido_config example_env
               (cpu_topology boot_state)) !!! a)) = true ->
    cpumask_test_cpu b
      (core_sibling
         (@store_cpu_topologies mido_config sample_mpidr example_env
            example_bring_up
            (@reset_cpu_topology mido_config example_env
               (cpu_topology boot_state)) !!! a)) = true.
Proof.
  split; [reflexivity|]. split; [exact example_bring_up_lt|].
  apply (@store_cpu_topologies_siblings mido_config sample_mpidr example_env
           example_bring_up (cpu_topology boot_state) eq_refl
           example_bring_up_lt).
Defined.

Lemma parse_cluster_misplaced_core_witness :
  dt_small misplaced_map = true /\
  of_get_child_by_name misplaced_map "core0" <> None /\
  exists st',
    @parse_cluster mido_config (parse_fuel misplaced_map) partial_env
      misplaced_map 0 boot_state = Some (- EINVAL, st').
Proof.
  assert (Hc : of_get_child_by_name misplaced_map "core0" <> None)
    by (vm_compute; discriminate).
  split; [reflexivity|]. split; [exact Hc|].
  apply (@parse_cluster_misplaced_core mido_config partial_env
           misplaced_map 0 eq_refl Hc (or_introl eq_refl)).
  vm_compute. lia.
Defined.

Lemma parse_cluster_empty_cluster_witness :
  of_get_child_by_name empty_cluster "cluster0" = None /\
  of_get_child_by_name empty_cluster "core0" = None /\
  @parse_cluster mido_config 2 example_env empty_cluster 1 boot_state
  = Some (0, set_static_cluster_id 1
               (pr (warn_empty_cluster "cluster1") boot_state)).
Proof.
  split; [reflexivity|]. split; [reflexivity|].
  apply (@parse_cluster_empty_cluster mido_config example_env empty_cluster
           1 2 boot_state eq_refl eq_refl).
  lia.
Defined.

Lemma dangling_core_visited :
  visits_core dangling_map 0 dangling_core.
Proof.
  apply (visits_core_below dangling_map 0 0
           (DeviceNode "cluster0" None [dangling_core])).
  - lia.
  - intros j Hj. assert (j = 0%nat) as -> by lia. vm_compute. discriminate.
  - reflexivity.
  - apply (visits_core_here _ _ 0).
    + reflexivity.
    + vm_compute. discriminate.
    + lia.
    + intros j Hj. assert (j = 0%nat) as -> by lia. vm_compute. discriminate.
    + reflexivity.
Qed.

Lemma parse_cluster_unresolved_reference_witness :
  dt_small dangling_map = true /\
  visits_core dangling_map 0 dangling_core /\
  of_get_child_by_name dangling_core "thread0" = None /\
  @unresolved mido_config dangling_env dangling_core /\
  of_cpu_map dangling_env = Some dangling_map /\
  exists st',
    @parse_dt_topology mido_config dangling_env
      (upd_topology (@reset_cpu_topology mido_config dangling_env) boot_state)
    = Some (- EINVAL, st').
Proof.
  assert (Hu : @unresolved mido_config dangling_env dangling_core)
    by reflexivity.
  split; [reflexivity|]. split; [exact dangling_core_visited|].
  split; [reflexivity|]. split; [exact Hu|]. split; [reflexivity|].
  destruct (@parse_cluster_unresolved_reference mido_config dangling_env
              dangling_map dangling_core eq_refl dangling_core_visited
              (or_introl (conj eq_refl Hu))) as (_ & Hdt).
  apply Hdt. reflexivity.
Defined.

Lemma parse_dt_topology_all_cpus_witness :
  of_cpu_map partial_env = Some partial_map /\
  @parse_cluster mido_config (parse_fuel partial_map) partial_env partial_map 0
    (upd_topology (@reset_cpu_topology mido_config partial_env) boot_state)
  = Some (0, partial_parsed) /\
  exists st',
    @parse_dt_topology mido_config partial_env
      (upd_topology (@reset_cpu_topology mido_config partial_env) boot_state)
    = Some (- EINVAL, st') /\
    cpu_topology st' = cpu_topology partial_parsed.
Proof.
  split; [reflexivity|]. split; [reflexivity|].
  destruct (@parse_dt_topology_all_cpus mido_config partial_env partial_map
              (upd_topology (@reset_cpu_topology mido_config partial_env)
                            boot_state)
              partial_parsed eq_refl eq_refl)
    as (ret & st' & Hrun & Hiff & Herr & Htbl).
  exists st'. split; [|exact Htbl].
  rewrite Hrun. f_equal. f_equal. apply Herr.
  intros Hz. destruct Hiff as [Hall _]. apply (Hall Hz 1%nat).
  - vm_compute. auto.
  - reflexivity.
Defined.

Lemma parse_core_leaf_witness :
  of_get_child_by_name (leaf_node "core0" 100) "thread0" = None /\
  dn_cpu (leaf_node "core0" 100) = Some 100%nat /\
  @cpu_of_node mido_config partial_env 100 = Some 0%nat /\
  length (cpu_topology boot_state) = @NR_CPUS mido_config /\
  exists st',
    @parse_core mido_config 1 partial_env (leaf_node "core0" 100) 3 5
      boot_state = Some (0, st') /\
    cluster_id (cpu_topology st' !!! 0%nat) = 3 /\
    core_id (cpu_topology st' !!! 0%nat) = 5.
Proof.
  split; [reflexivity|]. split; [reflexivity|]. split; [reflexivity|].
  split; [reflexivity|].
  destruct (@parse_core_leaf mido_config partial_env (leaf_node "core0" 100)
              100 0 3 5 1 boot_state eq_refl eq_refl eq_refl eq_refl
              (le_n 1))
    as (st' & Hrun & _ & Hcl & Hco & _).
  exists st'. auto.
Defined.

Lemma threaded_core_threads (j : nat) :
  (j < 2)%nat ->
  exists t n,
    of_get_child_by_name threaded_core
      (snprintf_d 10 "thread" (Z.of_nat j)) = Some t /\
    dn_cpu t = Some n /\
    @cpu_of_node mido_config example_env n = Some (S j).
Proof.
  intros Hj. destruct j as [|[|j]]; [| |lia].
  - exists (leaf_node "thread0" 101), 101%nat. repeat split.
  - exists (leaf_node "thread1" 102), 102%nat. repeat split.
Qed.

Lemma parse_core_threads_assigned_witness :
  (1 <= 2 < 100)%nat /\
  of_get_child_by_name threaded_core (snprintf_d 10 "thread" 2) = None /\
  @unresolved mido_config example_env threaded_core /\
  length (cpu_topology boot_state) = @NR_CPUS mido_config /\
  exists st',
    @parse_core mido_config 3 example_env threaded_core 0 1 boot_state
    = Some (0, st') /\
    thread_id (cpu_topology st' !!! 2%nat) = 1 /\
    core_id (cpu_topology st' !!! 2%nat) = 1 /\
    cluster_id (cpu_topology st' !!! 2%nat) = 0.
Proof.
  assert (Hg : (1 <= 2 < 100)%nat) by lia.
  assert (Hu : @unresolved mido_config example_env threaded_core)
    by exact I.
  split; [exact Hg|]. split; [reflexivity|]. split; [exact Hu|].
  split; [reflexivity|].
  destruct (@parse_core_threads_assigned mido_config example_env
              threaded_core S 2 0 1 3 boot_state Hg threaded_core_threads
              eq_refl Hu eq_refl (le_n 3))
    as (st' & Hrun & _ & Hids & _).
  exists st'. split; [exact Hrun|].
  destruct (Hids 1%nat (le_n 2)) as (_ & Hset).
  apply Hset. intros j' Hj'. lia.
Defined.

Lemma build_perf_domains_warns_on_regression_witness :
  rd_pd idle_sched_state = [] /\
  exists more,
    sched_log (@build_perf_domains mido_config eas_env 0xff idle_sched_state)
    = sched_log idle_sched_state ++ more /\
    ~ In (warn_schedutil_mandatory 0xff) more.
Proof.
  split; [reflexivity|].
  apply (@build_perf_domains_warns_on_regression mido_config eas_env 0xff
           idle_sched_state eq_refl).
Defined.

Lemma sd_parent_degenerate_superset_witness :
  @cpumask_equal mido_config (sched_domain_span balancing_child)
    (sched_domain_span balancing_parent) = true /\
  Z.land (Z.lnot (flags balancing_child)) (flags balancing_parent) = 0 /\
  @sd_degenerate mido_config balancing_parent = 0 /\
  @sd_parent_degenerate mido_config 1 balancing_child balancing_parent = 1.
Proof.
  split; [reflexivity|]. split; [reflexivity|]. split; [reflexivity|].
  apply (@sd_parent_degenerate_superset mido_config 1 balancing_child
           balancing_parent eq_refl eq_refl).
Defined.

Lemma example_parsed_outside (a : nat) :
  ~ In a (@for_each_possible_cpu mido_config example_env) ->
  cpu_topology example_parsed !!! a = cpu_topology boot_state !!! a.
Proof.
  intros Hout.
  do 8 (destruct a as [|a];
        [first [reflexivity | exfalso; apply Hout; vm_compute; tauto]|]).
  reflexivity.
Qed.

Lemma reset_cpu_topology_forgets_witness :
  length (cpu_topology boot_state) = @NR_CPUS mido_config /\
  length (cpu_topology example_parsed) = @NR_CPUS mido_config /\
  @reset_cpu_topology mido_config example_env (cpu_topology example_parsed)
  = @reset_cpu_topology mido_config example_env (cpu_topology boot_state).
Proof.
  split; [reflexivity|]. split; [reflexivity|].
  destruct (@reset_cpu_topology_forgets mido_config example_env
              (cpu_topology boot_state) (cpu_topology example_parsed)
              eq_refl eq_refl) as (_ & Hext & _).
  apply Hext, example_parsed_outside.
Defined.

Lemma init_cpu_topology_failure_is_reset_witness :
  length (cpu_topology boot_state) = @NR_CPUS mido_config /\
  @parse_dt_topology mido_config partial_env
    (upd_topology (@reset_cpu_topology mido_config partial_env) boot_state)
  = Some (- EINVAL, partial_failed) /\
  - EINVAL <> 0 /\
  exists st',
    @init_cpu_topology mido_config partial_env boot_state = Some st' /\
    cpu_topology st'
    = @reset_cpu_topology mido_config partial_env (cpu_topology boot_state) /\
    sched_topology_set st' = sched_topology_set boot_state /\
    energy_costs_initialized st' = true.
Proof.
  assert (Hne : - EINVAL <> 0) by (vm_compute; discriminate).
  split; [reflexivity|]. split; [reflexivity|]. split; [exact Hne|].
  apply (@init_cpu_topology_failure_is_reset mido_config partial_env
           boot_state partial_failed (- EINVAL) eq_refl eq_refl Hne).
Defined.

Lemma get_cpu_for_node_spec_witness :
  dn_cpu empty_cluster = None /\
  fst (@get_cpu_for_node mido_config example_env empty_cluster boot_state)
  = -1 /\
  snd (@get_cpu_for_node mido_config example_env empty_cluster boot_state)
  = boot_state.
Proof.
  destruct (@get_cpu_for_node_spec mido_config example_env empty_cluster
              boot_state) as (_ & Hnone & _ & _ & _ & Hsame).
  split; [reflexivity|]. split; [apply Hnone; exact I|apply Hsame; reflexivity].
Defined.

Lemma em_of_cpu_spans (i : nat) (obj : em_perf_domain) :
  em_cpu_get eas_env i = Some obj ->
  cpumask_test_cpu i (em_span_cpus obj) = true.
Proof.
  do 8 (destruct i as [|i];
        [intros H; injection H as <-; reflexivity|]).
  discriminate.
Qed.

Lemma build_perf_domains_published_witness :
  (forall i obj, em_cpu_get eas_env i = Some obj ->
     cpumask_test_cpu i (em_span_cpus obj) = true) /\
  rd_pd (@build_perf_domains mido_config eas_env 0xff idle_sched_state)
    <> [] /\
  spanned
    (rd_pd (@build_perf_domains mido_config eas_env 0xff idle_sched_state))
    5.
Proof.
  assert (Hne : rd_pd (@build_perf_domains mido_config eas_env 0xff
                         idle_sched_state) <> [])
    by (vm_compute; discriminate).
  split; [exact em_of_cpu_spans|]. split; [exact Hne|].
  destruct (@build_perf_domains_published mido_config eas_env 0xff
              idle_sched_state) as (_ & _ & Hspan).
  apply (Hspan em_of_cpu_spans Hne). vm_compute. tauto.
Defined.
